(** * go-pdns: the PowerDNS pipe-backend engine and its dispatch DSL

    A shallow embedding of [pipe/backend] (handshake, versioned codec, the
    read-dispatch-respond loop) and of [pipe/dsl] (ordered pattern-matched
    registrations and the dispatch pass), followed by the properties that the
    specification states about them.

    Conventions of the embedding:
    - a Go [string] is a [string] of bytes ([ascii]); [int] is [Z];
    - a Go [error] is a value of [error]: [io.EOF], compared by identity in
      the source, is its own constructor, every other error is its text;
    - a function returning [(T, error)] returns a pair with an [option error];
    - a method on a pointer receiver takes the record and returns the updated
      record;
    - a run-time panic of the Go program is an explicit outcome. *)

From Stdlib Require Import ZArith Lia Ascii String DecimalString.
From stdpp Require Import base list strings gmap.

Local Open Scope string_scope.
Local Open Scope Z_scope.

(** ** Bytes and the [strings] functions the program calls *)

Module Strings.

Definition TAB : ascii := "009"%char.
Definition LF : ascii := "010"%char.
Definition CR : ascii := "013"%char.
Definition SP : ascii := " "%char.

Definition tab : string := String TAB "".
Definition nl : string := String LF "".

(** Prepend a byte to the first piece of a split. *)
Definition cons_head (c : ascii) (l : list string) : list string :=
  match l with
  | [] => [String c ""]
  | h :: t => String c h :: t
  end.

(** [strings.Split(s, sep)] for a one-byte separator: the pieces between
    the separators, one more than there are separators. *)
Fixpoint Split (s : string) (sep : ascii) : list string :=
  match s with
  | "" => [""]
  | String c s' =>
      if Ascii.eqb c sep then "" :: Split s' sep
      else cons_head c (Split s' sep)
  end.

(** [strings.SplitN(s, sep, n)] for a one-byte separator and [n >= 0]:
    at most [n] pieces, the last one being the unsplit remainder. *)
Fixpoint SplitN (s : string) (sep : ascii) (n : nat) {struct s} : list string :=
  match n with
  | O => []
  | S O => [s]
  | S n' =>
      match s with
      | "" => [""]
      | String c s' =>
          if Ascii.eqb c sep then "" :: SplitN s' sep n'
          else cons_head c (SplitN s' sep n)
      end
  end.

(** Membership of a byte in a cutset. *)
Fixpoint in_cutset (c : ascii) (cutset : string) : bool :=
  match cutset with
  | "" => false
  | String d rest => Ascii.eqb c d || in_cutset c rest
  end.

(** [strings.TrimRight(s, cutset)]: drop every trailing byte of the cutset. *)
Fixpoint TrimRight (s : string) (cutset : string) : string :=
  match s with
  | "" => ""
  | String c s' =>
      match TrimRight s' cutset with
      | "" => if in_cutset c cutset then "" else String c ""
      | r => String c r
      end
  end.

(** [strings.Replace(s, old, new, -1)] for one-byte [old] and [new]. *)
Fixpoint ReplaceAll (s : string) (old new : ascii) : string :=
  match s with
  | "" => ""
  | String c s' =>
      String (if Ascii.eqb c old then new else c) (ReplaceAll s' old new)
  end.

(** [strings.Join(l, sep)]; the program spells its joins out as
    [fmt.Sprintf] formats, which [Query.String] and [Response.String]
    below follow literally. *)
Fixpoint Join (l : list string) (sep : string) : string :=
  match l with
  | [] => ""
  | [x] => x
  | x :: rest => x +:+ sep +:+ Join rest sep
  end.

(** A byte occurs in a string. *)
Fixpoint has_byte (c : ascii) (s : string) : bool :=
  match s with
  | "" => false
  | String d s' => Ascii.eqb c d || has_byte c s'
  end.

(** [strings.HasPrefix] and [strings.Contains]. *)
Fixpoint HasPrefix (s p : string) : bool :=
  match p, s with
  | "", _ => true
  | String a p', String b s' => Ascii.eqb a b && HasPrefix s' p'
  | String _ _, "" => false
  end.

Fixpoint Contains (s sub : string) : bool :=
  HasPrefix s sub ||
  match s with
  | "" => false
  | String _ s' => Contains s' sub
  end.

End Strings.

Import Strings.

(** ** Errors *)

(** [io.EOF] is recognised by identity ([err == io.EOF]); every other
    error is known to the program through its [Error()] text only,
    which [ErrorText] gives. *)
Inductive error : Type :=
  | EOF
  | ErrorString (msg : string).

Definition ErrorText (e : error) : string :=
  match e with
  | EOF => "EOF"
  | ErrorString msg => msg
  end.

Definition errors_New (msg : string) : error := ErrorString msg.

Definition is_EOF (e : error) : bool :=
  match e with
  | EOF => true
  | ErrorString _ => false
  end.

(** ** [strconv] *)

Module strconv.

(** Go's [int] on the 64-bit platforms the program is built for. *)
Definition maxInt : Z := 2 ^ 63 - 1.
Definition minInt : Z := - 2 ^ 63.

Definition digit_of (c : ascii) : option Z :=
  let n := Z.of_nat (nat_of_ascii c) in
  if (48 <=? n) && (n <=? 57) then Some (n - 48) else None.

Fixpoint digits (s : string) (acc : Z) : option Z :=
  match s with
  | "" => Some acc
  | String c s' =>
      match digit_of c with
      | Some d => digits s' (acc * 10 + d)
      | None => None
      end
  end.

(** An optional sign followed by at least one decimal digit. *)
Definition parse_decimal (s : string) : option Z :=
  match s with
  | "" => None
  | String c s' =>
      if Ascii.eqb c "+"%char then
        match s' with "" => None | _ => digits s' 0 end
      else if Ascii.eqb c "-"%char then
        match s' with "" => None | _ => Z.opp <$> digits s' 0 end
      else digits s 0
  end.

(** [strconv.Atoi]: base-10 text to [int]. A syntax error yields 0, a
    value outside [int] yields the nearest bound; both come with an error,
    whose text the program never looks at. *)
Definition Atoi (s : string) : Z * option error :=
  match parse_decimal s with
  | None => (0, Some (ErrorString "strconv.Atoi: invalid syntax"))
  | Some n =>
      if n >? maxInt
      then (maxInt, Some (ErrorString "strconv.Atoi: value out of range"))
      else if n <? minInt
      then (minInt, Some (ErrorString "strconv.Atoi: value out of range"))
      else (n, None)
  end.

(** [strconv.Itoa]. *)
Definition Itoa (n : Z) : string := NilZero.string_of_int (Z.to_int n).

End strconv.

(** ** Package [backend]: the versioned codec *)

Module backend.

Module Query.

Record t : Type := mk {
  ProtocolVersion : Z;
  QName : string;
  QClass : string;
  QType : string;
  Id : string;
  RemoteIpAddress : string;
  LocalIpAddress : string;
  EdnsSubnetAddress : string
}.

(** The zero value with the version set: [Query{ProtocolVersion: v}]. *)
Definition zero (v : Z) : t := mk v "" "" "" "" "" "" "".

Definition set_LocalIpAddress (s : string) (q : t) : t :=
  mk (ProtocolVersion q) (QName q) (QClass q) (QType q) (Id q)
     (RemoteIpAddress q) s (EdnsSubnetAddress q).

Definition set_EdnsSubnetAddress (s : string) (q : t) : t :=
  mk (ProtocolVersion q) (QName q) (QClass q) (QType q) (Id q)
     (RemoteIpAddress q) (LocalIpAddress q) s.

(** The five assignments under [// common] in [fromData]. *)
Definition set_common (parts : list string) (q : t) : t :=
  mk (ProtocolVersion q) (parts !!! 0%nat) (parts !!! 1%nat) (parts !!! 2%nat)
     (parts !!! 3%nat) (parts !!! 4%nat)
     (LocalIpAddress q) (EdnsSubnetAddress q).

(** [func (q *Query) fromData(data string) (err error)]. Each index into
    [parts] is taken after the length test of its branch, so none is out
    of range. *)
Definition fromData (q : t) (data : string) : t * option error :=
  let parts := Split data TAB in
  match ProtocolVersion q with
  | 1 =>
      if negb (length parts =? 5)%nat
      then (q, Some (errors_New "v1 query should have 5 data parts"))
      else (set_common parts q, None)
  | 2 =>
      if negb (length parts =? 6)%nat
      then (q, Some (errors_New "v2 query should have 6 data parts"))
      else (set_common parts (set_LocalIpAddress (parts !!! 5%nat) q), None)
  | 3 =>
      if negb (length parts =? 7)%nat
      then (q, Some (errors_New "v3 query should have 7 data parts"))
      else (set_common parts
              (set_EdnsSubnetAddress (parts !!! 6%nat)
                 (set_LocalIpAddress (parts !!! 5%nat) q)), None)
  | _ => (q, Some (errors_New "Unknown protocol version in query"))
  end.

(** [func (q *Query) String() (string, error)]. *)
Definition String (q : t) : string * option error :=
  if (ProtocolVersion q <? 1) || (ProtocolVersion q >? 3)
  then ("", Some (errors_New "Unknown protocol version in query"))
  else
    match ProtocolVersion q with
    | 1 =>
        ("Q" +:+ tab +:+ QName q +:+ tab +:+ QClass q +:+ tab +:+ QType q
           +:+ tab +:+ Id q +:+ tab +:+ RemoteIpAddress q +:+ nl, None)
    | 2 =>
        ("Q" +:+ tab +:+ QName q +:+ tab +:+ QClass q +:+ tab +:+ QType q
           +:+ tab +:+ Id q +:+ tab +:+ RemoteIpAddress q
           +:+ tab +:+ LocalIpAddress q +:+ nl, None)
    | 3 =>
        ("Q" +:+ tab +:+ QName q +:+ tab +:+ QClass q +:+ tab +:+ QType q
           +:+ tab +:+ Id q +:+ tab +:+ RemoteIpAddress q
           +:+ tab +:+ LocalIpAddress q +:+ tab +:+ EdnsSubnetAddress q
           +:+ nl, None)
    | _ => ("", Some (errors_New "Unknown protocol version in query"))
    end.

End Query.

Module Response.

Record t : Type := mk {
  ProtocolVersion : Z;
  ScopeBits : string;
  Auth : string;
  QName : string;
  QClass : string;
  QType : string;
  TTL : string;
  Id : string;
  Content : string
}.

Definition set_ProtocolVersion (v : Z) (r : t) : t :=
  mk v (ScopeBits r) (Auth r) (QName r) (QClass r) (QType r) (TTL r) (Id r)
     (Content r).

(** [func (r *Response) String() (string, error)]. *)
Definition String (r : t) : string * option error :=
  match ProtocolVersion r with
  | 1 | 2 =>
      ("DATA" +:+ tab +:+ QName r +:+ tab +:+ QClass r +:+ tab +:+ QType r
         +:+ tab +:+ TTL r +:+ tab +:+ Id r +:+ tab +:+ Content r +:+ nl,
       None)
  | 3 =>
      ("DATA" +:+ tab +:+ ScopeBits r +:+ tab +:+ Auth r
         +:+ tab +:+ QName r +:+ tab +:+ QClass r +:+ tab +:+ QType r
         +:+ tab +:+ TTL r +:+ tab +:+ Id r +:+ tab +:+ Content r +:+ nl,
       None)
  | _ => ("", Some (errors_New "Unknown protocol version in response"))
  end.

End Response.

(** ** Package [backend]: the channel *)

(** [s[:n]] and [s[n:]], with [n] cut down to the length of [s]. *)
Fixpoint first_bytes (n : nat) (s : string) : string :=
  match n, s with
  | S n', String c s' => String c (first_bytes n' s')
  | _, _ => ""
  end.

Fixpoint rest_bytes (n : nat) (s : string) : string :=
  match n, s with
  | S n', String c s' => rest_bytes n' s'
  | _, _ => s
  end.

(** What the transport makes of one call on the [*bufio.Writer]. A call
    that returns no error may already have passed on the first [moved]
    bytes of what was pending (a text that does not fit the buffer is
    passed on in part during [WriteString]); a call that returns the error
    [e] may have taken the first [taken] bytes of its text before it
    failed, and passed on the first [moved] bytes of what was pending
    then (a short write). *)
Inductive verdict : Type :=
  | Accept (moved : nat)
  | Refuse (e : error) (taken moved : nat).

(** The call returns no error. *)
Definition accepted (v : verdict) : Prop :=
  match v with
  | Accept _ => True
  | Refuse _ _ _ => False
  end.

(** The [*bufio.ReadWriter] of a backend with the reader and the writer
    under it, seen from the program: what the successive
    [ReadString('\n')] calls will return, what the transport makes of each
    successive [WriteString] or [Flush] call, the bytes that the writer
    holds in its buffer and the bytes that have reached the peer. [reads]
    and [script] describe the transport, which the program does not
    control: a run of [bufio] over a reader and a writer is the run for
    some [reads] and some [script]. Past the end of [reads] the reader is
    at end-of-stream; past the end of [script] the writer accepts every
    call and holds the text until the flush. *)
Record ReadWriter : Type := mkReadWriter {
  reads : list (string * option error);
  script : list verdict;
  buffered : string;
  written : string
}.

Definition set_reads (r : list (string * option error)) (rw : ReadWriter)
  : ReadWriter :=
  mkReadWriter r (script rw) (buffered rw) (written rw).

(** [b.io.ReadString('\n')]. *)
Definition ReadString (rw : ReadWriter) : (string * option error) * ReadWriter :=
  match reads rw with
  | [] => (("", Some EOF), rw)
  | r :: rest => (r, set_reads rest rw)
  end.

(** The verdict on the next call on the writer, and the script after it. *)
Definition next_call (rw : ReadWriter) : verdict * list verdict :=
  match script rw with
  | [] => (Accept 0, [])
  | v :: rest => (v, rest)
  end.

(** [b.io.WriteString(s)]: the text joins what is pending, all of it when
    the call returns no error; of what is pending the first bytes may be
    passed on at once, and the others stay in the buffer. *)
Definition WriteString (rw : ReadWriter) (s : string) : option error * ReadWriter :=
  let '(v, rest) := next_call rw in
  match v with
  | Accept moved =>
      let pending := buffered rw +:+ s in
      (None, mkReadWriter (reads rw) rest (rest_bytes moved pending)
               (written rw +:+ first_bytes moved pending))
  | Refuse e taken moved =>
      let pending := buffered rw +:+ first_bytes taken s in
      (Some e, mkReadWriter (reads rw) rest (rest_bytes moved pending)
                 (written rw +:+ first_bytes moved pending))
  end.

(** [b.io.Flush()]: when it returns no error the whole buffer has reached
    the peer; when it fails, the first bytes of the buffer may have. *)
Definition Flush (rw : ReadWriter) : option error * ReadWriter :=
  let '(v, rest) := next_call rw in
  match v with
  | Accept _ =>
      (None, mkReadWriter (reads rw) rest "" (written rw +:+ buffered rw))
  | Refuse e _ moved =>
      (Some e, mkReadWriter (reads rw) rest (rest_bytes moved (buffered rw))
                 (written rw +:+ first_bytes moved (buffered rw)))
  end.

(** ** Package [backend]: the engine *)

Record Backend : Type := mkBackend {
  Banner : string;
  ProtocolVersion : Z;
  io : ReadWriter
}.

Definition set_io (rw : ReadWriter) (b : Backend) : Backend :=
  mkBackend (Banner b) (ProtocolVersion b) rw.

Definition set_ProtocolVersion (v : Z) (b : Backend) : Backend :=
  mkBackend (Banner b) v (io b).

(** [backend.New(r, w, banner)]: the version is the zero value. *)
Definition New (r : list (string * option error)) (w : list verdict)
    (banner : string) : Backend :=
  mkBackend banner 0 (mkReadWriter r w "" "").

(** [type Callback func(b *Backend, q *Query) ([]*Response, error)]. The
    replies are pointers, any of which may be [nil] ([None]). The callback
    is taken to return, and to leave the backend as it found it. *)
Definition Callback : Type :=
  Backend -> Query.t -> list (option Response.t) * option error.

(** [func (b *Backend) Negotiate() error]. *)
Definition Negotiate (b : Backend) : Backend * option error :=
  let '((hello, err), rw) := ReadString (io b) in
  let b := set_io rw b in
  match err with
  | Some e => (b, Some e)
  | None =>
      let parts := Split (TrimRight hello (String CR (String LF ""))) TAB in
      if negb (length parts =? 2)%nat || negb (String.eqb (parts !!! 0%nat) "HELO")
      then (b, Some (errors_New "Bad hello from client"))
      else
        let '(version, err) := strconv.Atoi (parts !!! 1%nat) in
        if (version <? 1) || (version >? 3) || bool_decide (err ≠ None)
        then (b, Some (errors_New "Unknown protocol version requested"))
        else
          let '(err, rw) := WriteString (io b) ("OK" +:+ tab +:+ Banner b +:+ nl) in
          let '(err, rw) :=
            match err with
            | None => Flush rw
            | Some _ => (err, rw)
            end in
          let b := set_io rw b in
          match err with
          | None => (set_ProtocolVersion version b, None)
          | Some _ => (b, err)
          end
  end.

(** [func (b *Backend) handleQ(data string, callback Callback)]. *)
Definition handleQ (b : Backend) (data : string) (callback : Callback)
  : list (option Response.t) * option error :=
  let query := Query.zero (ProtocolVersion b) in
  let '(query, err) := Query.fromData query data in
  match err with
  | Some _ => ([], err)
  | None => callback b query
  end.

(** [func (b *Backend) handleAXFR()]. *)
Definition handleAXFR (b : Backend)
  : list (option Response.t) * option error :=
  ([], Some (errors_New "AXFR requests not supported")).

(** How a call ends: it returns its error result, or the Go run time
    panics. *)
Inductive outcome : Type :=
  | Returns (err : option error)
  | Panics (msg : string).

(** What one turn of the [for] loop of [Run] does next. *)
Inductive step : Type :=
  | Continue (b : Backend)
  | Return (b : Backend) (err : option error)
  | Panic (b : Backend) (msg : string).

(** [fmt.Errorf("%s" + suffix, err)]. *)
Definition Errorf_while (e : error) (suffix : string) : error :=
  ErrorString (ErrorText e +:+ suffix).

(** The [switch parts[0]] of [Run]. [parts[1]] is read without a length
    test: with a single part the index is out of range. *)
Definition dispatch (b : Backend) (callback : Callback) (parts : list string)
  : option (list (option Response.t) * option error) :=
  let cmd := parts !!! 0%nat in
  if String.eqb cmd "Q" then
    match parts !! 1%nat with
    | Some data => Some (handleQ b data callback)
    | None => None
    end
  else if String.eqb cmd "PING" then Some ([], None)
  else if String.eqb cmd "AXFR" then Some (handleAXFR b)
  else Some ([], Some (errors_New "Bad command")).

(** The text sent for a failed request. *)
Definition fail_message (e : error) : string :=
  let clean := ReplaceAll (ErrorText e) LF SP in
  "LOG" +:+ tab +:+ "Error handling line: " +:+ clean +:+ nl +:+ "FAIL" +:+ nl.

(** The [for _, response := range responses] loop of [Run]. The
    assignment to [response.ProtocolVersion] goes through the pointer: on
    a [nil] reply the Go run time panics. *)
Fixpoint write_responses (b : Backend) (responses : list (option Response.t))
  : Backend * outcome :=
  match responses with
  | [] => (b, Returns None)
  | None :: _ => (b, Panics "invalid memory address or nil pointer dereference")
  | Some response :: rest =>
      let response := Response.set_ProtocolVersion (ProtocolVersion b) response in
      let '(data, err) := Response.String response in
      let data :=
        match err with
        | Some e => "LOG" +:+ tab +:+ "Error serialising response: " +:+ ErrorText e +:+ nl
        | None => data
        end in
      let '(err, rw) := WriteString (io b) data in
      let b := set_io rw b in
      match err with
      | Some e => (b, Returns (Some (Errorf_while e " while writing DATA response")))
      | None => write_responses b rest
      end
  end.

(** The body of the loop of [Run] after a line has been read. *)
Definition Run_line (callback : Callback) (b : Backend) (line : string) : step :=
  let parts := SplitN (TrimRight line nl) TAB 2 in
  match dispatch b callback parts with
  | None => Panic b "index out of range [1] with length 1"
  | Some (responses, Some e) =>
      let '(err, rw) := WriteString (io b) (fail_message e) in
      let b := set_io rw b in
      match err with
      | Some e' => Return b (Some (Errorf_while e' " while writing FAIL response"))
      | None =>
          let '(err, rw) := Flush (io b) in
          let b := set_io rw b in
          match err with
          | Some e' => Return b (Some (Errorf_while e' " while flushing FAIL response"))
          | None => Continue b
          end
      end
  | Some (responses, None) =>
      let '(b, out) := write_responses b responses in
      match out with
      | Panics msg => Panic b msg
      | Returns (Some e') => Return b (Some e')
      | Returns None =>
          let '(err, rw) := WriteString (io b) ("END" +:+ nl) in
          let '(err, rw) :=
            match err with
            | None => Flush rw
            | Some _ => (err, rw)
            end in
          let b := set_io rw b in
          match err with
          | Some e' => Return b (Some (Errorf_while e' " while writing END"))
          | None => Continue b
          end
      end
  end.

(** The loop of [Run], by recursion on what the reader still has to
    deliver: [pending] is [reads (io b)] at the top of each turn. *)
Fixpoint Run_loop (callback : Callback) (pending : list (string * option error))
    (b : Backend) : Backend * outcome :=
  match pending with
  | [] => (b, Returns None)
  | (line, err) :: rest =>
      let b := set_io (set_reads rest (io b)) b in
      match err with
      | Some e => if is_EOF e then (b, Returns None) else (b, Returns (Some e))
      | None =>
          match Run_line callback b line with
          | Continue b => Run_loop callback rest b
          | Return b err => (b, Returns err)
          | Panic b msg => (b, Panics msg)
          end
      end
  end.

(** [func (b *Backend) Run(callback Callback) error]. *)
Definition Run (b : Backend) (callback : Callback) : Backend * outcome :=
  Run_loop callback (reads (io b)) b.

End backend.

(** ** Package [dsl]: context, registrations and the dispatch pass *)

Module dsl.

(** [type Context struct]. [Query] is a pointer in the source; the one
    query of a pass is carried in the context, so a callback that writes
    through the pointer is a callback that returns a context with another
    query. *)
Record Context : Type := mkContext {
  DefaultTTL : Z;
  Query : backend.Query.t;
  QType : string;
  Matches : list string;
  Error : option error;
  Answers : list backend.Response.t
}.

Definition set_QType (qtype : string) (c : Context) : Context :=
  mkContext (DefaultTTL c) (Query c) qtype (Matches c) (Error c) (Answers c).

Definition set_Matches (m : list string) (c : Context) : Context :=
  mkContext (DefaultTTL c) (Query c) (QType c) m (Error c) (Answers c).

Definition set_Error (e : option error) (c : Context) : Context :=
  mkContext (DefaultTTL c) (Query c) (QType c) (Matches c) e (Answers c).

Definition set_Answers (a : list backend.Response.t) (c : Context) : Context :=
  mkContext (DefaultTTL c) (Query c) (QType c) (Matches c) (Error c) a.

(** [func (c *Context) ReplyExtra(qname, content string, ttl int)]. *)
Definition ReplyExtra (c : Context) (qname content : string) (ttl : Z) : Context :=
  set_Answers
    (Answers c ++
       [backend.Response.mk 0 "" "" qname (backend.Query.QClass (Query c))
          (QType c) (strconv.Itoa ttl) (backend.Query.Id (Query c)) content])%list
    c.

(** [func (c *Context) Reply(content string)]. *)
Definition Reply (c : Context) (content : string) : Context :=
  ReplyExtra c (backend.Query.QName (Query c)) content (DefaultTTL c).

(** [func (c *Context) ReplyTTL(content string, ttl int)]. *)
Definition ReplyTTL (c : Context) (content : string) (ttl : Z) : Context :=
  ReplyExtra c (backend.Query.QName (Query c)) content ttl.

(** [type Callback func(c *Context)]: a callback is what it does to the
    context it is handed. *)
Definition Callback : Type := Context -> Context.

(** A compiled [*regexp.Regexp], through the one method the program
    calls: [FindStringSubmatch], which returns [nil] ([None]) when the
    pattern does not match and otherwise the whole match followed by the
    capture groups. *)
Definition Regexp : Type := string -> option (list string).

Record callbackNode : Type := mkNode {
  matcher : Regexp;
  fn : Callback
}.

Record DSL : Type := mkDSL {
  callbacks : gmap string (list callbackNode);
  qtypeSort : list string;
  defaultTTL : Z;
  beforeCallback : option Callback
}.

(** [func NewWithTTL(ttl int) *DSL] and [func New() *DSL]. *)
Definition NewWithTTL (ttl : Z) : DSL := mkDSL ∅ [] ttl None.
Definition New : DSL := NewWithTTL 3600.

(** [func (d *DSL) Before(f Callback)]. *)
Definition Before (d : DSL) (f : Callback) : DSL :=
  mkDSL (callbacks d) (qtypeSort d) (defaultTTL d) (Some f).

(** [d.callbacks[qtype]]: a missing key reads as the [nil] slice. *)
Definition nodes_of (d : DSL) (qtype : string) : list callbackNode :=
  default [] (callbacks d !! qtype).

(** The [for _, prospect := range d.qtypeSort] scan of [Register]. *)
Fixpoint alreadyIn (qtype : string) (sorted : list string) : bool :=
  match sorted with
  | [] => false
  | prospect :: rest =>
      if String.eqb prospect qtype then true else alreadyIn qtype rest
  end.

(** [func (d *DSL) Register(qtype string, re *regexp.Regexp, f Callback)]. *)
Definition Register (d : DSL) (qtype : string) (re : Regexp) (f : Callback) : DSL :=
  let sorted :=
    if negb (alreadyIn qtype (qtypeSort d))
    then (qtypeSort d ++ [qtype])%list
    else qtypeSort d in
  let node := mkNode re f in
  mkDSL (<[qtype := (nodes_of d qtype ++ [node])%list]> (callbacks d))
        sorted (defaultTTL d) (beforeCallback d).

(** [func (d *DSL) runNode(c *Context, node *callbackNode)]. The deferred
    assignment of [oldmatches] runs last. *)
Definition runNode (d : DSL) (c : Context) (node : callbackNode) : Context :=
  match matcher node (backend.Query.QName (Query c)) with
  | Some (whole :: groups) =>
      let oldmatches := Matches c in
      let c := set_Matches groups c in
      let c :=
        match beforeCallback d with
        | Some before => before c
        | None => c
        end in
      let c :=
        match Error c with
        | None => fn node c
        | Some _ => c
        end in
      set_Matches oldmatches c
  | _ => c
  end.

(** How a loop of [Lookup] ends: it runs to its end, or [Lookup] returns
    from inside it with the error. *)
Inductive flow : Type :=
  | Next (c : Context)
  | Abort (c : Context) (e : error).

Definition context_of (f : flow) : Context :=
  match f with
  | Next c => c
  | Abort c _ => c
  end.

Definition error_of (f : flow) : option error :=
  match f with
  | Next _ => None
  | Abort _ e => Some e
  end.

(** [for _, node := range d.callbacks[qtype]]. *)
Fixpoint range_nodes (d : DSL) (c : Context) (nodes : list callbackNode) : flow :=
  match nodes with
  | [] => Next c
  | node :: rest =>
      let c := runNode d c node in
      match Error c with
      | Some e => Abort c e
      | None => range_nodes d c rest
      end
  end.

(** [for _, qtype := range runOn]. *)
Fixpoint range_types (d : DSL) (c : Context) (runOn : list string) : flow :=
  match runOn with
  | [] => Next c
  | qtype :: rest =>
      let c := set_QType qtype c in
      match range_nodes d c (nodes_of d qtype) with
      | Abort c e => Abort c e
      | Next c => range_types d c rest
      end
  end.

(** The context [Lookup] starts a pass with and the types it runs on. *)
Definition fresh (d : DSL) (q : backend.Query.t) : Context :=
  mkContext (defaultTTL d) q "" [] None [].

Definition runOn (d : DSL) (q : backend.Query.t) : list string :=
  if String.eqb (backend.Query.QType q) "ANY"
  then qtypeSort d
  else [backend.Query.QType q].

(** The dispatch pass of [Lookup]: both loops. *)
Definition pass (d : DSL) (q : backend.Query.t) : flow :=
  range_types d (fresh d q) (runOn d q).

(** [func (d *DSL) Lookup(q *backend.Query) ([]*backend.Response, error)]. *)
Definition Lookup (d : DSL) (q : backend.Query.t)
  : list backend.Response.t * option error :=
  match pass d q with
  | Abort _ e => ([], Some e)
  | Next c => (Answers c, None)
  end.

End dsl.

(** ** The dispatch pass with its calls recorded

    The same three functions, returning next to their result the calls
    they made, in order: every node handed to [runNode], every call of the
    before-hook and every call of a handler, each callback with the
    context it received and the context it left. *)

Module traced.

Import dsl.

Inductive event : Type :=
  | EvAttempt (qtype : string) (node : callbackNode)
  | EvBefore (c c' : Context)
  | EvHandler (node : callbackNode) (c c' : Context).

Definition runNode (d : DSL) (c : Context) (node : callbackNode)
  : Context * list event :=
  match matcher node (backend.Query.QName (Query c)) with
  | Some (whole :: groups) =>
      let oldmatches := Matches c in
      let c := set_Matches groups c in
      let '(c, tr1) :=
        match beforeCallback d with
        | Some before => (before c, [EvBefore c (before c)])
        | None => (c, [])
        end in
      let '(c, tr2) :=
        match Error c with
        | None => (fn node c, [EvHandler node c (fn node c)])
        | Some _ => (c, [])
        end in
      (set_Matches oldmatches c, (tr1 ++ tr2)%list)
  | _ => (c, [])
  end.

Fixpoint range_nodes (d : DSL) (qtype : string) (c : Context)
    (nodes : list callbackNode) : flow * list event :=
  match nodes with
  | [] => (Next c, [])
  | node :: rest =>
      let '(c, tr) := runNode d c node in
      match Error c with
      | Some e => (Abort c e, EvAttempt qtype node :: tr)
      | None =>
          let '(f, tr') := range_nodes d qtype c rest in
          (f, (EvAttempt qtype node :: tr ++ tr')%list)
      end
  end.

Fixpoint range_types (d : DSL) (c : Context) (runOn : list string)
  : flow * list event :=
  match runOn with
  | [] => (Next c, [])
  | qtype :: rest =>
      let c := set_QType qtype c in
      match range_nodes d qtype c (nodes_of d qtype) with
      | (Abort c e, tr) => (Abort c e, tr)
      | (Next c, tr) =>
          let '(f, tr') := range_types d c rest in
          (f, (tr ++ tr')%list)
      end
  end.

Definition pass (d : DSL) (q : backend.Query.t) : flow * list event :=
  range_types d (fresh d q) (runOn d q).

(** The calls of one [Lookup]. *)
Definition calls (d : DSL) (q : backend.Query.t) : list event :=
  snd (pass d q).

(** Views of a list of calls. *)
Definition attempted (tr : list event) : list (string * callbackNode) :=
  omap (fun ev => match ev with EvAttempt t n => Some (t, n) | _ => None end) tr.

Definition invoked (tr : list event) : list callbackNode :=
  omap (fun ev => match ev with EvHandler n _ _ => Some n | _ => None end) tr.

Definition hooked (tr : list event) : list Context :=
  omap (fun ev => match ev with EvBefore c _ => Some c | _ => None end) tr.

(** The context a callback left behind, for the two kinds of callback. *)
Definition left_by (ev : event) : option Context :=
  match ev with
  | EvAttempt _ _ => None
  | EvBefore _ c' => Some c'
  | EvHandler _ _ c' => Some c'
  end.

(** The error a call set, if it is a callback that left one. *)
Definition error_set (ev : event) : option error :=
  c' ← left_by ev; Error c'.

(** A call that set no error. *)
Definition quiet (ev : event) : Prop := error_set ev = None.

(** The replies accumulated by the calls: those in the context the last
    callback left, and when no callback ran those there were before. *)
Definition accumulated_from (before : list backend.Response.t)
    (tr : list event) : list backend.Response.t :=
  match last (omap left_by tr) with
  | Some c' => Answers c'
  | None => before
  end.

(** In a pass, which starts with no replies. *)
Definition accumulated (tr : list event) : list backend.Response.t :=
  accumulated_from [] tr.

(** What the calls made from a context without an error say of the error
    of the context they end in: with none, every call was quiet; with an
    error, the last call set it and every earlier call was quiet. *)
Definition explains (tr : list event) (err : option error) : Prop :=
  match err with
  | None => Forall quiet tr
  | Some e => exists tr0 ev, tr = (tr0 ++ [ev])%list /\ Forall quiet tr0
                             /\ error_set ev = Some e
  end.

End traced.

(** ** Setting a router up *)

Module setup.

Import dsl.

(** The two calls that a program makes on a router before it serves. *)
Inductive call : Type :=
  | CallRegister (qtype : string) (re : Regexp) (f : Callback)
  | CallBefore (f : Callback).

Definition apply (d : DSL) (k : call) : DSL :=
  match k with
  | CallRegister qtype re f => Register d qtype re f
  | CallBefore f => Before d f
  end.

(** The router after [NewWithTTL(ttl)] and the calls, in order. *)
Definition build (ttl : Z) (calls : list call) : DSL :=
  fold_left apply calls (NewWithTTL ttl).

(** The registrations among the calls, in the order they were made. *)
Definition registrations (calls : list call) : list (string * callbackNode) :=
  omap (fun k => match k with
                 | CallRegister qtype re f => Some (qtype, mkNode re f)
                 | CallBefore _ => None
                 end) calls.

(** Per-type registration order, as the specification words it: the
    handlers registered for the type, in the order of their registration. *)
Definition registered_for (regs : list (string * callbackNode)) (qtype : string)
  : list callbackNode :=
  snd <$> filter (fun r => r.1 = qtype) regs.

(** Global discovery order, as the specification words it: the types in
    the order in which each was first seen. *)
Fixpoint first_seen (types : list string) : list string :=
  match types with
  | [] => []
  | t :: rest => t :: filter (fun u => u ≠ t) (first_seen rest)
  end.

Definition discovery_order (regs : list (string * callbackNode)) : list string :=
  first_seen (fst <$> regs).

(** The handler groups a query is to run, as the specification words it:
    the group of the query's own type, or for ["ANY"] every group in
    discovery order. *)
Definition expected_order (regs : list (string * callbackNode))
    (q : backend.Query.t) : list (string * callbackNode) :=
  if String.eqb (backend.Query.QType q) "ANY"
  then t ← discovery_order regs; pair t <$> registered_for regs t
  else pair (backend.Query.QType q) <$> registered_for regs (backend.Query.QType q).

(** A pattern that matches whatever the name. *)
Definition matches_every_name (node : callbackNode) : Prop :=
  forall name, exists whole groups, matcher node name = Some (whole :: groups).

(** The nodes that a pass over the given types hands to [runNode] when
    nothing stops it. *)
Definition candidates (d : DSL) (types : list string) : list (string * callbackNode) :=
  t ← types; pair t <$> nodes_of d t.

End setup.

(** ** The fixtures of the repository's tests *)

Module test_helpers.

(** [func EmptyDispatch]. *)
Definition EmptyDispatch : backend.Callback := fun _ _ => ([], None).

(** [func FakeQuery(protoVersion int) *backend.Query], for the versions
    on which it does not panic. *)
Definition FakeQuery (protoVersion : Z) : backend.Query.t :=
  backend.Query.mk protoVersion "example.com" "IN" "ANY" "-1" "127.0.0.2"
    (if protoVersion >? 1 then "127.0.0.1" else "")
    (if protoVersion >? 2 then "127.0.0.3" else "").

(** [func FakeResponse(protoVersion int) *backend.Response], likewise. *)
Definition FakeResponse (protoVersion : Z) : backend.Response.t :=
  backend.Response.mk protoVersion
    (if protoVersion >? 2 then "24" else "")
    (if protoVersion >? 2 then "auth" else "")
    "example.com" "IN" "ANY" "3600" "-1" "foo".

(** A pattern that matches exactly one name and captures nothing, and one
    that matches every name and captures the whole of it. *)
Definition exactly (name : string) : dsl.Regexp :=
  fun s => if String.eqb s name then Some [s] else None.

Definition anything : dsl.Regexp := fun s => Some [s; s].

(** Handlers: one that replies with a fixed content, one that replies and
    then reports an error. *)
Definition replies (content : string) : dsl.Callback :=
  fun c => dsl.Reply c content.

Definition fails (content msg : string) : dsl.Callback :=
  fun c => dsl.set_Error (Some (errors_New msg)) (dsl.Reply c content).

(** The backend that [BuildAndNegotiate] returns, with the lines that a
    test then writes to its reader; and the text a run has sent. *)
Definition negotiated (protoVersion : Z) (input : list string) : backend.Backend :=
  backend.mkBackend "Testing Backend" protoVersion
    (backend.mkReadWriter ((fun line => (line, None)) <$> input) [] "" "").

Definition output (r : backend.Backend * backend.outcome) : string :=
  backend.written (backend.io r.1).

(** Three types registered in the order MX, A, TXT, with a second
    handler for A registered last; every pattern matches every name. *)
Definition mx_a_txt : list setup.call :=
  [ setup.CallRegister "MX" anything (replies "mx");
    setup.CallRegister "A" anything (replies "a1");
    setup.CallRegister "TXT" anything (replies "txt");
    setup.CallRegister "A" anything (replies "a2") ].

(** The same router with a before-hook, and one whose second handler
    replies and then reports an error. *)
Definition hooked_router : dsl.DSL :=
  dsl.Before (setup.build 3600 mx_a_txt) (replies "hook").

Definition failing_router : dsl.DSL :=
  setup.build 3600
    [ setup.CallRegister "A" anything (replies "first");
      setup.CallRegister "A" anything (fails "second" "boom");
      setup.CallRegister "A" anything (replies "third") ].

(** Two handlers for A, the first under a pattern that the name of the
    queries of the tests does not match. *)
Definition anchored : list setup.call :=
  [ setup.CallRegister "A" (exactly "www.example.com") (replies "www");
    setup.CallRegister "A" anything (replies "any") ].

(** A query of the tests, with its type set. *)
Definition query_of_type (qtype : string) : backend.Query.t :=
  backend.Query.mk 3 "example.com" "IN" qtype "-1" "127.0.0.2" "127.0.0.1"
    "127.0.0.3".

End test_helpers.

(** ** The wording of the specification

    Definitions that follow the specification's words, to state the
    properties against the definitions above, which follow the code. *)

Module spec.

(** The number of data parts a query has at each protocol version. *)
Definition required_parts (v : Z) : nat :=
  match v with
  | 1 => 5
  | 2 => 6
  | 3 => 7
  | _ => 0
  end.

(** "vN query should have M data parts". *)
Definition data_parts_error (v : Z) (m : nat) : string :=
  "v" +:+ strconv.Itoa v +:+ " query should have "
      +:+ strconv.Itoa (Z.of_nat m) +:+ " data parts".

(** A field free of tabs and of line terminators. *)
Definition well_formed_field (s : string) : Prop :=
  has_byte TAB s = false /\ has_byte LF s = false.

(** A query line: the command token, the tab-joined fields, one
    terminator. *)
Definition query_line (fields : list string) : string :=
  "Q" +:+ tab +:+ Join fields tab +:+ nl.

(** A data line: the [DATA] token, the tab-joined fields, one terminator. *)
Definition data_line (fields : list string) : string :=
  "DATA" +:+ tab +:+ Join fields tab +:+ nl.

(** The pair of lines that reports a failed request. *)
Definition log_fail (message : string) : string :=
  "LOG" +:+ tab +:+ "Error handling line: " +:+ message +:+ nl
        +:+ "FAIL" +:+ nl.

(** The version a hello line asks for: the line, its trailing carriage
    returns and line feeds stripped, is the token [HELO], a tab, and the
    text of an integer from 1 to 3. *)
Definition hello_version (hello : string) : option Z :=
  match Split (TrimRight hello (String CR (String LF ""))) TAB with
  | [token; text] =>
      if String.eqb token "HELO" then
        match strconv.Atoi text with
        | (v, None) => if (1 <=? v) && (v <=? 3) then Some v else None
        | (_, Some _) => None
        end
      else None
  | _ => None
  end.

(** The writer accepts the next [n] calls made on it. *)
Definition accepts (rw : backend.ReadWriter) (n : nat) : Prop :=
  Forall backend.accepted (take n (backend.script rw)).

(** The acknowledgement of a hello. *)
Definition acknowledgement (banner : string) : string :=
  "OK" +:+ tab +:+ banner +:+ nl.

(** The command token of a line, as the loop of [Run] takes it. *)
Definition command (line : string) : string :=
  SplitN (TrimRight line nl) TAB 2 !!! 0%nat.

(** Between two states of a backend, exactly [text] was sent to the peer
    (after whatever was still buffered) and nothing else changed but the
    writer's script. *)
Definition sent (b b' : backend.Backend) (text : string) : Prop :=
  backend.Banner b' = backend.Banner b
  /\ backend.ProtocolVersion b' = backend.ProtocolVersion b
  /\ backend.reads (backend.io b') = backend.reads (backend.io b)
  /\ backend.written (backend.io b') =
       backend.written (backend.io b) +:+ (backend.buffered (backend.io b) +:+ text)
  /\ backend.buffered (backend.io b') = "".

(** A line whose only part is the token [Q]. *)
Definition bare_Q (line : string) : Prop :=
  SplitN (TrimRight line nl) TAB 2 = ["Q"].

(** A writer that accepts every call made on it. *)
Definition reliable (rw : backend.ReadWriter) : Prop :=
  Forall backend.accepted (backend.script rw).

End spec.

(** ** The records on the wire

    The fields that a record carries at a protocol version, in the order
    in which the encoders print them, and the text that [Run] sends for a
    list of replies. *)

Module wire.

(** The fields of a query at its version; none at an unknown version. *)
Definition query_fields (q : backend.Query.t) : list string :=
  let common := [backend.Query.QName q; backend.Query.QClass q;
                 backend.Query.QType q; backend.Query.Id q;
                 backend.Query.RemoteIpAddress q] in
  match backend.Query.ProtocolVersion q with
  | 1 => common
  | 2 => (common ++ [backend.Query.LocalIpAddress q])%list
  | 3 => (common ++ [backend.Query.LocalIpAddress q;
                     backend.Query.EdnsSubnetAddress q])%list
  | _ => []
  end.

(** The fields of a response at version [v]. *)
Definition response_fields (v : Z) (r : backend.Response.t) : list string :=
  let common := [backend.Response.QName r; backend.Response.QClass r;
                 backend.Response.QType r; backend.Response.TTL r;
                 backend.Response.Id r; backend.Response.Content r] in
  if v =? 3
  then backend.Response.ScopeBits r :: backend.Response.Auth r :: common
  else common.

(** The data lines of a list of replies at version [v], whatever version
    each reply carries itself. *)
Definition reply_lines (v : Z) (responses : list backend.Response.t) : string :=
  foldr (fun r text => spec.data_line (response_fields v r) +:+ text) ""
        responses.

(** Every byte of a string is in a cutset. *)
Fixpoint all_in (cutset : string) (s : string) : bool :=
  match s with
  | "" => true
  | String c s' => in_cutset c cutset && all_in cutset s'
  end.

(** A string of [n] zeros. *)
Fixpoint zeros (n : nat) : string :=
  match n with
  | O => ""
  | S n' => String "0"%char (zeros n')
  end.

(** The text of a version with an optional plus sign and [n] leading
    zeros. *)
Definition version_text (plus : bool) (n : nat) (d : Z) : string :=
  (if plus then "+" else "") +:+ zeros n +:+ strconv.Itoa d.

(** The text that [Run] writes for one reply at version [v]: its
    encoding, or the log line that stands in for it when it does not
    encode. *)
Definition encode_or_log (v : Z) (r : backend.Response.t) : string :=
  let '(data, err) :=
    backend.Response.String (backend.Response.set_ProtocolVersion v r) in
  match err with
  | Some e => "LOG" +:+ tab +:+ "Error serialising response: "
                    +:+ ErrorText e +:+ nl
  | None => data
  end.

(** The text that [Run] writes for a list of replies at version [v],
    followed by [last]. *)
Definition replies_text (v : Z) (responses : list backend.Response.t)
    (last : string) : string :=
  foldr (fun r text => encode_or_log v r +:+ text) last responses.

(** The answer of [Run] to one line: the log and fail lines for a request
    that fails, the replies and the terminator for one that succeeds, and
    none for a line on which [Run] panics (a [Q] with nothing after it, a
    [nil] among the replies). *)
Definition answer_text (callback : backend.Callback) (b : backend.Backend)
    (line : string) : option string :=
  match backend.dispatch b callback (SplitN (TrimRight line nl) TAB 2) with
  | None => None
  | Some (_, Some e) => Some (backend.fail_message e)
  | Some (responses, None) =>
      replies ← mapM id responses;
      Some (replies_text (backend.ProtocolVersion b) replies ("END" +:+ nl))
  end.

(** [Run] stops in the turn on the line it has read: the turn returns
    the error, [Run] returns it, and the lines after this one are left
    unread. *)
Definition stops (callback : backend.Callback) (b b' : backend.Backend)
    (line : string) (rest : list (string * option error)) (err : error)
  : Prop :=
  backend.Run_line callback
    (backend.set_io (backend.set_reads rest (backend.io b)) b) line
  = backend.Return b' (Some err)
  /\ backend.Run b callback = (b', backend.Returns (Some err))
  /\ backend.Banner b' = backend.Banner b
  /\ backend.ProtocolVersion b' = backend.ProtocolVersion b
  /\ backend.reads (backend.io b') = rest.



(** All the text that a writer has taken: what has reached the peer,
    followed by what is in the buffer. *)
Definition total (rw : backend.ReadWriter) : string :=
  backend.written rw +:+ backend.buffered rw.


End wire.

(** ** Words for the router

    Definitions used to state what a pass does for particular kinds of
    registrations. *)

Module routing.

Import dsl.

(** The hooks among the calls that set a router up, in order. *)
Definition hooks (calls : list setup.call) : list Callback :=
  omap (fun k => match k with
                 | setup.CallBefore f => Some f
                 | setup.CallRegister _ _ _ => None
                 end) calls.

(** The pattern of a node matches a name, as [runNode] tests it. *)
Definition is_match (node : callbackNode) (name : string) : bool :=
  match matcher node name with
  | Some (_ :: _) => true
  | _ => false
  end.

(** The nodes of a list whose pattern matches a name, in their order. *)
Fixpoint matching (name : string) (nodes : list callbackNode)
  : list callbackNode :=
  match nodes with
  | [] => []
  | node :: rest =>
      if is_match node name then node :: matching name rest
      else matching name rest
  end.

(** A callback that leaves the query of the context as it is. (The
    context holds a pointer to the query, and a callback may write
    through it.) *)
Definition keeps_query (f : Callback) : Prop :=
  forall c, Query (f c) = Query c.

(** Every callback among the calls that set a router up does. *)
Definition keep_query (calls : list setup.call) : Prop :=
  Forall (fun k => match k with
                   | setup.CallRegister _ _ f => keeps_query f
                   | setup.CallBefore f => keeps_query f
                   end) calls.

(** Among the calls of a pass, the hook has left an error: the handler of
    the node it was called for was not called. *)
Definition vetoed (tr : list traced.event) : bool :=
  existsb (fun ev => match ev with
                     | traced.EvBefore _ c' =>
                         match Error c' with
                         | Some _ => true
                         | None => false
                         end
                     | _ => false
                     end) tr.



End routing.

(** * Properties *)

(** ** Facts about the [strings] functions *)

(** Split a goal into its conjuncts. *)
Ltac conjs := repeat match goal with |- _ /\ _ => split end.

Section StringFacts.

(** [String.append] does not unfold under [simpl]; its two equations. *)
Lemma append_nil_l (b : string) : "" +:+ b = b.
Proof. reflexivity. Qed.

Lemma append_cons (c : ascii) (a b : string) :
  String c a +:+ b = String c (a +:+ b).
Proof. reflexivity. Qed.

Lemma append_nil_r (a : string) : a +:+ "" = a.
Proof.
  induction a as [|x a IH]; [reflexivity|].
  rewrite append_cons. now rewrite IH.
Qed.

Lemma append_assoc (a b c : string) : (a +:+ b) +:+ c = a +:+ (b +:+ c).
Proof.
  induction a as [|x a IH]; [reflexivity|].
  rewrite !append_cons. now rewrite IH.
Qed.

Lemma has_byte_app (c : ascii) (a b : string) :
  has_byte c (a +:+ b) = has_byte c a || has_byte c b.
Proof.
  induction a as [|x a IH]; [reflexivity|].
  rewrite append_cons. simpl. rewrite IH. now rewrite orb_assoc.
Qed.

Lemma Split_nonempty (s : string) (sep : ascii) : Split s sep ≠ [].
Proof.
  induction s as [|c s IH]; simpl; [discriminate|].
  destruct (Ascii.eqb c sep); [discriminate|].
  destruct (Split s sep); [contradiction | discriminate].
Qed.

(** A string without the separator is a single piece. *)
Lemma Split_no_sep (s : string) (sep : ascii) :
  has_byte sep s = false -> Split s sep = [s].
Proof.
  induction s as [|c s IH]; simpl; intros H; [reflexivity|].
  apply orb_false_iff in H as [Hc Hs].
  rewrite Ascii.eqb_sym, Hc. rewrite (IH Hs). reflexivity.
Qed.

(** A piece, a separator, and the rest. *)
Lemma Split_piece (x rest : string) (sep : ascii) :
  has_byte sep x = false ->
  Split (x +:+ String sep rest) sep = x :: Split rest sep.
Proof.
  induction x as [|c x IH]; intros H.
  - rewrite append_nil_l. simpl. now rewrite Ascii.eqb_refl.
  - simpl in H. apply orb_false_iff in H as [Hc Hx].
    rewrite append_cons. simpl.
    rewrite Ascii.eqb_sym, Hc. rewrite (IH Hx). reflexivity.
Qed.

(** Splitting undoes joining, for pieces free of the separator. *)
Lemma Split_Join (l : list string) (sep : ascii) :
  l ≠ [] ->
  Forall (fun x => has_byte sep x = false) l ->
  Split (Join l (String sep "")) sep = l.
Proof.
  induction l as [|x l IH]; intros Hne Hall; [contradiction|].
  inversion Hall as [|? ? Hx Hl]; subst.
  destruct l as [|y l].
  - simpl. now apply Split_no_sep.
  - change (Join (x :: y :: l) (String sep ""))
      with (x +:+ String sep "" +:+ Join (y :: l) (String sep "")).
    rewrite append_cons, append_nil_l.
    rewrite Split_piece by assumption.
    rewrite IH; [reflexivity | discriminate | assumption].
Qed.

Lemma SplitN_one (s : string) (sep : ascii) : SplitN s sep 1 = [s].
Proof. destruct s; reflexivity. Qed.

(** The two-way split of [Run]: a token free of the separator, the
    separator, and the remainder. *)
Lemma SplitN_two (x rest : string) (sep : ascii) :
  has_byte sep x = false ->
  SplitN (x +:+ String sep rest) sep 2 = [x; rest].
Proof.
  induction x as [|c x IH]; intros H.
  - rewrite append_nil_l. simpl. now rewrite Ascii.eqb_refl, SplitN_one.
  - simpl in H. apply orb_false_iff in H as [Hc Hx].
    rewrite append_cons. simpl.
    rewrite Ascii.eqb_sym, Hc. rewrite (IH Hx). reflexivity.
Qed.

(** A line without the separator is a single part. *)
Lemma SplitN_two_single (x : string) (sep : ascii) :
  has_byte sep x = false -> SplitN x sep 2 = [x].
Proof.
  induction x as [|c x IH]; simpl; intros H; [reflexivity|].
  apply orb_false_iff in H as [Hc Hx].
  rewrite Ascii.eqb_sym, Hc. rewrite (IH Hx). reflexivity.
Qed.

(** The two-way split always has a first part, and a second one exactly
    when the line has a separator. *)
Lemma SplitN_two_shape (s : string) (sep : ascii) :
  (has_byte sep s = false /\ SplitN s sep 2 = [s]) \/
  (exists x rest, has_byte sep x = false /\ s = x +:+ String sep rest /\
                  SplitN s sep 2 = [x; rest]).
Proof.
  induction s as [|c s IH].
  - left. split; reflexivity.
  - destruct (Ascii.eqb c sep) eqn:Hc.
    + right. apply Ascii.eqb_eq in Hc. subst c.
      exists "", s. repeat split; try reflexivity.
      simpl. now rewrite Ascii.eqb_refl, SplitN_one.
    + destruct IH as [[Hs Heq] | (x & rest & Hx & Hs & Heq)].
      * left. split.
        -- simpl. rewrite Ascii.eqb_sym, Hc. exact Hs.
        -- apply SplitN_two_single. simpl. now rewrite Ascii.eqb_sym, Hc.
      * right. exists (String c x), rest. repeat split.
        -- simpl. now rewrite Ascii.eqb_sym, Hc.
        -- rewrite append_cons. now rewrite <- Hs.
        -- rewrite Hs. rewrite <- append_cons.
           apply SplitN_two. simpl. now rewrite Ascii.eqb_sym, Hc.
Qed.

(** Trimming a one-byte terminator off a line whose body has none. *)
Lemma TrimRight_terminated (s : string) (sep : ascii) :
  has_byte sep s = false ->
  TrimRight (s +:+ String sep "") (String sep "") = s.
Proof.
  induction s as [|c s IH]; intros H.
  - rewrite append_nil_l. simpl. now rewrite Ascii.eqb_refl.
  - simpl in H. apply orb_false_iff in H as [Hc Hs].
    rewrite append_cons. simpl.
    rewrite (IH Hs). destruct s as [|d s]; [|reflexivity].
    rewrite Ascii.eqb_sym, Hc. reflexivity.
Qed.

Lemma TrimRight_line (s : string) :
  has_byte LF s = false -> TrimRight (s +:+ nl) nl = s.
Proof. apply TrimRight_terminated. Qed.

(** Replacing every occurrence of a byte leaves none. *)
Lemma ReplaceAll_none_left (s : string) (old new : ascii) :
  Ascii.eqb old new = false -> has_byte old (ReplaceAll s old new) = false.
Proof.
  intros Hne. induction s as [|c s IH]; simpl; [reflexivity|].
  rewrite IH. destruct (Ascii.eqb c old) eqn:Hc.
  - now rewrite Hne.
  - rewrite Ascii.eqb_sym, Hc. reflexivity.
Qed.

(** Flattening leaves no line break. *)
Lemma ReplaceAll_no_LF (s : string) : has_byte LF (ReplaceAll s LF SP) = false.
Proof. now apply ReplaceAll_none_left. Qed.

End StringFacts.

(** ** The versioned codec *)

Section Codec.

Import backend.

Lemma has_byte_Join (c sep : ascii) (l : list string) :
  Ascii.eqb c sep = false ->
  Forall (fun x => has_byte c x = false) l ->
  has_byte c (Join l (String sep "")) = false.
Proof.
  intros Hne. induction l as [|x l IH]; intros Hall; [reflexivity|].
  inversion Hall as [|? ? Hx Hl]; subst.
  destruct l as [|y l]; [exact Hx|].
  change (Join (x :: y :: l) (String sep ""))
    with (x +:+ String sep "" +:+ Join (y :: l) (String sep "")).
  rewrite !has_byte_app, Hx, (IH Hl). simpl. now rewrite Hne.
Qed.

Lemma version_cases (v : Z) : 1 <= v <= 3 -> v = 1 \/ v = 2 \/ v = 3.
Proof. lia. Qed.

(** C3. Decoding at version 1, 2 or 3 a text whose number of
    tab-separated parts is not the required one (5, 6, 7) fails with
    "vN query should have M data parts" and leaves the query as it was;
    with the required number it succeeds and fills name, class, type, id
    and remote address from the first five parts, the local address from
    the sixth from version 2 on, the client subnet from the seventh at
    version 3; at any other version it fails with the unknown-version
    error. *)
Theorem fromData_field_count (q : Query.t) (data : string) :
  let v := Query.ProtocolVersion q in
  let parts := Split data TAB in
  (1 <= v <= 3 -> length parts ≠ spec.required_parts v ->
   Query.fromData q data =
     (q, Some (ErrorString (spec.data_parts_error v (spec.required_parts v)))))
  /\ (1 <= v <= 3 -> length parts = spec.required_parts v ->
      Query.fromData q data =
        (Query.mk v (parts !!! 0%nat) (parts !!! 1%nat) (parts !!! 2%nat)
           (parts !!! 3%nat) (parts !!! 4%nat)
           (if 2 <=? v then parts !!! 5%nat else Query.LocalIpAddress q)
           (if 3 <=? v then parts !!! 6%nat else Query.EdnsSubnetAddress q),
         None))
  /\ (v < 1 \/ 3 < v ->
      Query.fromData q data =
        (q, Some (ErrorString "Unknown protocol version in query"))).
Proof.
  intros v parts. subst v parts. unfold Query.fromData. split; [|split].
  - intros Hv Hlen. apply version_cases in Hv as [Hv | [Hv | Hv]];
      rewrite Hv in *; simpl in Hlen;
      apply Nat.eqb_neq in Hlen; rewrite Hlen; reflexivity.
  - intros Hv Hlen. apply version_cases in Hv as [Hv | [Hv | Hv]];
      rewrite Hv in *; simpl in Hlen;
      rewrite Hlen; destruct q; simpl in *; subst; reflexivity.
  - destruct (Query.ProtocolVersion q) as [|[p|p|]|p]; intros Hv;
      try reflexivity; try lia; destruct p; try reflexivity; lia.
Qed.

(** The three cases of C3 on concrete texts. *)
Lemma fromData_field_count_witness :
  Query.fromData (Query.zero 2) ("a" +:+ tab +:+ "b") =
    (Query.zero 2, Some (ErrorString "v2 query should have 6 data parts"))
  /\ Query.fromData (Query.zero 1)
       ("n" +:+ tab +:+ "c" +:+ tab +:+ "t" +:+ tab +:+ "i" +:+ tab +:+ "r") =
     (Query.mk 1 "n" "c" "t" "i" "r" "" "", None)
  /\ Query.fromData (Query.zero 4) "x" =
     (Query.zero 4, Some (ErrorString "Unknown protocol version in query")).
Proof.
  split; [|split].
  - apply (proj1 (fromData_field_count (Query.zero 2) ("a" +:+ tab +:+ "b")));
      [simpl; lia | vm_compute; discriminate].
  - apply (proj1 (proj2 (fromData_field_count (Query.zero 1)
      ("n" +:+ tab +:+ "c" +:+ tab +:+ "t" +:+ tab +:+ "i" +:+ tab +:+ "r"))));
      [simpl; lia | reflexivity].
  - apply (proj2 (proj2 (fromData_field_count (Query.zero 4) "x"))).
    simpl; lia.
Defined.

(** C8. A response encodes to the same text at versions 1 and 2: one
    [DATA] line of the six fields name, class, type, ttl, id, content,
    tab-joined, with one terminator. At version 3 the scope bits and the
    auth field come first, eight fields in all. At any other version the
    encoding fails with the unknown-version error. *)
Theorem Response_String_layout (r : Response.t) :
  Response.String (Response.set_ProtocolVersion 1 r) =
    Response.String (Response.set_ProtocolVersion 2 r)
  /\ Response.String (Response.set_ProtocolVersion 1 r) =
       (spec.data_line [Response.QName r; Response.QClass r; Response.QType r;
                        Response.TTL r; Response.Id r; Response.Content r],
        None)
  /\ Response.String (Response.set_ProtocolVersion 3 r) =
       (spec.data_line [Response.ScopeBits r; Response.Auth r;
                        Response.QName r; Response.QClass r; Response.QType r;
                        Response.TTL r; Response.Id r; Response.Content r],
        None)
  /\ (forall v, v < 1 \/ 3 < v ->
       Response.String (Response.set_ProtocolVersion v r) =
         ("", Some (ErrorString "Unknown protocol version in response"))).
Proof.
  split; [reflexivity|]. split; [|split].
  - unfold Response.String, spec.data_line. simpl.
    now rewrite !append_assoc.
  - unfold Response.String, spec.data_line. simpl.
    now rewrite !append_assoc.
  - intros v Hv. unfold Response.String. simpl.
    destruct v as [|[p|p|]|p]; try reflexivity; try lia;
      destruct p; try reflexivity; lia.
Qed.

(** C8 on the response of the repository's tests. *)
Lemma Response_String_layout_witness :
  Response.String (test_helpers.FakeResponse 1) =
    Response.String (test_helpers.FakeResponse 2)
  /\ Response.String (Response.set_ProtocolVersion 0 (test_helpers.FakeResponse 3)) =
       ("", Some (ErrorString "Unknown protocol version in response")).
Proof.
  split.
  - apply (proj1 (Response_String_layout (test_helpers.FakeResponse 1))).
  - apply (proj2 (proj2 (proj2
      (Response_String_layout (test_helpers.FakeResponse 3))))).
    left. reflexivity.
Defined.

(** C7. At version 1, 2 or 3, a query line made of the command token,
    the required number of fields free of tabs and line breaks, and one
    terminator, is split by the loop of [Run] into the token and the data;
    the data decode without error, and the decoded query encodes to the
    very same line. *)
Theorem query_roundtrip (v : Z) (q0 : Query.t) (fields : list string) :
  1 <= v <= 3 ->
  Query.ProtocolVersion q0 = v ->
  length fields = spec.required_parts v ->
  Forall spec.well_formed_field fields ->
  exists data q,
    SplitN (TrimRight (spec.query_line fields) nl) TAB 2 = ["Q"; data]
    /\ Query.fromData q0 data = (q, None)
    /\ Query.String q = (spec.query_line fields, None).
Proof.
  intros Hv Hq0 Hlen Hwf.
  assert (Htab : Forall (fun x => has_byte TAB x = false) fields)
    by (eapply Forall_impl; [exact Hwf | intros x [Hx _]; exact Hx]).
  assert (Hlf : Forall (fun x => has_byte LF x = false) fields)
    by (eapply Forall_impl; [exact Hwf | intros x [_ Hx]; exact Hx]).
  assert (Hne : fields ≠ [])
    by (intros ->; apply version_cases in Hv as [-> | [-> | ->]];
        discriminate Hlen).
  exists (Join fields tab).
  assert (Hsplit : SplitN (TrimRight (spec.query_line fields) nl) TAB 2
                   = ["Q"; Join fields tab]).
  { unfold spec.query_line.
    replace ("Q" +:+ tab +:+ Join fields tab +:+ nl)
      with (("Q" +:+ tab +:+ Join fields tab) +:+ nl)
      by now rewrite !append_assoc.
    rewrite TrimRight_line.
    - apply (SplitN_two "Q" (Join fields tab) TAB). reflexivity.
    - rewrite !has_byte_app. unfold tab.
      rewrite (has_byte_Join LF TAB fields); [reflexivity | reflexivity | exact Hlf]. }
  pose proof (Split_Join fields TAB Hne Htab) as Hparts.
  change (String TAB "") with tab in Hparts.
  destruct q0 as [v0 n0 c0 t0 i0 r0 l0 e0]. simpl in Hq0. subst v0.
  apply version_cases in Hv as [-> | [-> | ->]]; simpl in Hlen.
  - destruct fields as [|f1 [|f2 [|f3 [|f4 [|f5 [|]]]]]]; try discriminate Hlen.
    eexists. split; [exact Hsplit|].
    unfold Query.fromData. rewrite Hparts. simpl. split; [reflexivity|].
    unfold Query.String, spec.query_line. simpl.
    now rewrite !append_assoc.
  - destruct fields as [|f1 [|f2 [|f3 [|f4 [|f5 [|f6 [|]]]]]]];
      try discriminate Hlen.
    eexists. split; [exact Hsplit|].
    unfold Query.fromData. rewrite Hparts. simpl. split; [reflexivity|].
    unfold Query.String, spec.query_line. simpl.
    now rewrite !append_assoc.
  - destruct fields as [|f1 [|f2 [|f3 [|f4 [|f5 [|f6 [|f7 [|]]]]]]]];
      try discriminate Hlen.
    eexists. split; [exact Hsplit|].
    unfold Query.fromData. rewrite Hparts. simpl. split; [reflexivity|].
    unfold Query.String, spec.query_line. simpl.
    now rewrite !append_assoc.
Qed.

(** C7 on the query of the repository's tests, at version 3. *)
Lemma query_roundtrip_witness :
  exists data q,
    SplitN (TrimRight
              (spec.query_line ["example.com"; "IN"; "ANY"; "-1"; "127.0.0.2";
                                "127.0.0.1"; "127.0.0.3"]) nl) TAB 2
      = ["Q"; data]
    /\ Query.fromData (Query.zero 3) data = (q, None)
    /\ Query.String q =
         (spec.query_line ["example.com"; "IN"; "ANY"; "-1"; "127.0.0.2";
                           "127.0.0.1"; "127.0.0.3"], None).
Proof.
  apply (query_roundtrip 3 (Query.zero 3)).
  - lia.
  - reflexivity.
  - reflexivity.
  - repeat constructor.
Defined.

End Codec.

(** ** The channel *)

Section Channel.

Import backend.

(** A text cut in two is the text. *)
Lemma first_rest_bytes (n : nat) (s : string) :
  first_bytes n s +:+ rest_bytes n s = s.
Proof.
  revert s. induction n as [|n IH]; intros [|c s]; simpl; try reflexivity.
  rewrite append_cons. now rewrite IH.
Qed.

(** The calls that the transport accepts, one at a time. *)
Lemma accepts_next (rw : ReadWriter) (n : nat) :
  spec.accepts rw (S n) ->
  exists moved, (next_call rw).1 = Accept moved
                /\ Forall accepted (take n (next_call rw).2).
Proof.
  unfold spec.accepts, next_call.
  destruct (script rw) as [|[moved|e taken moved] sc]; simpl.
  - intros _. exists 0%nat. split; [reflexivity|]. rewrite take_nil. constructor.
  - intros H. exists moved. split; [reflexivity | now inversion H].
  - intros H. inversion H as [|? ? Ha]. destruct Ha.
Qed.

(** A write that is accepted: the text is pending, behind what was. *)
Lemma WriteString_accepted (rw : ReadWriter) (s : string) (n : nat) :
  spec.accepts rw (S n) ->
  exists rw', WriteString rw s = (None, rw')
              /\ reads rw' = reads rw
              /\ spec.accepts rw' n
              /\ written rw' +:+ buffered rw'
                 = written rw +:+ (buffered rw +:+ s).
Proof.
  intros H. apply accepts_next in H as (moved & Hv & Hacc).
  unfold WriteString. destruct (next_call rw) as [v sc]. simpl in *. subst v.
  eexists. split; [reflexivity|]. simpl. conjs; [reflexivity | exact Hacc |].
  now rewrite append_assoc, first_rest_bytes.
Qed.

(** A flush that is accepted: all that was pending has reached the peer. *)
Lemma Flush_accepted (rw : ReadWriter) (n : nat) :
  spec.accepts rw (S n) ->
  exists rw', Flush rw = (None, rw')
              /\ reads rw' = reads rw
              /\ spec.accepts rw' n
              /\ written rw' = written rw +:+ buffered rw
              /\ buffered rw' = "".
Proof.
  intros H. apply accepts_next in H as (moved & Hv & Hacc).
  unfold Flush. destruct (next_call rw) as [v sc]. simpl in *. subst v.
  eexists. split; [reflexivity|]. simpl. auto.
Qed.

(** A write followed by a flush, both accepted. *)
Lemma write_then_flush (rw : ReadWriter) (s : string) :
  spec.accepts rw 2 ->
  exists rw1 rw2,
    WriteString rw s = (None, rw1) /\ Flush rw1 = (None, rw2)
    /\ reads rw2 = reads rw
    /\ written rw2 = written rw +:+ (buffered rw +:+ s)
    /\ buffered rw2 = "".
Proof.
  intros H.
  destruct (WriteString_accepted rw s 1 H) as (rw1 & Hw & Hr1 & H1 & Ht1).
  destruct (Flush_accepted rw1 0 H1) as (rw2 & Hf & Hr2 & _ & Hw2 & Hb2).
  exists rw1, rw2. conjs; try assumption; congruence.
Qed.

(** A call that the transport refuses returns its error. *)
Lemma WriteString_refused (rw : ReadWriter) (s : string) (e : error)
    (taken moved : nat) (sc : list verdict) :
  script rw = Refuse e taken moved :: sc ->
  exists rw', WriteString rw s = (Some e, rw')
              /\ reads rw' = reads rw /\ script rw' = sc.
Proof.
  intros H. unfold WriteString, next_call. rewrite H.
  eexists. split; [reflexivity|]. auto.
Qed.

(** The writer leaves the reader alone. *)
Lemma WriteString_reads (rw : ReadWriter) (s : string) :
  reads (WriteString rw s).2 = reads rw.
Proof.
  unfold WriteString, next_call.
  now destruct (script rw) as [|[moved|e taken moved] sc].
Qed.

Lemma Flush_reads (rw : ReadWriter) : reads (Flush rw).2 = reads rw.
Proof.
  unfold Flush, next_call.
  now destruct (script rw) as [|[moved|e taken moved] sc].
Qed.

(** A reliable writer accepts the next calls, however many. *)
Lemma reliable_accepts (rw : ReadWriter) (n : nat) :
  spec.reliable rw -> spec.accepts rw n.
Proof. unfold spec.reliable, spec.accepts. apply Forall_take. Qed.

(** On a reliable writer every call succeeds and the writer stays
    reliable: a write adds its text to what the writer has been handed,
    and a flush passes all of it on. *)
Lemma WriteString_reliable (rw : ReadWriter) (s : string) :
  spec.reliable rw ->
  exists rw', WriteString rw s = (None, rw') /\ spec.reliable rw'
              /\ reads rw' = reads rw
              /\ wire.total rw' = wire.total rw +:+ s.
Proof.
  unfold spec.reliable, WriteString, next_call, wire.total. intros H.
  destruct (script rw) as [|[moved|e taken moved] sc].
  - eexists. split; [reflexivity|]. cbn [reads script written buffered].
    conjs; [constructor | reflexivity |].
    now rewrite !append_assoc, first_rest_bytes.
  - eexists. split; [reflexivity|]. cbn [reads script written buffered].
    conjs; [now inversion H | reflexivity |].
    now rewrite !append_assoc, first_rest_bytes.
  - inversion H as [|? ? Ha]. destruct Ha.
Qed.

Lemma Flush_reliable (rw : ReadWriter) :
  spec.reliable rw ->
  exists rw', Flush rw = (None, rw') /\ spec.reliable rw'
              /\ reads rw' = reads rw
              /\ written rw' = wire.total rw
              /\ buffered rw' = "".
Proof.
  unfold spec.reliable, Flush, next_call, wire.total. intros H.
  destruct (script rw) as [|[moved|e taken moved] sc].
  - eexists. split; [reflexivity|]. cbn [reads script written buffered].
    conjs; [constructor | reflexivity | reflexivity | reflexivity].
  - eexists. split; [reflexivity|]. cbn [reads script written buffered].
    conjs; [now inversion H | reflexivity | reflexivity | reflexivity].
  - inversion H as [|? ? Ha]. destruct Ha.
Qed.

(** The text of a list of replies, whatever follows it. *)
Lemma foldr_append_base (f : Response.t -> string) (base : string)
    (l : list Response.t) :
  foldr (fun r text => f r +:+ text) base l
  = foldr (fun r text => f r +:+ text) "" l +:+ base.
Proof.
  induction l as [|r l IH]; simpl; [reflexivity|].
  now rewrite IH, append_assoc.
Qed.

End Channel.

(** ** The engine: handshake *)

Section Handshake.

Import backend.

(** Reading leaves the writer alone. *)
Lemma ReadString_writer (rw rw' : ReadWriter) (res : string * option error) :
  ReadString rw = (res, rw') ->
  written rw' = written rw /\ buffered rw' = buffered rw
  /\ script rw' = script rw.
Proof.
  unfold ReadString. destruct (reads rw); intros H; injection H as _ <-; auto.
Qed.

Lemma Negotiate_read_error (b : Backend) (e : error) (rw : ReadWriter) (hello : string) :
  ReadString (io b) = ((hello, Some e), rw) ->
  Negotiate b = (set_io rw b, Some e).
Proof. unfold Negotiate. intros ->. reflexivity. Qed.

(** A line that asks for no version: an error, and no call on the writer. *)
Lemma Negotiate_no_version (b : Backend) (rw : ReadWriter) (hello : string) :
  ReadString (io b) = ((hello, None), rw) ->
  spec.hello_version hello = None ->
  exists msg, Negotiate b = (set_io rw b, Some (ErrorString msg)).
Proof.
  unfold Negotiate, spec.hello_version. intros -> H.
  destruct (Split (TrimRight hello (String CR (String LF ""))) TAB)
    as [|a [|t [|x l]]]; simpl; eauto.
  destruct (String.eqb a "HELO"); simpl; eauto.
  destruct (strconv.Atoi t) as [v [e|]]; simpl.
  - rewrite orb_true_r. eauto.
  - destruct (Z.leb_spec 1 v), (Z.leb_spec v 3); simpl in H; try discriminate H.
    + replace (v <? 1) with false by (symmetry; apply Z.ltb_ge; lia).
      replace (v >? 3) with true by (symmetry; rewrite Z.gtb_ltb; apply Z.ltb_lt; lia).
      simpl. eauto.
    + replace (v <? 1) with true by (symmetry; apply Z.ltb_lt; lia).
      simpl. eauto.
    + replace (v <? 1) with true by (symmetry; apply Z.ltb_lt; lia).
      simpl. eauto.
Qed.

(** A line that asks for a version: the acknowledgement is written and
    flushed, and the version stored if both calls are accepted. *)
Lemma Negotiate_version (b : Backend) (rw : ReadWriter) (hello : string) (v : Z) :
  ReadString (io b) = ((hello, None), rw) ->
  spec.hello_version hello = Some v ->
  1 <= v <= 3 /\
  Negotiate b =
    let '(err, rw1) := WriteString rw (spec.acknowledgement (Banner b)) in
    let '(err, rw2) :=
      match err with
      | None => Flush rw1
      | Some _ => (err, rw1)
      end in
    match err with
    | None => (mkBackend (Banner b) v rw2, None)
    | Some _ => (set_io rw2 b, err)
    end.
Proof.
  unfold Negotiate, spec.hello_version. intros -> H.
  destruct (Split (TrimRight hello (String CR (String LF ""))) TAB)
    as [|a [|t [|x l]]]; simpl; try discriminate H.
  destruct (String.eqb a "HELO"); simpl; try discriminate H.
  destruct (strconv.Atoi t) as [w [e|]]; simpl; try discriminate H.
  destruct (Z.leb_spec 1 w), (Z.leb_spec w 3); simpl in H; try discriminate H.
  injection H as ->.
  replace (v <? 1) with false by (symmetry; apply Z.ltb_ge; lia).
  replace (v >? 3) with false by (symmetry; rewrite Z.gtb_ltb; apply Z.ltb_ge; lia).
  simpl. split; [lia|].
  unfold spec.acknowledgement.
  destruct (WriteString rw ("OK" +:+ tab +:+ Banner b +:+ nl)) as [[e|] rw1];
    [reflexivity|].
  destruct (Flush rw1) as [[e|] rw2]; reflexivity.
Qed.

(** C6. [Negotiate] returns no error exactly when the first line is read
    without error, asks for a version ([HELO], a tab, the text of an
    integer from 1 to 3, after its trailing carriage returns and line
    feeds are stripped), and the write and the flush of the
    acknowledgement are accepted. It then has written [OK], a tab, the
    banner and a terminator, flushed, and stored the version. Whenever it
    returns an error the stored version is as before; and when the read
    fails or the line asks for no version, nothing has been handed to the
    writer. *)
Theorem Negotiate_outcome (b : Backend) :
  let b' := (Negotiate b).1 in
  let err := (Negotiate b).2 in
  let first := (ReadString (io b)).1 in
  (err = None <->
     exists hello v, first = (hello, None) /\ spec.hello_version hello = Some v
                     /\ spec.accepts (io b) 2)
  /\ (forall hello v,
        first = (hello, None) -> spec.hello_version hello = Some v ->
        spec.accepts (io b) 2 ->
        1 <= v <= 3
        /\ ProtocolVersion b' = v
        /\ Banner b' = Banner b
        /\ written (io b') =
             written (io b) +:+ (buffered (io b) +:+ spec.acknowledgement (Banner b))
        /\ buffered (io b') = "")
  /\ (err ≠ None -> ProtocolVersion b' = ProtocolVersion b)
  /\ (first.2 ≠ None \/ spec.hello_version first.1 = None ->
      err ≠ None
      /\ written (io b') = written (io b)
      /\ buffered (io b') = buffered (io b)
      /\ script (io b') = script (io b)).
Proof.
  intros b' err first. subst b' err first.
  destruct (ReadString (io b)) as [[hello [e|]] rw] eqn:Hread.
  - (* the read fails *)
    rewrite (Negotiate_read_error b e rw hello Hread). simpl.
    pose proof (ReadString_writer _ _ _ Hread) as Hrw.
    split; [|split; [|split]].
    + split; [discriminate | intros (h & v & Hf & _); discriminate Hf].
    + intros h v Hf. discriminate Hf.
    + reflexivity.
    + intros _. split; [discriminate | exact Hrw].
  - destruct (ReadString_writer _ _ _ Hread) as (Hw & Hb & Hs).
    destruct (spec.hello_version hello) as [v|] eqn:Hv.
    + (* the line asks for version v *)
      destruct (Negotiate_version b rw hello v Hread Hv) as [Hrange ->].
      unfold WriteString, Flush, next_call, spec.accepts.
      rewrite <- Hs, <- Hw, <- Hb.
      destruct (script rw) as [|[m1|e1 t1 m1] [|[m2|e2 t2 m2] sc]]; simpl;
        (split; [|split; [|split]]);
        try (intros [H | H]; simpl in H; congruence);
        try congruence;
        first
          [ (* success *)
            split; [intros _; exists hello, v; conjs; auto; repeat constructor
                   | reflexivity]
          | (* failure *)
            split; [discriminate | intros (h & w & _ & _ & Hacc)];
            inversion Hacc as [|? ? Ha Hacc']; try (now destruct Ha);
            inversion Hacc' as [|? ? Ha' ?]; now destruct Ha'
          | (* success *)
            intros h w Hf Hh _; injection Hf as <-; rewrite Hv in Hh;
            injection Hh as <-; conjs; auto;
            now rewrite ?append_nil_r, ?append_assoc, ?first_rest_bytes
          | (* failure *)
            intros h w _ _ Hacc;
            inversion Hacc as [|? ? Ha Hacc']; try (now destruct Ha);
            inversion Hacc' as [|? ? Ha' ?]; now destruct Ha' ].
    + (* the line asks for no version *)
      destruct (Negotiate_no_version b rw hello Hread Hv) as [msg ->]. simpl.
      split; [|split; [|split]].
      * split; [discriminate | intros (h & v & Hf & Hh & _)].
        injection Hf as <-. congruence.
      * intros h v Hf Hh. injection Hf as <-. congruence.
      * reflexivity.
      * intros _. split; [discriminate | auto].
Qed.

(** The hello lines that ask for a version: [strconv.Atoi] reads a sign
    and leading zeros, so ["+2"] and ["03"] are texts of an integer from 1
    to 3 as much as ["3"] is; a trailing carriage return is stripped. *)
Example hello_version_cases :
  spec.hello_version ("HELO" +:+ tab +:+ "3" +:+ nl) = Some 3
  /\ spec.hello_version ("HELO" +:+ tab +:+ "+2" +:+ String CR nl) = Some 2
  /\ spec.hello_version ("HELO" +:+ tab +:+ "03" +:+ nl) = Some 3
  /\ spec.hello_version ("HELO" +:+ tab +:+ "4" +:+ nl) = None
  /\ spec.hello_version ("HELO" +:+ tab +:+ "0" +:+ nl) = None
  /\ spec.hello_version ("HELO" +:+ tab +:+ "two" +:+ nl) = None
  /\ spec.hello_version ("HELO" +:+ tab +:+ nl) = None
  /\ spec.hello_version ("HELO" +:+ nl) = None
  /\ spec.hello_version ("helo" +:+ tab +:+ "1" +:+ nl) = None
  /\ spec.hello_version ("HELO" +:+ tab +:+ "1" +:+ tab +:+ "x" +:+ nl) = None.
Proof. repeat split. Qed.

(** C6 on the handshake of the repository's tests: [HELO 3] is
    acknowledged with the banner and version 3 is stored. *)
Lemma Negotiate_outcome_witness :
  let b := New [("HELO" +:+ tab +:+ "3" +:+ nl, None)] [] "Testing Backend" in
  (Negotiate b).2 = None
  /\ ProtocolVersion (Negotiate b).1 = 3
  /\ written (io (Negotiate b).1) = "OK" +:+ tab +:+ "Testing Backend" +:+ nl.
Proof.
  intros b.
  assert (Hacc : spec.accepts (io b) 2) by constructor.
  split.
  - apply (proj1 (Negotiate_outcome b)).
    exists ("HELO" +:+ tab +:+ "3" +:+ nl), 3. repeat split. exact Hacc.
  - pose proof (proj1 (proj2 (Negotiate_outcome b))
                  ("HELO" +:+ tab +:+ "3" +:+ nl) 3 eq_refl eq_refl Hacc)
      as (_ & Hv & _ & Hw & _).
    split; [exact Hv | exact Hw].
Defined.

End Handshake.

(** ** The engine: one turn of the loop *)

Section Loop.

Import backend.

Variable callback : Callback.

(** A text handed to the writer and flushed has been sent. *)
Lemma sent_of_total (b b' : Backend) (t : string) :
  b' = set_io (io b') b ->
  reads (io b') = reads (io b) ->
  wire.total (io b') = wire.total (io b) +:+ t ->
  buffered (io b') = "" ->
  spec.sent b b' t.
Proof.
  unfold wire.total, spec.sent. intros Hb Hr Ht Hbuf.
  rewrite Hbuf, append_nil_r, append_assoc in Ht.
  conjs; try assumption; rewrite Hb; reflexivity.
Qed.

(** A request that fails is answered by the log and fail lines. *)
Lemma Run_line_failure (b : Backend) (line : string)
    (responses : list (option Response.t)) (e : error) :
  dispatch b callback (SplitN (TrimRight line nl) TAB 2) = Some (responses, Some e) ->
  spec.accepts (io b) 2 ->
  exists b', Run_line callback b line = Continue b'
             /\ spec.sent b b' (spec.log_fail (ReplaceAll (ErrorText e) LF SP)).
Proof.
  intros Hd Hacc. unfold Run_line. rewrite Hd.
  destruct (write_then_flush (io b) (fail_message e) Hacc)
    as (rw1 & rw2 & -> & Hfl & Hr & Hw & Hb).
  simpl. rewrite Hfl. eexists. split; [reflexivity|].
  unfold spec.sent. simpl. auto.
Qed.

(** A request that succeeds with no replies is answered by the bare
    terminator. *)
Lemma Run_line_no_replies (b : Backend) (line : string) :
  dispatch b callback (SplitN (TrimRight line nl) TAB 2) = Some ([], None) ->
  spec.accepts (io b) 2 ->
  exists b', Run_line callback b line = Continue b'
             /\ spec.sent b b' ("END" +:+ nl).
Proof.
  intros Hd Hacc. unfold Run_line. rewrite Hd. simpl.
  destruct (write_then_flush (io b) ("END" +:+ nl) Hacc)
    as (rw1 & rw2 & -> & -> & Hr & Hw & Hb).
  eexists. split; [reflexivity|].
  unfold spec.sent. simpl. auto.
Qed.

(** The commands that need no callback, in one turn of the loop. *)
Lemma Run_line_commands (b : Backend) (line : string) :
  spec.accepts (io b) 2 ->
  (spec.command line = "PING" ->
   exists b', Run_line callback b line = Continue b'
              /\ spec.sent b b' ("END" +:+ nl))
  /\ (spec.command line = "AXFR" ->
      exists b', Run_line callback b line = Continue b'
                 /\ spec.sent b b' (spec.log_fail "AXFR requests not supported")
                 /\ Contains "AXFR requests not supported" "not supported" = true)
  /\ (spec.command line ≠ "Q" -> spec.command line ≠ "PING" ->
      spec.command line ≠ "AXFR" ->
      exists b', Run_line callback b line = Continue b'
                 /\ spec.sent b b' (spec.log_fail "Bad command")
                 /\ Contains "Bad command" "Bad command" = true).
Proof.
  intros Hacc. unfold spec.command. split; [|split].
  - intros Hc. apply Run_line_no_replies; [|exact Hacc].
    unfold dispatch. rewrite Hc. reflexivity.
  - intros Hc.
    destruct (Run_line_failure b line []
                (errors_New "AXFR requests not supported")) as (b' & Hrun & Hs).
    + unfold dispatch. rewrite Hc. reflexivity.
    + exact Hacc.
    + exists b'. auto.
  - intros HQ HP HA.
    destruct (Run_line_failure b line [] (errors_New "Bad command"))
      as (b' & Hrun & Hs).
    + unfold dispatch.
      apply String.eqb_neq in HQ, HP, HA. rewrite HQ, HP, HA. reflexivity.
    + exact Hacc.
    + exists b'. auto.
Qed.

(** A line whose token is a bare [Q], with no tab after it, makes the
    turn panic: [parts[1]] does not exist. *)
Lemma Run_line_bare_Q (b : Backend) :
  Run_line callback b ("Q" +:+ nl) = Panic b "index out of range [1] with length 1".
Proof. reflexivity. Qed.

(** The switch has no result on a bare [Q], and on no other line. *)
Lemma dispatch_none (b : Backend) (line : string) :
  dispatch b callback (SplitN (TrimRight line nl) TAB 2) = None
  <-> spec.bare_Q line.
Proof.
  unfold dispatch, spec.bare_Q.
  destruct (SplitN_two_shape (TrimRight line nl) TAB)
    as [[_ ->] | (x & rest & _ & _ & ->)]; simpl.
  - destruct (String.eqb_spec (TrimRight line nl) "Q") as [-> | Hne].
    + split; reflexivity.
    + split; [|congruence].
      destruct (String.eqb (TrimRight line nl) "PING"); [discriminate|].
      destruct (String.eqb (TrimRight line nl) "AXFR"); discriminate.
  - split; [|discriminate].
    destruct (String.eqb x "Q"); [discriminate|].
    destruct (String.eqb x "PING"); [discriminate|].
    destruct (String.eqb x "AXFR"); discriminate.
Qed.

(** The loop over the replies leaves all of the backend but the writer
    as it was. *)
Lemma write_responses_frame (responses : list (option Response.t)) (b : Backend) :
  (write_responses b responses).1 = set_io (io (write_responses b responses).1) b
  /\ reads (io (write_responses b responses).1) = reads (io b).
Proof.
  revert b. induction responses as [|[r|] responses IH]; intros b;
    [now destruct b | | now destruct b].
  simpl. destruct (Response.String _) as [data err].
  match goal with
  | |- context [WriteString (io b) ?s] =>
      pose proof (WriteString_reads (io b) s) as Hr;
      destruct (WriteString (io b) s) as [[e|] rw]
  end; simpl in *.
  - auto.
  - destruct (IH (set_io rw b)) as [Hb Hreads]. simpl in *.
    split; [exact Hb | congruence].
Qed.

(** The loop over the replies panics on a [nil] reply and nowhere else. *)
Lemma write_responses_panics (responses : list (option Response.t))
    (b b' : Backend) (msg : string) :
  write_responses b responses = (b', Panics msg) -> None ∈ responses.
Proof.
  revert b. induction responses as [|[r|] responses IH]; intros b; simpl.
  - discriminate.
  - destruct (Response.String _) as [data err].
    destruct (WriteString (io b) _) as [[e|] rw]; [discriminate|].
    intros H. apply list_elem_of_further. exact (IH _ H).
  - intros _. apply list_elem_of_here.
Qed.

(** A turn panics only on a bare [Q] or on a [nil] among the replies. *)
Lemma Run_line_panics (b b' : Backend) (line msg : string) :
  Run_line callback b line = Panic b' msg ->
  spec.bare_Q line
  \/ exists responses,
       dispatch b callback (SplitN (TrimRight line nl) TAB 2)
       = Some (responses, None)
       /\ None ∈ responses.
Proof.
  pose proof (dispatch_none b line) as Hnone.
  unfold Run_line.
  destruct (dispatch b callback _) as [[responses [e|]]|].
  - destruct (WriteString (io b) _) as [[?|] ?]; [discriminate|].
    simpl. destruct (Flush _) as [[?|] ?]; discriminate.
  - intros H. right. exists responses. split; [reflexivity|].
    destruct (write_responses b responses) as [b1 [[e|]|m]] eqn:Hw.
    + discriminate H.
    + destruct (WriteString (io b1) _) as [[?|] ?]; [discriminate H|].
      destruct (Flush _) as [[?|] ?]; discriminate H.
    + exact (write_responses_panics _ _ _ _ Hw).
  - intros _. left. now apply Hnone.
Qed.

(** A turn that goes on has left the reader alone. *)
Lemma Run_line_reads (b b' : Backend) (line : string) :
  Run_line callback b line = Continue b' -> reads (io b') = reads (io b).
Proof.
  unfold Run_line.
  destruct (dispatch b callback _) as [[responses [e|]]|]; [| |discriminate].
  - pose proof (WriteString_reads (io b) (fail_message e)) as Hw.
    destruct (WriteString (io b) (fail_message e)) as [[e1|] rw1];
      [discriminate|].
    simpl in *. pose proof (Flush_reads rw1) as Hf.
    destruct (Flush rw1) as [[e2|] rw2]; [discriminate|].
    intros [= <-]. simpl in *. congruence.
  - destruct (write_responses_frame responses b) as [_ Hr].
    destruct (write_responses b responses) as [b1 [[e|]|msg]];
      try discriminate.
    simpl in Hr.
    pose proof (WriteString_reads (io b1) ("END" +:+ nl)) as Hw.
    destruct (WriteString (io b1) ("END" +:+ nl)) as [[e1|] rw1];
      [discriminate|].
    simpl in *. pose proof (Flush_reads rw1) as Hf.
    destruct (Flush rw1) as [[e2|] rw2]; [discriminate|].
    intros [= <-]. simpl in *. congruence.
Qed.

(** The replies of a callback that returns no [nil]. *)
Lemma no_nil_replies (responses : list (option Response.t)) :
  Forall is_Some responses ->
  exists replies, responses = Some <$> replies
                  /\ mapM id responses = Some replies.
Proof.
  induction 1 as [|[r|] l Hr _ (rs & -> & Hm)].
  - exists []. split; reflexivity.
  - exists (r :: rs). split; [reflexivity|]. simpl. now rewrite Hm.
  - destruct Hr as [r Hr]. discriminate Hr.
Qed.


(** The loop over the replies on a reliable writer: every reply is
    handed to the writer, as its encoding at the version of the backend
    or as the line that stands in for it. *)
Lemma write_responses_reliable (responses : list Response.t) (b : Backend) :
  spec.reliable (io b) ->
  exists b',
    write_responses b (Some <$> responses) = (b', Returns None)
    /\ b' = set_io (io b') b
    /\ reads (io b') = reads (io b)
    /\ spec.reliable (io b')
    /\ wire.total (io b')
       = wire.total (io b)
           +:+ wire.replies_text (ProtocolVersion b) responses ""
    /\ forall more,
         write_responses b ((Some <$> responses) ++ more)
         = write_responses b' more.
Proof.
  revert b. induction responses as [|r responses IH]; intros b H.
  - exists b. simpl. conjs; try reflexivity;
      [now destruct b | exact H | now rewrite append_nil_r].
  - rewrite fmap_cons. cbn [write_responses app].
    destruct (Response.String
                (Response.set_ProtocolVersion (ProtocolVersion b) r))
      as [data err] eqn:Hs.
    assert (Henc : wire.encode_or_log (ProtocolVersion b) r
                   = match err with
                     | Some e => "LOG" +:+ tab +:+ "Error serialising response: "
                                       +:+ ErrorText e +:+ nl
                     | None => data
                     end)
      by (unfold wire.encode_or_log; now rewrite Hs).
    rewrite <- Henc.
    destruct (WriteString_reliable (io b)
                (wire.encode_or_log (ProtocolVersion b) r) H)
      as (rw' & -> & H' & Hr & Ht).
    destruct (IH (set_io rw' b) H')
      as (b' & -> & Hb' & Hr' & Hrel & Ht' & Hmore).
    exists b'. simpl in *. conjs;
      [reflexivity | exact Hb' | congruence | exact Hrel | | exact Hmore].
    rewrite Ht', Ht. unfold wire.replies_text. simpl.
    now rewrite append_assoc.
Qed.

(** One turn on a reliable writer, for a line that is no bare [Q] and a
    request whose replies are not [nil]: the answer to the line is handed
    to the writer and flushed, and nothing else changes. *)
Lemma Run_line_answer (b : Backend) (line : string) :
  spec.reliable (io b) ->
  ~ spec.bare_Q line ->
  (forall responses,
     dispatch b callback (SplitN (TrimRight line nl) TAB 2)
     = Some (responses, None) -> Forall is_Some responses) ->
  exists t b',
    wire.answer_text callback b line = Some t
    /\ Run_line callback b line = Continue b'
    /\ b' = set_io (io b') b
    /\ reads (io b') = reads (io b)
    /\ wire.total (io b') = wire.total (io b) +:+ t
    /\ buffered (io b') = ""
    /\ spec.reliable (io b').
Proof.
  intros H Hq Hnil.
  pose proof (dispatch_none b line) as Hnone.
  unfold wire.answer_text, Run_line in *.
  destruct (dispatch b callback _) as [[responses [e|]]|].
  - destruct (WriteString_reliable (io b) (fail_message e) H)
      as (rw1 & -> & H1 & Hr1 & Ht1).
    simpl.
    destruct (Flush_reliable rw1 H1) as (rw2 & -> & H2 & Hr2 & Hw2 & Hb2).
    eexists _, _. conjs; try reflexivity; simpl; try assumption.
    + congruence.
    + unfold wire.total in *. rewrite Hb2, append_nil_r, Hw2. exact Ht1.
  - destruct (no_nil_replies responses (Hnil responses eq_refl))
      as (replies & -> & Hm).
    rewrite Hm. simpl.
    destruct (write_responses_reliable replies b H)
      as (b1 & -> & Hb1 & Hr1 & H1 & Ht1 & _).
    destruct (WriteString_reliable (io b1) ("END" +:+ nl) H1)
      as (rw2 & -> & H2 & Hr2 & Ht2).
    destruct (Flush_reliable rw2 H2) as (rw3 & -> & H3 & Hr3 & Hw3 & Hb3).
    eexists _, _. conjs; try reflexivity; simpl; try assumption.
    + rewrite Hb1 at 1. reflexivity.
    + congruence.
    + unfold wire.total in *. rewrite Hb3, append_nil_r, Hw3, Ht2, Ht1.
      unfold wire.replies_text.
      rewrite (foldr_append_base (wire.encode_or_log (ProtocolVersion b))
                 ("END" +:+ nl)).
      now rewrite !append_assoc.
  - exfalso. apply Hq, Hnone. reflexivity.
Qed.

(** The loop over the replies on a reliable writer, whatever the
    replies: it ends without an error, or panics on a [nil]. *)
Lemma write_responses_outcome (responses : list (option Response.t))
    (b : Backend) :
  spec.reliable (io b) ->
  match write_responses b responses with
  | (b', Returns None) => spec.reliable (io b')
  | (_, Returns (Some _)) => False
  | (_, Panics _) => None ∈ responses
  end.
Proof.
  revert b. induction responses as [|[r|] responses IH]; intros b H; simpl.
  - exact H.
  - destruct (Response.String _) as [data err].
    match goal with
    | |- context [WriteString (io b) ?s] =>
        destruct (WriteString_reliable (io b) s H) as (rw' & -> & H' & _)
    end.
    specialize (IH (set_io rw' b) H').
    destruct (write_responses (set_io rw' b) responses) as [b' [[e|]|msg]];
      try assumption.
    now apply list_elem_of_further.
  - apply list_elem_of_here.
Qed.

(** One turn on a reliable writer, whatever the line: the turn goes on
    to the next line, unless it panics. *)
Lemma Run_line_reliable (b : Backend) (line : string) :
  spec.reliable (io b) ->
  match Run_line callback b line with
  | Continue b' => spec.reliable (io b')
  | Return _ _ => False
  | Panic _ _ =>
      spec.bare_Q line
      \/ exists responses,
           dispatch b callback (SplitN (TrimRight line nl) TAB 2)
           = Some (responses, None)
           /\ None ∈ responses
  end.
Proof.
  intros H.
  destruct (Run_line callback b line) as [b'|b' err|b' msg] eqn:Hl;
    [| |exact (Run_line_panics _ _ _ _ Hl)];
    unfold Run_line in Hl;
    destruct (dispatch b callback _) as [[responses [e|]]|];
    try discriminate Hl.
  - destruct (WriteString_reliable (io b) (fail_message e) H)
      as (rw1 & Hw & H1 & _).
    rewrite Hw in Hl. simpl in Hl.
    destruct (Flush_reliable rw1 H1) as (rw2 & Hf & H2 & _).
    rewrite Hf in Hl. injection Hl as <-. exact H2.
  - pose proof (write_responses_outcome responses b H) as Ho.
    destruct (write_responses b responses) as [b1 [[e|]|msg]];
      try discriminate Hl.
    destruct (WriteString_reliable (io b1) ("END" +:+ nl) Ho)
      as (rw1 & Hw & H1 & _).
    rewrite Hw in Hl.
    destruct (Flush_reliable rw1 H1) as (rw2 & Hf & H2 & _).
    rewrite Hf in Hl. injection Hl as <-. exact H2.
  - destruct (WriteString_reliable (io b) (fail_message e) H)
      as (rw1 & Hw & H1 & _).
    rewrite Hw in Hl. simpl in Hl.
    destruct (Flush_reliable rw1 H1) as (rw2 & Hf & H2 & _).
    rewrite Hf in Hl. discriminate Hl.
  - pose proof (write_responses_outcome responses b H) as Ho.
    destruct (write_responses b responses) as [b1 [[e|]|msg]];
      try discriminate Hl; [destruct Ho|].
    destruct (WriteString_reliable (io b1) ("END" +:+ nl) Ho)
      as (rw1 & Hw & H1 & _).
    rewrite Hw in Hl.
    destruct (Flush_reliable rw1 H1) as (rw2 & Hf & H2 & _).
    rewrite Hf in Hl. discriminate Hl.
Qed.

End Loop.

(** ** The engine: the loop *)

Section Run.

Import backend.

Variable callback : Callback.

Lemma classic_bare_Q (line : string) : spec.bare_Q line \/ ~ spec.bare_Q line.
Proof.
  unfold spec.bare_Q.
  destruct (decide (SplitN (TrimRight line nl) TAB 2 = ["Q"])); auto.
Qed.

(** [Run] as the source writes it: read a line; stop on a read error,
    without an error of its own at end-of-stream; otherwise take the turn
    and go round again. *)
Lemma Run_unfold (b : Backend) :
  Run b callback =
    let '((line, err), rw) := ReadString (io b) in
    let b := set_io rw b in
    match err with
    | Some e => if is_EOF e then (b, Returns None) else (b, Returns (Some e))
    | None =>
        match Run_line callback b line with
        | Continue b => Run b callback
        | Return b err => (b, Returns err)
        | Panic b msg => (b, Panics msg)
        end
    end.
Proof.
  unfold Run at 1, ReadString.
  destruct b as [banner v [rd sc buf wr]]. simpl.
  destruct rd as [|[line [e|]] rest]; simpl; try reflexivity.
  unfold set_io, set_reads. simpl.
  destruct (Run_line callback _ line) as [b'| |] eqn:Hl; try reflexivity.
  apply Run_line_reads in Hl. simpl in Hl. unfold Run. now rewrite Hl.
Qed.

(** One more turn: when the turn on the line read goes on, so does
    [Run], from the state the turn left and on the rest of the input. *)
Lemma Run_step (b b' : Backend) (line : string)
    (rest : list (string * option error)) :
  reads (io b) = (line, None) :: rest ->
  Run_line callback (set_io (set_reads rest (io b)) b) line = Continue b' ->
  Run b callback = Run_loop callback rest b'.
Proof. intros Hreads Hl. unfold Run. rewrite Hreads. simpl. now rewrite Hl. Qed.

(** When the turn on the line read stops, so does [Run]. *)
Lemma Run_stop (b b' : Backend) (line : string)
    (rest : list (string * option error)) (err : option error) :
  reads (io b) = (line, None) :: rest ->
  Run_line callback (set_io (set_reads rest (io b)) b) line = Return b' err ->
  Run b callback = (b', Returns err).
Proof. intros Hreads Hl. unfold Run. rewrite Hreads. simpl. now rewrite Hl. Qed.

(** When the turn on the line read panics, so does [Run]. *)
Lemma Run_panic (b b' : Backend) (line msg : string)
    (rest : list (string * option error)) :
  reads (io b) = (line, None) :: rest ->
  Run_line callback (set_io (set_reads rest (io b)) b) line = Panic b' msg ->
  Run b callback = (b', Panics msg).
Proof. intros Hreads Hl. unfold Run. rewrite Hreads. simpl. now rewrite Hl. Qed.

(** C9, with the text of the last message as the code has it. In
    [Run], at every stored version, when the next line is read and the
    writer accepts a write and a flush: the turn on a [PING] line sends
    the bare terminator and no data line; the turn on an [AXFR] line
    sends the log and fail lines with "AXFR requests not supported",
    which contains "not supported"; the turn on a line whose token is
    none of [Q], [PING], [AXFR] sends the log and fail lines with "Bad
    command". In each case the turn goes on, and [Run] is the loop on the
    rest of the input from the state that the turn has left. *)
Theorem Run_commands (b : Backend) (line : string)
    (rest : list (string * option error)) :
  reads (io b) = (line, None) :: rest ->
  spec.accepts (io b) 2 ->
  let b0 := set_io (set_reads rest (io b)) b in
  (spec.command line = "PING" ->
   exists b', Run_line callback b0 line = Continue b'
              /\ spec.sent b0 b' ("END" +:+ nl)
              /\ Run b callback = Run_loop callback rest b')
  /\ (spec.command line = "AXFR" ->
      exists b', Run_line callback b0 line = Continue b'
                 /\ spec.sent b0 b' (spec.log_fail "AXFR requests not supported")
                 /\ Contains "AXFR requests not supported" "not supported" = true
                 /\ Run b callback = Run_loop callback rest b')
  /\ (spec.command line ≠ "Q" -> spec.command line ≠ "PING" ->
      spec.command line ≠ "AXFR" ->
      exists b', Run_line callback b0 line = Continue b'
                 /\ spec.sent b0 b' (spec.log_fail "Bad command")
                 /\ Contains "Bad command" "Bad command" = true
                 /\ Run b callback = Run_loop callback rest b').
Proof.
  intros Hreads Hacc b0.
  assert (Hacc0 : spec.accepts (io b0) 2) by exact Hacc.
  pose proof (fun b' => Run_step b b' line rest Hreads) as Hrun. fold b0 in Hrun.
  destruct (Run_line_commands callback b0 line Hacc0) as (HP & HA & HO).
  split; [|split].
  - intros Hc. destruct (HP Hc) as (b' & Hl & Hs). eauto.
  - intros Hc. destruct (HA Hc) as (b' & Hl & Hs & Hin). eauto 6.
  - intros H1 H2 H3. destruct (HO H1 H2 H3) as (b' & Hl & Hs & Hin). eauto 6.
Qed.

(** At end-of-stream [Run] returns without an error. *)
Lemma Run_end_of_stream (b : Backend) :
  reads (io b) = [] -> Run b callback = (b, Returns None).
Proof. unfold Run. intros ->. reflexivity. Qed.

(** What remains of C1 on the code. On a reliable writer, [Run] returns an
    error only for a read that failed otherwise than by end-of-stream, and
    it panics only on a line that is a bare [Q] or on a [nil] among the
    replies of the callback; in every other case it answers each line and
    returns without an error at end-of-stream. *)
Lemma Run_outcomes (b : Backend) :
  spec.reliable (io b) ->
  match (Run b callback).2 with
  | Returns None => True
  | Returns (Some e) => exists line, (line, Some e) ∈ reads (io b) /\ e ≠ EOF
  | Panics _ =>
      exists line,
        (line, None) ∈ reads (io b)
        /\ (spec.bare_Q line
            \/ exists b' responses,
                 dispatch b' callback (SplitN (TrimRight line nl) TAB 2)
                 = Some (responses, None)
                 /\ None ∈ responses)
  end.
Proof.
  unfold Run. remember (reads (io b)) as pending eqn:Hp. clear Hp.
  revert b. induction pending as [|[line [e|]] rest IH]; intros b H; simpl.
  - exact I.
  - destruct e; simpl; [exact I|].
    exists line. split; [apply list_elem_of_here | discriminate].
  - pose proof (Run_line_reliable callback
                  (set_io (set_reads rest (io b)) b) line H) as Hl.
    destruct (Run_line callback _ line) as [b'|b' err|b' msg].
    + specialize (IH b' Hl).
      destruct (Run_loop callback rest b').2 as [[e|]|msg]; [| exact I |].
      * destruct IH as (l & Hin & He). exists l.
        split; [now apply list_elem_of_further | exact He].
      * destruct IH as (l & Hin & Hb). exists l.
        split; [now apply list_elem_of_further | exact Hb].
    + destruct Hl.
    + simpl. exists line. split; [apply list_elem_of_here|].
      destruct Hl as [Hq | (responses & Hd & Hin)]; [now left|].
      right. eauto.
Qed.

(** C1, at the input on which the code departs from it: on a line whose
    command token [Q] has no tab-separated remainder, at any stored
    version and whatever follows, [Run] does not write the log and fail
    lines and go on; it panics on the index [parts[1]]. *)
Theorem Run_bare_Q_panics (banner : string) (v : Z)
    (rest : list (string * option error)) (sc : list verdict)
    (buf wr : string) :
  (Run (mkBackend banner v
          (mkReadWriter (("Q" +:+ nl, None) :: rest) sc buf wr)) callback).2
  = Panics "index out of range [1] with length 1".
Proof. reflexivity. Qed.

End Run.

(** ** The repository's tests of the engine, on the model *)

Section BackendTests.

Import backend test_helpers.

Example TestQueryStringV1 :
  Query.String (FakeQuery 1) =
    ("Q" +:+ tab +:+ "example.com" +:+ tab +:+ "IN" +:+ tab +:+ "ANY" +:+ tab
         +:+ "-1" +:+ tab +:+ "127.0.0.2" +:+ nl, None).
Proof. reflexivity. Qed.

Example TestQueryStringV2 :
  Query.String (FakeQuery 2) =
    ("Q" +:+ tab +:+ "example.com" +:+ tab +:+ "IN" +:+ tab +:+ "ANY" +:+ tab
         +:+ "-1" +:+ tab +:+ "127.0.0.2" +:+ tab +:+ "127.0.0.1" +:+ nl, None).
Proof. reflexivity. Qed.

Example TestQueryStringV3 :
  Query.String (FakeQuery 3) =
    ("Q" +:+ tab +:+ "example.com" +:+ tab +:+ "IN" +:+ tab +:+ "ANY" +:+ tab
         +:+ "-1" +:+ tab +:+ "127.0.0.2" +:+ tab +:+ "127.0.0.1" +:+ tab
         +:+ "127.0.0.3" +:+ nl, None).
Proof. reflexivity. Qed.

Example TestResponseStringV1andV2 :
  Response.String (FakeResponse 1) =
    ("DATA" +:+ tab +:+ "example.com" +:+ tab +:+ "IN" +:+ tab +:+ "ANY"
            +:+ tab +:+ "3600" +:+ tab +:+ "-1" +:+ tab +:+ "foo" +:+ nl, None)
  /\ Response.String (FakeResponse 2) = Response.String (FakeResponse 1).
Proof. split; reflexivity. Qed.

Example TestResponseStringV3 :
  Response.String (FakeResponse 3) =
    ("DATA" +:+ tab +:+ "24" +:+ tab +:+ "auth" +:+ tab +:+ "example.com"
            +:+ tab +:+ "IN" +:+ tab +:+ "ANY" +:+ tab +:+ "3600" +:+ tab
            +:+ "-1" +:+ tab +:+ "foo" +:+ nl, None).
Proof. reflexivity. Qed.

Example TestNegotiatedVersion_short_Q :
  Run (negotiated 2 ["Q" +:+ tab +:+ "foo" +:+ nl]) EmptyDispatch =
    (mkBackend "Testing Backend" 2
       (mkReadWriter [] [] ""
          (spec.log_fail "v2 query should have 6 data parts")),
     Returns None).
Proof. reflexivity. Qed.

Example TestNegotiatedVersion_long_Q :
  output (Run (negotiated 3
                 [TrimRight (Query.String (FakeQuery 3)).1 nl
                    +:+ tab +:+ "foo" +:+ nl]) EmptyDispatch)
  = spec.log_fail "v3 query should have 7 data parts".
Proof. reflexivity. Qed.

Example TestQueriesArePassedToDispatcher :
  Run (negotiated 3 [(Query.String (FakeQuery 3)).1])
      (fun _ q => ([], if String.eqb (Query.String q).1
                                     (Query.String (FakeQuery 3)).1
                       then None
                       else Some (errors_New "Wrong query dispatched")))
  = (mkBackend "Testing Backend" 3 (mkReadWriter [] [] "" ("END" +:+ nl)),
     Returns None).
Proof. reflexivity. Qed.

Example TestResponsesFromDispatcherArePassedToAsker :
  output (Run (negotiated 3 [(Query.String (FakeQuery 3)).1])
            (fun _ _ => ([Some (FakeResponse 3); Some (FakeResponse 3)], None)))
  = (Response.String (FakeResponse 3)).1
      +:+ (Response.String (FakeResponse 3)).1 +:+ "END" +:+ nl.
Proof. reflexivity. Qed.

Example TestErrorFromDispatcherSuppressesResponses :
  output (Run (negotiated 3 [(Query.String (FakeQuery 3)).1])
            (fun _ _ => ([Some (FakeResponse 3); Some (FakeResponse 3)],
                         Some (errors_New ("Test" +:+ nl +:+ "error")))))
  = spec.log_fail "Test error".
Proof. reflexivity. Qed.

Example TestHandlesPing :
  output (Run (negotiated 3 ["PING" +:+ nl]) EmptyDispatch) = "END" +:+ nl.
Proof. reflexivity. Qed.

Example TestAXFRIsTODO :
  output (Run (negotiated 3 ["AXFR" +:+ nl]) EmptyDispatch)
  = spec.log_fail "AXFR requests not supported".
Proof. reflexivity. Qed.

Example TestUnknownCommand :
  output (Run (negotiated 3 ["GOGOGO" +:+ nl]) EmptyDispatch)
  = spec.log_fail "Bad command".
Proof. reflexivity. Qed.

(** The three commands of [Run_commands] on lines of the tests, at
    version 3: the turn, what it sends, and [Run] on the line followed by
    the end of the stream. *)
Lemma Run_commands_witness :
  (exists b', Run_line EmptyDispatch (negotiated 3 []) ("PING" +:+ nl)
              = Continue b'
              /\ spec.sent (negotiated 3 []) b' ("END" +:+ nl)
              /\ Run (negotiated 3 ["PING" +:+ nl]) EmptyDispatch
                 = Run_loop EmptyDispatch [] b')
  /\ (exists b', Run_line EmptyDispatch (negotiated 3 []) ("AXFR" +:+ nl)
                 = Continue b'
                 /\ spec.sent (negotiated 3 []) b'
                      (spec.log_fail "AXFR requests not supported")
                 /\ Contains "AXFR requests not supported" "not supported" = true
                 /\ Run (negotiated 3 ["AXFR" +:+ nl]) EmptyDispatch
                    = Run_loop EmptyDispatch [] b')
  /\ (exists b', Run_line EmptyDispatch (negotiated 3 []) ("GOGOGO" +:+ nl)
                 = Continue b'
                 /\ spec.sent (negotiated 3 []) b' (spec.log_fail "Bad command")
                 /\ Contains "Bad command" "Bad command" = true
                 /\ Run (negotiated 3 ["GOGOGO" +:+ nl]) EmptyDispatch
                    = Run_loop EmptyDispatch [] b').
Proof.
  assert (Hacc : forall l, spec.accepts (io (negotiated 3 l)) 2)
    by (intros l; constructor).
  split; [|split].
  - apply (proj1 (Run_commands EmptyDispatch (negotiated 3 ["PING" +:+ nl])
                    ("PING" +:+ nl) [] eq_refl (Hacc _))).
    reflexivity.
  - apply (proj1 (proj2 (Run_commands EmptyDispatch
                           (negotiated 3 ["AXFR" +:+ nl])
                           ("AXFR" +:+ nl) [] eq_refl (Hacc _)))).
    reflexivity.
  - apply (proj2 (proj2 (Run_commands EmptyDispatch
                           (negotiated 3 ["GOGOGO" +:+ nl])
                           ("GOGOGO" +:+ nl) [] eq_refl (Hacc _))));
      discriminate.
Defined.

(** C9 as it is worded fails on the unrecognized command of the
    repository's own test: the line [GOGOGO] is answered by the log and
    fail lines, and their text does not contain "bad command" (the
    message is "Bad command"). *)
Lemma unknown_command_message_case :
  spec.command ("GOGOGO" +:+ nl) = "GOGOGO"
  /\ (Run (negotiated 3 ["GOGOGO" +:+ nl]) EmptyDispatch).2 = Returns None
  /\ output (Run (negotiated 3 ["GOGOGO" +:+ nl]) EmptyDispatch)
       = spec.log_fail "Bad command"
  /\ Contains (output (Run (negotiated 3 ["GOGOGO" +:+ nl]) EmptyDispatch))
        "bad command" = false.
Proof. repeat split. Qed.

End BackendTests.

(** ** The dispatch pass *)

Section Dispatch.

Import dsl.

Variable d : DSL.

(** The recorded pass computes what the pass computes. *)
Lemma runNode_erase (c : Context) (node : callbackNode) :
  (traced.runNode d c node).1 = runNode d c node.
Proof.
  unfold traced.runNode, runNode.
  destruct (matcher node _) as [[|whole groups]|]; try reflexivity.
  destruct (beforeCallback d); simpl; destruct (Error _); reflexivity.
Qed.

Lemma range_nodes_erase (qtype : string) (c : Context) (nodes : list callbackNode) :
  (traced.range_nodes d qtype c nodes).1 = range_nodes d c nodes.
Proof.
  revert c. induction nodes as [|node nodes IH]; intros c; [reflexivity|].
  simpl. rewrite <- runNode_erase.
  destruct (traced.runNode d c node) as [c' tr]. simpl.
  destruct (Error c'); [reflexivity|].
  rewrite <- IH. now destruct (traced.range_nodes d qtype c' nodes).
Qed.

Lemma range_types_erase (c : Context) (types : list string) :
  (traced.range_types d c types).1 = range_types d c types.
Proof.
  revert c. induction types as [|qtype types IH]; intros c; [reflexivity|].
  simpl. rewrite <- (range_nodes_erase qtype).
  destruct (traced.range_nodes d qtype _ _) as [[c'|c' e] tr]; simpl;
    [|reflexivity].
  rewrite <- IH. now destruct (traced.range_types d c' types).
Qed.

Lemma pass_erase (q : backend.Query.t) : (traced.pass d q).1 = pass d q.
Proof. apply range_types_erase. Qed.

(** Views of a list of calls, piece by piece. *)
Lemma accumulated_from_app (a : list backend.Response.t) (tr1 tr2 : list traced.event) :
  traced.accumulated_from a (tr1 ++ tr2)
  = traced.accumulated_from (traced.accumulated_from a tr1) tr2.
Proof.
  unfold traced.accumulated_from. rewrite omap_app, last_app.
  now destruct (last (omap traced.left_by tr2)).
Qed.

Lemma explains_app (tr1 tr2 : list traced.event) (err : option error) :
  Forall traced.quiet tr1 -> traced.explains tr2 err ->
  traced.explains (tr1 ++ tr2) err.
Proof.
  intros H1 H2. destruct err as [e|]; simpl in *.
  - destruct H2 as (tr0 & ev & -> & Hq & He).
    exists (tr1 ++ tr0)%list, ev. rewrite app_assoc.
    split; [reflexivity|]. split; [|exact He]. now apply Forall_app.
  - now apply Forall_app.
Qed.

Lemma explains_attempt (qtype : string) (node : callbackNode)
    (tr : list traced.event) (err : option error) :
  traced.explains tr err -> traced.explains (traced.EvAttempt qtype node :: tr) err.
Proof.
  intros H. apply (explains_app [traced.EvAttempt qtype node] tr); [|exact H].
  repeat constructor.
Qed.

(** What one node does, from a context without an error. *)
Lemma runNode_sound (c c' : Context) (node : callbackNode) (tr : list traced.event) :
  Error c = None ->
  traced.runNode d c node = (c', tr) ->
  Forall (fun h => Error h = None) (traced.hooked tr)
  /\ Answers c' = traced.accumulated_from (Answers c) tr
  /\ traced.explains tr (Error c')
  /\ traced.attempted tr = []
  /\ traced.invoked tr `sublist_of` [node].
Proof.
  intros Hc. unfold traced.runNode.
  destruct (matcher node _) as [[|whole groups]|].
  1,3: intros [= <- <-]; rewrite Hc; simpl; conjs;
    first [apply sublist_nil_l | constructor].
  destruct (beforeCallback d) as [before|].
  - destruct (Error (before (set_Matches groups c))) as [e|] eqn:Hb.
    + intros [= <- <-]. simpl. rewrite Hb. conjs.
      * repeat constructor. exact Hc.
      * reflexivity.
      * exists [], (traced.EvBefore (set_Matches groups c)
                      (before (set_Matches groups c))).
        conjs; [reflexivity | constructor | exact Hb].
      * reflexivity.
      * apply sublist_nil_l.
    + intros [= <- <-]. simpl. conjs.
      * repeat constructor. exact Hc.
      * reflexivity.
      * destruct (Error (fn node (before (set_Matches groups c)))) as [e|] eqn:Hf.
        -- exists [traced.EvBefore (set_Matches groups c)
                     (before (set_Matches groups c))],
             (traced.EvHandler node (before (set_Matches groups c))
                (fn node (before (set_Matches groups c)))).
           conjs; [reflexivity | | exact Hf]. repeat constructor. exact Hb.
        -- repeat constructor; [exact Hb | exact Hf].
      * reflexivity.
      * reflexivity.
  - simpl. rewrite Hc. intros [= <- <-]. simpl. conjs.
    + constructor.
    + reflexivity.
    + destruct (Error (fn node (set_Matches groups c))) as [e|] eqn:Hf.
      * exists [], (traced.EvHandler node (set_Matches groups c)
                      (fn node (set_Matches groups c))).
        conjs; [reflexivity | constructor | exact Hf].
      * repeat constructor. exact Hf.
    + reflexivity.
    + reflexivity.
Qed.

(** C5. When the pattern of a node matches the query name, the capture
    groups of the context become the sub-matches without the whole match;
    the before-hook, if one is set, is called on that context whatever
    else holds; the handler is called, on the context the hook left, only
    if no error is set then; and when the node is done the capture groups
    are again what they were before it. A node whose pattern does not
    match calls neither and leaves the context as it was. *)
Theorem runNode_on_match (c : Context) (node : callbackNode) :
  let name := backend.Query.QName (Query c) in
  let tr := (traced.runNode d c node).2 in
  (forall whole groups,
     matcher node name = Some (whole :: groups) ->
     let c1 := set_Matches groups c in
     let c2 := match beforeCallback d with
               | Some before => before c1
               | None => c1
               end in
     Matches c1 = groups
     /\ traced.hooked tr = match beforeCallback d with
                           | Some _ => [c1]
                           | None => []
                           end
     /\ (Error c2 = None ->
         traced.invoked tr = [node]
         /\ traced.EvHandler node c2 (fn node c2) ∈ tr
         /\ runNode d c node = set_Matches (Matches c) (fn node c2))
     /\ (Error c2 ≠ None ->
         traced.invoked tr = []
         /\ runNode d c node = set_Matches (Matches c) c2)
     /\ Matches (runNode d c node) = Matches c)
  /\ (matcher node name = None \/ matcher node name = Some [] ->
      tr = [] /\ runNode d c node = c).
Proof.
  intros name tr. subst name tr. unfold traced.runNode, runNode. split.
  - intros whole groups ->.
    destruct (beforeCallback d) as [before|]; simpl;
      destruct (Error _) as [e|] eqn:He; simpl; conjs; try reflexivity;
      try (intros H; discriminate H); try (intros H; now contradiction H);
      intros _; conjs; try reflexivity.
    + apply list_elem_of_further, list_elem_of_here.
    + apply list_elem_of_here.
  - intros [-> | ->]; split; reflexivity.
Qed.

(** What the loop over the nodes of a type does. *)
Lemma range_nodes_sound (qtype : string) (nodes : list callbackNode)
    (c : Context) (f : flow) (tr : list traced.event) :
  Error c = None ->
  traced.range_nodes d qtype c nodes = (f, tr) ->
  Error (context_of f) = error_of f
  /\ Forall (fun h => Error h = None) (traced.hooked tr)
  /\ Answers (context_of f) = traced.accumulated_from (Answers c) tr
  /\ traced.explains tr (error_of f).
Proof.
  revert c f tr. induction nodes as [|node nodes IH]; intros c f tr Hc.
  - intros [= <- <-]. simpl. conjs; [exact Hc | constructor | reflexivity | constructor].
  - simpl. destruct (traced.runNode d c node) as [c1 tr1] eqn:Hn.
    apply runNode_sound in Hn as (Hh & Ha & He & _); [|exact Hc].
    destruct (Error c1) as [e|] eqn:He1.
    + intros [= <- <-]. simpl. conjs.
      * exact He1.
      * exact Hh.
      * exact Ha.
      * now apply (explains_attempt qtype node tr1 (Some e)).
    + destruct (traced.range_nodes d qtype c1 nodes) as [f' tr'] eqn:Hr.
      apply IH in Hr as (Hf & Hh' & Ha' & He'); [|exact He1].
      intros [= <- <-]. conjs.
      * exact Hf.
      * change (Forall (fun h => Error h = None) (traced.hooked (tr1 ++ tr'))).
        unfold traced.hooked. rewrite omap_app. now apply Forall_app.
      * change (Answers (context_of f')
                = traced.accumulated_from (Answers c) (tr1 ++ tr')).
        rewrite accumulated_from_app, <- Ha. exact Ha'.
      * apply (explains_attempt qtype node (tr1 ++ tr') (error_of f')),
          explains_app; assumption.
Qed.

(** What the loop over the types does. *)
Lemma range_types_sound (types : list string)
    (c : Context) (f : flow) (tr : list traced.event) :
  Error c = None ->
  traced.range_types d c types = (f, tr) ->
  Error (context_of f) = error_of f
  /\ Forall (fun h => Error h = None) (traced.hooked tr)
  /\ Answers (context_of f) = traced.accumulated_from (Answers c) tr
  /\ traced.explains tr (error_of f).
Proof.
  revert c f tr. induction types as [|qtype types IH]; intros c f tr Hc.
  - intros [= <- <-]. simpl. conjs; [exact Hc | constructor | reflexivity | constructor].
  - simpl.
    destruct (traced.range_nodes d qtype (set_QType qtype c) (nodes_of d qtype))
      as [f1 tr1] eqn:Hn.
    apply range_nodes_sound in Hn as (Hf & Hh & Ha & He); [|exact Hc].
    destruct f1 as [c1|c1 e]; simpl in *.
    + destruct (traced.range_types d c1 types) as [f' tr'] eqn:Hr.
      apply IH in Hr as (Hf' & Hh' & Ha' & He'); [|exact Hf].
      intros [= <- <-]. conjs.
      * exact Hf'.
      * unfold traced.hooked. rewrite omap_app. now apply Forall_app.
      * rewrite accumulated_from_app, <- Ha. exact Ha'.
      * apply (explains_app tr1 tr' (error_of f')); assumption.
    + intros [= <- <-]. simpl. auto.
Qed.

(** C10. Whenever [Lookup] calls the before-hook, the context it hands
    to it has no error set: the hook never sees an error set earlier in
    the same pass. *)
Theorem hook_sees_no_error (q : backend.Query.t) :
  Forall (fun c => Error c = None) (traced.hooked (traced.calls d q)).
Proof.
  unfold traced.calls, traced.pass.
  destruct (traced.range_types d (fresh d q) (runOn d q)) as [f tr] eqn:Hp.
  apply range_types_sound in Hp as (_ & Hh & _); [exact Hh | reflexivity].
Qed.

(** C2. If a call of the hook or of a handler in the pass sets the
    error, [Lookup] returns that error and no reply at all; if no call
    sets one, it returns the replies accumulated by the calls, and no
    error. *)
Theorem Lookup_error_or_replies (q : backend.Query.t) :
  (forall ev e, ev ∈ traced.calls d q -> traced.error_set ev = Some e ->
                Lookup d q = ([], Some e))
  /\ ((forall ev, ev ∈ traced.calls d q -> traced.error_set ev = None) ->
      Lookup d q = (traced.accumulated (traced.calls d q), None)).
Proof.
  unfold Lookup, traced.calls. rewrite <- pass_erase. unfold traced.pass.
  destruct (traced.range_types d (fresh d q) (runOn d q)) as [f tr] eqn:Hp.
  apply range_types_sound in Hp as (_ & _ & Ha & He); [|reflexivity].
  simpl. destruct f as [c|c e']; simpl in *.
  - split.
    + intros ev e Hin Hset. rewrite Forall_forall in He.
      apply He in Hin. unfold traced.quiet in Hin. congruence.
    + intros _. now rewrite Ha.
  - destruct He as (tr0 & ev' & -> & Hq & Hset'). split.
    + intros ev e Hin Hset. apply elem_of_app in Hin as [Hin | Hin].
      * rewrite Forall_forall in Hq. apply Hq in Hin.
        unfold traced.quiet in Hin. congruence.
      * apply list_elem_of_singleton in Hin. subst ev. congruence.
    + intros Hall. specialize (Hall ev').
      rewrite Hall in Hset'; [discriminate|].
      apply elem_of_app. right. now apply list_elem_of_singleton.
Qed.

(** The order of the calls: one node. *)
Lemma runNode_order (c c' : Context) (node : callbackNode) (tr : list traced.event) :
  traced.runNode d c node = (c', tr) ->
  traced.attempted tr = []
  /\ traced.invoked tr `sublist_of` [node]
  /\ (setup.matches_every_name node -> Error c' = None ->
      traced.invoked tr = [node]).
Proof.
  unfold traced.runNode.
  destruct (matcher node (backend.Query.QName (Query c)))
    as [[|whole groups]|] eqn:Hm.
  - intros [= <- <-]. conjs; [reflexivity | apply sublist_nil_l |].
    intros Hall. destruct (Hall (backend.Query.QName (Query c))) as (w & g & H).
    congruence.
  - destruct (beforeCallback d) as [before|]; simpl;
      destruct (Error _) as [e|] eqn:He; intros [= <- <-]; simpl;
      conjs; try reflexivity; try apply sublist_nil_l; try congruence.
  - intros [= <- <-]. conjs; [reflexivity | apply sublist_nil_l |].
    intros Hall. destruct (Hall (backend.Query.QName (Query c))) as (w & g & H).
    congruence.
Qed.

Lemma attempted_app (tr1 tr2 : list traced.event) :
  traced.attempted (tr1 ++ tr2) = (traced.attempted tr1 ++ traced.attempted tr2)%list.
Proof. apply omap_app. Qed.

Lemma invoked_app (tr1 tr2 : list traced.event) :
  traced.invoked (tr1 ++ tr2) = (traced.invoked tr1 ++ traced.invoked tr2)%list.
Proof. apply omap_app. Qed.

(** The order of the calls: the nodes of one type. The nodes handed to
    [runNode] are the first so many of the list, all of them when the loop
    is not left; the handlers called are among them, in their order, and
    are all of them when moreover every pattern matches. *)
Lemma range_nodes_order (qtype : string) (nodes : list callbackNode)
    (c : Context) (f : flow) (tr : list traced.event) :
  traced.range_nodes d qtype c nodes = (f, tr) ->
  traced.attempted tr `prefix_of` (pair qtype <$> nodes)
  /\ traced.invoked tr `sublist_of` (snd <$> traced.attempted tr)
  /\ (error_of f = None ->
      traced.attempted tr = pair qtype <$> nodes
      /\ (Forall setup.matches_every_name nodes -> traced.invoked tr = nodes)).
Proof.
  revert c f tr. induction nodes as [|node nodes IH]; intros c f tr.
  - intros [= <- <-]. simpl. conjs;
      [apply prefix_nil | apply sublist_nil_l | auto].
  - simpl. destruct (traced.runNode d c node) as [c1 tr1] eqn:Hn.
    apply runNode_order in Hn as (Hatt & Hsub & Hall).
    destruct (Error c1) as [e|] eqn:He1.
    + intros [= <- <-].
      change (traced.attempted (traced.EvAttempt qtype node :: tr1))
        with ((qtype, node) :: traced.attempted tr1).
      change (traced.invoked (traced.EvAttempt qtype node :: tr1))
        with (traced.invoked tr1).
      rewrite Hatt. conjs.
      * apply prefix_cons, prefix_nil.
      * exact Hsub.
      * discriminate.
    + destruct (traced.range_nodes d qtype c1 nodes) as [f' tr'] eqn:Hr.
      apply IH in Hr as (Hpre & Hsub' & Hfull).
      intros [= <- <-].
      change (traced.attempted (traced.EvAttempt qtype node :: tr1 ++ tr'))
        with ((qtype, node) :: traced.attempted (tr1 ++ tr')).
      change (traced.invoked (traced.EvAttempt qtype node :: tr1 ++ tr'))
        with (traced.invoked (tr1 ++ tr')).
      rewrite attempted_app, invoked_app, Hatt. simpl. conjs.
      * now apply prefix_cons.
      * apply (sublist_app _ [node]); assumption.
      * intros Hf. destruct (Hfull Hf) as [Heq Hinv]. split.
        -- now rewrite Heq.
        -- intros Hm. inversion Hm as [|? ? Hnode Hrest]; subst.
           rewrite (Hall Hnode eq_refl), (Hinv Hrest). reflexivity.
Qed.

Lemma candidates_cons (qtype : string) (types : list string) :
  setup.candidates d (qtype :: types)
  = ((pair qtype <$> nodes_of d qtype) ++ setup.candidates d types)%list.
Proof. reflexivity. Qed.

(** The order of the calls: the types, in the order of the list. *)
Lemma range_types_order (types : list string)
    (c : Context) (f : flow) (tr : list traced.event) :
  traced.range_types d c types = (f, tr) ->
  traced.attempted tr `prefix_of` setup.candidates d types
  /\ traced.invoked tr `sublist_of` (snd <$> traced.attempted tr)
  /\ (error_of f = None ->
      traced.attempted tr = setup.candidates d types
      /\ (Forall setup.matches_every_name (snd <$> setup.candidates d types) ->
          traced.invoked tr = snd <$> setup.candidates d types)).
Proof.
  revert c f tr. induction types as [|qtype types IH]; intros c f tr.
  - intros [= <- <-]. simpl. conjs;
      [apply prefix_nil | apply sublist_nil_l | auto].
  - rewrite candidates_cons. cbn [traced.range_types].
    destruct (traced.range_nodes d qtype (set_QType qtype c) (nodes_of d qtype))
      as [f1 tr1] eqn:Hn.
    apply range_nodes_order in Hn as (Hpre & Hsub & Hfull).
    destruct f1 as [c1|c1 e].
    + destruct (traced.range_types d c1 types) as [f' tr'] eqn:Hr.
      apply IH in Hr as (Hpre' & Hsub' & Hfull').
      destruct (Hfull eq_refl) as [Heq Hinv].
      intros [= <- <-]. rewrite attempted_app, invoked_app, Heq. conjs.
      * now apply prefix_app.
      * rewrite fmap_app. apply sublist_app; [|exact Hsub'].
        now rewrite <- Heq.
      * intros Hf. destruct (Hfull' Hf) as [Heq' Hinv']. split.
        -- now rewrite Heq'.
        -- rewrite fmap_app. intros [Hm1 Hm2]%Forall_app.
           rewrite (Hinv' Hm2). f_equal.
           rewrite <- list_fmap_compose in *. simpl in *.
           rewrite list_fmap_id in *. now apply Hinv.
    + intros [= <- <-]. conjs.
      * now apply prefix_app_r.
      * exact Hsub.
      * discriminate.
Qed.

(** A loop that is left on an error has tried a node. *)
Lemma range_nodes_attempted_error (qtype : string) (nodes : list callbackNode)
    (c : Context) (f : flow) (tr : list traced.event) :
  traced.range_nodes d qtype c nodes = (f, tr) ->
  error_of f ≠ None -> traced.attempted tr ≠ [].
Proof.
  destruct nodes as [|node nodes]; simpl.
  - intros [= <- <-]. simpl. congruence.
  - destruct (traced.runNode d c node) as [c1 tr1].
    destruct (Error c1) as [e|].
    + intros [= <- <-] _. discriminate.
    + destruct (traced.range_nodes d qtype c1 nodes) as [f' tr'].
      intros [= <- <-] _. discriminate.
Qed.

Lemma range_types_attempted_error (types : list string)
    (c : Context) (f : flow) (tr : list traced.event) :
  traced.range_types d c types = (f, tr) ->
  error_of f ≠ None -> traced.attempted tr ≠ [].
Proof.
  revert c f tr. induction types as [|qtype types IH]; intros c f tr.
  - intros [= <- <-]. simpl. congruence.
  - cbn [traced.range_types].
    destruct (traced.range_nodes d qtype (set_QType qtype c) (nodes_of d qtype))
      as [f1 tr1] eqn:Hn.
    destruct f1 as [c1|c1 e].
    + destruct (traced.range_types d c1 types) as [f' tr'] eqn:Hr.
      intros [= <- <-] Hf. rewrite attempted_app.
      intros [_ Hnil]%app_eq_nil. exact (IH _ _ _ Hr Hf Hnil).
    + intros [= <- <-] Hf.
      exact (range_nodes_attempted_error _ _ _ _ _ Hn Hf).
Qed.

(** Which handlers are called: pieces of a list of calls. *)
Lemma vetoed_app (tr1 tr2 : list traced.event) :
  routing.vetoed (tr1 ++ tr2) = routing.vetoed tr1 || routing.vetoed tr2.
Proof. apply existsb_app. Qed.

Lemma matching_app (name : string) (l1 l2 : list callbackNode) :
  routing.matching name (l1 ++ l2)
  = (routing.matching name l1 ++ routing.matching name l2)%list.
Proof.
  induction l1 as [|n l1 IH]; simpl; [reflexivity|].
  destruct (routing.is_match n name); simpl; now rewrite IH.
Qed.

(** Which handlers are called, when the callbacks leave the query as it
    is: one node, from a context without an error. The handler is called
    if the pattern matches the name of the query, unless the hook leaves
    an error; an error is left by a node that matches only. *)
Lemma runNode_exact (c c' : Context) (node : callbackNode)
    (tr : list traced.event) :
  (forall h, beforeCallback d = Some h -> routing.keeps_query h) ->
  routing.keeps_query (fn node) ->
  Error c = None ->
  traced.runNode d c node = (c', tr) ->
  let name := backend.Query.QName (Query c) in
  Query c' = Query c
  /\ traced.attempted tr = []
  /\ (Error c' ≠ None -> routing.is_match node name = true)
  /\ (Error c' = None -> routing.vetoed tr = false)
  /\ traced.invoked tr
     = if routing.vetoed tr then [] else routing.matching name [node].
Proof.
  intros Hhook Hfn Hc. unfold traced.runNode, routing.matching, routing.is_match.
  destruct (matcher node (backend.Query.QName (Query c)))
    as [[|whole groups]|] eqn:Hm.
  1,3: intros [= <- <-]; simpl; conjs; try reflexivity; congruence.
  destruct (beforeCallback d) as [before|] eqn:Hb.
  - specialize (Hhook before eq_refl).
    destruct (Error (before (set_Matches groups c))) as [e|] eqn:He.
    + intros [= <- <-]. simpl. rewrite He. simpl.
      conjs; try reflexivity; try congruence.
      now rewrite Hhook.
    + intros [= <- <-]. simpl. rewrite He. simpl.
      conjs; try reflexivity.
      now rewrite Hfn, Hhook.
  - simpl. rewrite Hc. intros [= <- <-]. simpl.
    conjs; try reflexivity.
    now rewrite Hfn.
Qed.

(** The nodes of one type. When the loop is left on an error, the last
    node tried is one that matches, and its handler was called unless the
    hook left the error. *)
Lemma range_nodes_exact (qtype : string) (nodes : list callbackNode)
    (c : Context) (f : flow) (tr : list traced.event) :
  (forall h, beforeCallback d = Some h -> routing.keeps_query h) ->
  Forall (fun n => routing.keeps_query (fn n)) nodes ->
  Error c = None ->
  traced.range_nodes d qtype c nodes = (f, tr) ->
  let name := backend.Query.QName (Query c) in
  Query (context_of f) = Query c
  /\ (error_of f = None ->
      routing.vetoed tr = false
      /\ traced.invoked tr
         = routing.matching name (snd <$> traced.attempted tr))
  /\ (error_of f ≠ None ->
      exists tried last,
        traced.attempted tr = (tried ++ [last])%list
        /\ routing.is_match last.2 name = true
        /\ traced.invoked tr
           = (routing.matching name (snd <$> tried)
                ++ if routing.vetoed tr then [] else [last.2])%list).
Proof.
  intros Hhook. revert c f tr.
  induction nodes as [|node nodes IH]; intros c f tr Hk Hc.
  - intros [= <- <-]. simpl. conjs; [reflexivity | auto | congruence].
  - inversion Hk as [|? ? Hnode Hrest]; subst.
    simpl. destruct (traced.runNode d c node) as [c1 tr1] eqn:Hn.
    apply runNode_exact in Hn as (Hq1 & Hatt & Hmatch & Hveto & Hinv);
      [|assumption..].
    destruct (Error c1) as [e|] eqn:He1.
    + intros [= <- <-].
      change (traced.attempted (traced.EvAttempt qtype node :: tr1))
        with ((qtype, node) :: traced.attempted tr1).
      change (traced.invoked (traced.EvAttempt qtype node :: tr1))
        with (traced.invoked tr1).
      change (routing.vetoed (traced.EvAttempt qtype node :: tr1))
        with (routing.vetoed tr1).
      rewrite Hatt. simpl. conjs; [exact Hq1 | discriminate |].
      intros _. exists [], (qtype, node).
      assert (Hm : routing.is_match node (backend.Query.QName (Query c)) = true)
        by (apply Hmatch; discriminate).
      conjs; [reflexivity | exact Hm |].
      rewrite Hinv. simpl. rewrite Hm. reflexivity.
    + destruct (traced.range_nodes d qtype c1 nodes) as [f' tr'] eqn:Hr.
      pose proof (IH c1 f' tr' Hrest He1 Hr) as H. cbv zeta in H.
      destruct H as (Hq' & Hok & Hbad).
      intros [= <- <-].
      change (traced.attempted (traced.EvAttempt qtype node :: tr1 ++ tr'))
        with ((qtype, node) :: traced.attempted (tr1 ++ tr')).
      change (traced.invoked (traced.EvAttempt qtype node :: tr1 ++ tr'))
        with (traced.invoked (tr1 ++ tr')).
      change (routing.vetoed (traced.EvAttempt qtype node :: tr1 ++ tr'))
        with (routing.vetoed (tr1 ++ tr')).
      rewrite attempted_app, invoked_app, vetoed_app, Hatt, Hinv,
        (Hveto eq_refl). simpl. rewrite Hq1 in *.
      conjs; [congruence | |].
      * intros Hf. destruct (Hok Hf) as [-> ->].
        split; [reflexivity|].
        now destruct (routing.is_match node _).
      * intros Hf. destruct (Hbad Hf) as (tried & last & -> & Hm & ->).
        exists ((qtype, node) :: tried), last.
        conjs; [reflexivity | exact Hm |].
        simpl. now destruct (routing.is_match node _).
Qed.

(** The types, in the order of the list. *)
Lemma range_types_exact (types : list string)
    (c : Context) (f : flow) (tr : list traced.event) :
  (forall h, beforeCallback d = Some h -> routing.keeps_query h) ->
  (forall t n, n ∈ nodes_of d t -> routing.keeps_query (fn n)) ->
  Error c = None ->
  traced.range_types d c types = (f, tr) ->
  let name := backend.Query.QName (Query c) in
  Query (context_of f) = Query c
  /\ (error_of f = None ->
      routing.vetoed tr = false
      /\ traced.invoked tr
         = routing.matching name (snd <$> traced.attempted tr))
  /\ (error_of f ≠ None ->
      exists tried last,
        traced.attempted tr = (tried ++ [last])%list
        /\ routing.is_match last.2 name = true
        /\ traced.invoked tr
           = (routing.matching name (snd <$> tried)
                ++ if routing.vetoed tr then [] else [last.2])%list).
Proof.
  intros Hhook Hnodes. revert c f tr.
  induction types as [|qtype types IH]; intros c f tr Hc.
  - intros [= <- <-]. simpl. conjs; [reflexivity | auto | congruence].
  - cbn [traced.range_types].
    destruct (traced.range_nodes d qtype (set_QType qtype c) (nodes_of d qtype))
      as [f1 tr1] eqn:Hn.
    pose proof Hn as Hs.
    apply range_nodes_sound in Hs as (Herr1 & _); [|exact Hc].
    apply range_nodes_exact in Hn as (Hq1 & Hok1 & Hbad1);
      [| exact Hhook
       | apply Forall_forall; intros n Hin; exact (Hnodes qtype n Hin)
       | exact Hc].
    simpl in Hq1, Hok1, Hbad1.
    destruct f1 as [c1|c1 e]; simpl in *.
    + destruct (traced.range_types d c1 types) as [f' tr'] eqn:Hr.
      pose proof (IH c1 f' tr' Herr1 Hr) as H. cbv zeta in H.
      destruct H as (Hq' & Hok & Hbad).
      destruct (Hok1 eq_refl) as [Hv1 Hi1].
      intros [= <- <-].
      rewrite attempted_app, invoked_app, vetoed_app, Hv1, Hi1. simpl.
      rewrite Hq1 in *.
      conjs; [exact Hq' | |].
      * intros Hf. destruct (Hok Hf) as [-> ->].
        split; [reflexivity|]. now rewrite fmap_app, matching_app.
      * intros Hf. destruct (Hbad Hf) as (tried & last & -> & Hm & ->).
        exists (traced.attempted tr1 ++ tried)%list, last.
        conjs; [now rewrite app_assoc | exact Hm |].
        now rewrite fmap_app, matching_app, app_assoc.
    + intros [= <- <-]. simpl. conjs; [exact Hq1 | discriminate |].
      intros _. apply Hbad1. discriminate.
Qed.

End Dispatch.

(** ** Registration and the order of a pass *)

Section Registration.

Import dsl.

Lemma alreadyIn_elem_of (qtype : string) (sorted : list string) :
  alreadyIn qtype sorted = true <-> qtype ∈ sorted.
Proof.
  induction sorted as [|prospect sorted IH]; simpl.
  - split; [discriminate | intros H; inversion H].
  - rewrite elem_of_cons. destruct (String.eqb_spec prospect qtype) as [-> | Hne].
    + split; auto.
    + rewrite IH. split; [auto | intros [-> | H]; [contradiction | exact H]].
Qed.

(** The first-seen order holds each type that was seen. *)
Lemma elem_of_first_seen (t : string) (types : list string) :
  t ∈ setup.first_seen types <-> t ∈ types.
Proof.
  induction types as [|u types IH]; simpl; [reflexivity|].
  rewrite !elem_of_cons, list_elem_of_filter, IH.
  destruct (decide (t = u)) as [-> | Hne]; [split; auto|].
  split; [intros [? | [_ ?]]; auto | intros [? | ?]; auto].
Qed.

(** Seeing one more type: it is appended if it is new, and otherwise
    nothing moves. *)
Lemma first_seen_snoc (t : string) (types : list string) :
  setup.first_seen (types ++ [t])
  = if decide (t ∈ types) then setup.first_seen types
    else (setup.first_seen types ++ [t])%list.
Proof.
  induction types as [|u types IH]; [reflexivity|].
  simpl. rewrite IH. destruct (decide (t ∈ types)) as [Hin | Hnin].
  - rewrite decide_True by (apply elem_of_cons; auto). reflexivity.
  - rewrite filter_app. destruct (decide (t = u)) as [-> | Hne].
    + rewrite decide_True by (apply elem_of_cons; auto).
      rewrite filter_cons_False by auto. simpl. now rewrite app_nil_r.
    + rewrite decide_False by (rewrite elem_of_cons; intros [? | ?]; auto).
      rewrite filter_cons_True by exact Hne. reflexivity.
Qed.

Lemma registered_for_snoc (regs : list (string * callbackNode))
    (t t' : string) (n : callbackNode) :
  setup.registered_for (regs ++ [(t, n)]) t'
  = if decide (t = t') then (setup.registered_for regs t' ++ [n])%list
    else setup.registered_for regs t'.
Proof.
  unfold setup.registered_for. rewrite filter_app, fmap_app.
  destruct (decide (t = t')) as [-> | Hne].
  - rewrite filter_cons_True by reflexivity. reflexivity.
  - rewrite filter_cons_False by exact Hne. simpl. now rewrite app_nil_r.
Qed.

Lemma nodes_of_Register (d : DSL) (t t' : string) (re : Regexp) (f : Callback) :
  nodes_of (Register d t re f) t'
  = if decide (t = t') then (nodes_of d t ++ [mkNode re f])%list
    else nodes_of d t'.
Proof.
  unfold nodes_of, Register. simpl. rewrite lookup_insert.
  destruct (decide (t = t')) as [-> | Hne]; reflexivity.
Qed.

Lemma build_snoc (ttl : Z) (ks : list setup.call) (k : setup.call) :
  setup.build ttl (ks ++ [k]) = setup.apply (setup.build ttl ks) k.
Proof. unfold setup.build. now rewrite fold_left_app. Qed.

(** The two orders that the router keeps are the two orders that the
    specification names. *)
Lemma build_orders (ttl : Z) (ks : list setup.call) :
  qtypeSort (setup.build ttl ks) = setup.discovery_order (setup.registrations ks)
  /\ forall t, nodes_of (setup.build ttl ks) t
               = setup.registered_for (setup.registrations ks) t.
Proof.
  induction ks as [|k ks [IHs IHn]] using rev_ind.
  - split; [reflexivity|]. intros t. unfold nodes_of. simpl.
    now rewrite lookup_empty.
  - rewrite build_snoc. unfold setup.registrations. rewrite omap_app.
    fold (setup.registrations ks). destruct k as [qtype re f | f]; simpl.
    + split.
      * unfold setup.discovery_order. rewrite fmap_app. simpl.
        rewrite first_seen_snoc. fold (setup.discovery_order (setup.registrations ks)).
        rewrite IHs.
        destruct (alreadyIn qtype (setup.discovery_order (setup.registrations ks)))
          eqn:Hin; simpl.
        -- apply alreadyIn_elem_of in Hin.
           unfold setup.discovery_order in Hin.
           rewrite elem_of_first_seen in Hin.
           rewrite decide_True by exact Hin. reflexivity.
        -- rewrite decide_False; [reflexivity|].
           intros Hin'. rewrite <- elem_of_first_seen in Hin'.
           apply alreadyIn_elem_of in Hin'.
           unfold setup.discovery_order in Hin. congruence.
      * intros t. rewrite nodes_of_Register, registered_for_snoc, !IHn.
        destruct (decide (qtype = t)) as [-> | Hne]; reflexivity.
    + rewrite app_nil_r. split; [exact IHs | exact IHn].
Qed.

(** The candidates of a pass are the handler groups in the order that
    the specification names. *)
Lemma candidates_expected (ttl : Z) (ks : list setup.call) (q : backend.Query.t) :
  setup.candidates (setup.build ttl ks) (runOn (setup.build ttl ks) q)
  = setup.expected_order (setup.registrations ks) q.
Proof.
  destruct (build_orders ttl ks) as [Hs Hn].
  unfold setup.candidates, setup.expected_order, runOn.
  destruct (String.eqb (backend.Query.QType q) "ANY").
  - rewrite Hs. apply list_bind_ext; [|reflexivity].
    intros t. now rewrite Hn.
  - simpl. now rewrite app_nil_r, Hn.
Qed.

End Registration.

Section Order.

Import dsl.


(** The callbacks of a router that was set up by calls that keep the
    query. *)
Lemma build_keeps (ttl : Z) (ks : list setup.call) :
  routing.keep_query ks ->
  (forall h, beforeCallback (setup.build ttl ks) = Some h ->
             routing.keeps_query h)
  /\ (forall t n, n ∈ nodes_of (setup.build ttl ks) t ->
                  routing.keeps_query (fn n)).
Proof.
  unfold routing.keep_query.
  induction ks as [|k ks IH] using rev_ind; intros Hk.
  - split; [discriminate|]. intros t n Hin.
    unfold nodes_of in Hin. simpl in Hin. rewrite lookup_empty in Hin.
    inversion Hin.
  - apply Forall_app in Hk as [Hks Hk].
    inversion Hk as [|? ? Hk1 _]; subst.
    destruct (IH Hks) as [IHh IHn].
    rewrite build_snoc. destruct k as [qtype re f | f]; simpl.
    + split; [exact IHh|]. intros t n. rewrite nodes_of_Register.
      destruct (decide (qtype = t)) as [-> | Hne]; [|apply IHn].
      intros [Hin | Hin]%elem_of_app; [exact (IHn _ _ Hin)|].
      apply list_elem_of_singleton in Hin. subst n. exact Hk1.
    + split; [intros h [= <-]; exact Hk1 | exact IHn].
Qed.

(** C4, as the code has it. For a router set up by any sequence of
    [Register] (and [Before]) calls, the nodes that a pass of [Lookup]
    tries (hands to [runNode]) are, in order, the first so many of: for a
    query of a type other than ["ANY"], the handlers registered for that
    type, in the order of their registration; for a query of type
    ["ANY"], the handler groups of the types in the order in which each
    type was first registered, each group in the order of its
    registrations.

    When [Lookup] returns no error the pass has tried them all, and
    [Lookup] returns the replies that the calls have accumulated; the
    handlers it has called are then those whose pattern matches the name
    of the query, in that order, and not the others. When [Lookup] returns
    an error it returns no reply, and the pass has stopped at the last
    node it tried: that node matches, the handlers called before it are
    those of the nodes tried before it that match, and its own handler was
    called unless it is the hook that left the error. (What is said of the
    matching nodes is for callbacks that leave the query of the context
    as it is.) *)
Theorem Lookup_order (ttl : Z) (ks : list setup.call) (q : backend.Query.t) :
  let d := setup.build ttl ks in
  let order := setup.expected_order (setup.registrations ks) q in
  let tr := traced.calls d q in
  let name := backend.Query.QName q in
  traced.attempted tr `prefix_of` order
  /\ ((Lookup d q).2 = None ->
      traced.attempted tr = order
      /\ (Lookup d q).1 = traced.accumulated tr
      /\ (routing.keep_query ks ->
          traced.invoked tr = routing.matching name (snd <$> order)))
  /\ ((Lookup d q).2 ≠ None ->
      (Lookup d q).1 = []
      /\ traced.attempted tr ≠ []
      /\ (routing.keep_query ks ->
          exists tried last,
            traced.attempted tr = (tried ++ [last])%list
            /\ routing.is_match last.2 name = true
            /\ traced.invoked tr
               = (routing.matching name (snd <$> tried)
                    ++ if routing.vetoed tr then [] else [last.2])%list)).
Proof.
  intros d order tr name. subst d order tr name.
  unfold Lookup, traced.calls. rewrite <- pass_erase. unfold traced.pass.
  rewrite <- candidates_expected with (ttl := ttl).
  destruct (traced.range_types _ _ _) as [f tr] eqn:Hp.
  pose proof (range_types_order _ _ _ _ _ Hp) as (Hpre & _ & Hfull).
  pose proof (range_types_sound _ _ (fresh (setup.build ttl ks) q) _ _
                eq_refl Hp) as (_ & _ & Hans & _).
  pose proof (range_types_attempted_error _ _ _ _ _ Hp) as Hne.
  assert (Hexact := fun Hk =>
            range_types_exact _ _ (fresh (setup.build ttl ks) q) _ _
              (proj1 (build_keeps ttl ks Hk)) (proj2 (build_keeps ttl ks Hk))
              eq_refl Hp).
  cbv zeta in Hexact. simpl in Hexact. simpl. conjs.
  - exact Hpre.
  - intros Herr.
    assert (Hf : error_of f = None)
      by (destruct f; [reflexivity | discriminate Herr]).
    destruct (Hfull Hf) as [Heq _]. conjs.
    + exact Heq.
    + destruct f; [exact Hans | discriminate Hf].
    + intros Hk. destruct (Hexact Hk) as (_ & Hok & _).
      destruct (Hok Hf) as [_ Hinv]. now rewrite Hinv, Heq.
  - intros Herr.
    assert (Hf : error_of f ≠ None)
      by (destruct f; [now contradiction Herr | discriminate]).
    conjs.
    + destruct f; [now contradiction Hf | reflexivity].
    + exact (Hne Hf).
    + intros Hk. destruct (Hexact Hk) as (_ & _ & Hbad). exact (Hbad Hf).
Qed.

End Order.

(** ** The router on concrete registrations *)

Section RouterExamples.

Import dsl test_helpers.

(** Types registered in the order MX, A, TXT: a query of type ["ANY"]
    gets its replies in that order, not in alphabetical order, and the
    two handlers of A in the order of their registration. *)
Example any_follows_discovery_order :
  (fun r => backend.Response.QType r +:+ ":" +:+ backend.Response.Content r)
    <$> (Lookup (setup.build 3600 mx_a_txt) (query_of_type "ANY")).1
  = ["MX:mx"; "A:a1"; "A:a2"; "TXT:txt"].
Proof. reflexivity. Qed.

Example one_type_follows_registration_order :
  backend.Response.Content
    <$> (Lookup (setup.build 3600 mx_a_txt) (query_of_type "A")).1
  = ["a1"; "a2"].
Proof. reflexivity. Qed.

(** The handler that replies and then fails: the error alone comes back. *)
Example error_discards_replies :
  Lookup failing_router (query_of_type "A") = ([], Some (ErrorString "boom")).
Proof. reflexivity. Qed.

(** The hook is called once for each of the four matching nodes. *)
Example hook_runs_on_every_match :
  length (traced.hooked (traced.calls hooked_router (query_of_type "ANY"))) = 4%nat.
Proof. reflexivity. Qed.

(** C4 on the registrations MX, A, TXT, A and a query of type ["ANY"],
    where every pattern matches; on two handlers for A of which the first
    does not match; and on the router whose second handler fails. *)
Lemma Lookup_order_witness :
  traced.invoked (traced.calls (setup.build 3600 mx_a_txt) (query_of_type "ANY"))
  = [ mkNode anything (replies "mx"); mkNode anything (replies "a1");
      mkNode anything (replies "a2"); mkNode anything (replies "txt") ]
  /\ traced.invoked (traced.calls (setup.build 3600 anchored) (query_of_type "A"))
     = [ mkNode anything (replies "any") ]
  /\ exists tried last,
       traced.attempted (traced.calls failing_router (query_of_type "A"))
       = (tried ++ [last])%list
       /\ routing.is_match last.2 "example.com" = true
       /\ traced.invoked (traced.calls failing_router (query_of_type "A"))
          = (routing.matching "example.com" (snd <$> tried)
               ++ if routing.vetoed
                       (traced.calls failing_router (query_of_type "A"))
                  then [] else [last.2])%list.
Proof.
  split; [|split].
  - pose proof (Lookup_order 3600 mx_a_txt (query_of_type "ANY")) as H.
    cbv zeta in H. destruct H as (_ & H & _).
    destruct (H eq_refl) as (_ & _ & Hinv). rewrite Hinv; [reflexivity|].
    repeat (constructor; [intros c; reflexivity|]). constructor.
  - pose proof (Lookup_order 3600 anchored (query_of_type "A")) as H.
    cbv zeta in H. destruct H as (_ & H & _).
    destruct (H eq_refl) as (_ & _ & Hinv). rewrite Hinv; [reflexivity|].
    repeat (constructor; [intros c; reflexivity|]). constructor.
  - pose proof (Lookup_order 3600
                  [ setup.CallRegister "A" anything (replies "first");
                    setup.CallRegister "A" anything (fails "second" "boom");
                    setup.CallRegister "A" anything (replies "third") ]
                  (query_of_type "A")) as H.
    cbv zeta in H. destruct H as (_ & _ & H).
    destruct H as (_ & _ & Hinv); [discriminate|]. apply Hinv.
    repeat (constructor; [intros c; reflexivity|]). constructor.
Defined.

(** C4 as it is worded fails on a handler whose pattern does not match
    the name of the query, and on the handlers after one that leaves an
    error: each is registered for the type of the query, and [Lookup] does
    not call it. Of the two handlers registered for A, a query for
    [example.com] calls the second only, and only its reply comes back;
    of the three handlers of the router whose second handler fails, the
    third is not called. *)
Lemma registered_handler_not_invoked :
  setup.registered_for (setup.registrations anchored) "A"
  = [ mkNode (exactly "www.example.com") (replies "www");
      mkNode anything (replies "any") ]
  /\ traced.invoked (traced.calls (setup.build 3600 anchored) (query_of_type "A"))
     = [ mkNode anything (replies "any") ]
  /\ backend.Response.Content
       <$> (Lookup (setup.build 3600 anchored) (query_of_type "A")).1
     = ["any"]
  /\ (Lookup (setup.build 3600 anchored) (query_of_type "A")).2 = None
  /\ nodes_of failing_router "A"
     = [ mkNode anything (replies "first");
         mkNode anything (fails "second" "boom");
         mkNode anything (replies "third") ]
  /\ traced.invoked (traced.calls failing_router (query_of_type "A"))
     = [ mkNode anything (replies "first");
         mkNode anything (fails "second" "boom") ].
Proof. conjs; reflexivity. Qed.

(** C2 on the router whose second handler fails, and on one whose
    handlers all reply. *)
Lemma Lookup_error_or_replies_witness :
  Lookup failing_router (query_of_type "A") = ([], Some (ErrorString "boom"))
  /\ Lookup (setup.build 3600 mx_a_txt) (query_of_type "A")
     = (traced.accumulated
          (traced.calls (setup.build 3600 mx_a_txt) (query_of_type "A")), None).
Proof.
  split.
  - pose (ev := default (traced.EvAttempt "" (mkNode anything (replies "")))
                  (traced.calls failing_router (query_of_type "A") !! 3%nat)).
    apply (proj1 (Lookup_error_or_replies failing_router (query_of_type "A")) ev).
    + apply (list_elem_of_lookup_2 _ 3). reflexivity.
    + reflexivity.
  - apply (proj2 (Lookup_error_or_replies (setup.build 3600 mx_a_txt)
                    (query_of_type "A"))).
    assert (HF : Forall (fun ev => traced.error_set ev = None)
                   (traced.calls (setup.build 3600 mx_a_txt) (query_of_type "A")))
      by (repeat constructor).
    intros ev Hin. exact (proj1 (Forall_forall _ _) HF ev Hin).
Defined.

(** C5 on one matching node under a hook, and on one that does not
    match. *)
Lemma runNode_on_match_witness :
  let c := fresh hooked_router (query_of_type "A") in
  (traced.hooked (traced.runNode hooked_router c
                    (mkNode anything (replies "x"))).2
   = [set_Matches ["example.com"] c]
   /\ Matches (runNode hooked_router c (mkNode anything (replies "x"))) = [])
  /\ runNode hooked_router c (mkNode (exactly "other") (replies "x")) = c.
Proof.
  intros c. split.
  - pose proof (proj1 (runNode_on_match hooked_router c
                         (mkNode anything (replies "x")))
                  "example.com" ["example.com"] eq_refl) as H.
    cbv zeta in H. destruct H as (_ & Hh & _ & _ & Hm).
    split; [exact Hh | exact Hm].
  - apply (proj2 (runNode_on_match hooked_router c
                    (mkNode (exactly "other") (replies "x")))).
    left. reflexivity.
Defined.

End RouterExamples.

(** * Further properties of the code *)

(** ** The codec, the other way round *)

Section CodecMore.

Import backend.

(** A query line splits into its token and data, and the data into the
    fields. *)
Lemma query_line_split (fields : list string) :
  fields ≠ [] ->
  Forall spec.well_formed_field fields ->
  SplitN (TrimRight (spec.query_line fields) nl) TAB 2 = ["Q"; Join fields tab]
  /\ Split (Join fields tab) TAB = fields.
Proof.
  intros Hne Hwf.
  assert (Htab : Forall (fun x => has_byte TAB x = false) fields)
    by (eapply Forall_impl; [exact Hwf | intros x [Hx _]; exact Hx]).
  assert (Hlf : Forall (fun x => has_byte LF x = false) fields)
    by (eapply Forall_impl; [exact Hwf | intros x [_ Hx]; exact Hx]).
  split.
  - unfold spec.query_line.
    replace ("Q" +:+ tab +:+ Join fields tab +:+ nl)
      with (("Q" +:+ tab +:+ Join fields tab) +:+ nl)
      by now rewrite !append_assoc.
    rewrite TrimRight_line.
    + apply (SplitN_two "Q" (Join fields tab) TAB). reflexivity.
    + rewrite !has_byte_app. unfold tab.
      rewrite (has_byte_Join LF TAB fields); [reflexivity | reflexivity | exact Hlf].
  - exact (Split_Join fields TAB Hne Htab).
Qed.

(** At a known version a query encodes to the line of its fields. *)
Lemma Query_String_line (q : Query.t) :
  1 <= Query.ProtocolVersion q <= 3 ->
  Query.String q = (spec.query_line (wire.query_fields q), None).
Proof.
  intros Hv. destruct q as [v n c t i r l e]. simpl in Hv.
  apply version_cases in Hv as [-> | [-> | ->]];
    unfold Query.String, spec.query_line, wire.query_fields; simpl;
    now rewrite !append_assoc.
Qed.

(** Encoding a query and decoding the line again gives the query back:
    at version 1, 2 or 3, when the fields of that version are free of tabs
    and line feeds and the fields that the version does not carry are
    empty. *)
Theorem query_encode_decode (q : Query.t) :
  let v := Query.ProtocolVersion q in
  1 <= v <= 3 ->
  Forall spec.well_formed_field (wire.query_fields q) ->
  (v < 2 -> Query.LocalIpAddress q = "") ->
  (v < 3 -> Query.EdnsSubnetAddress q = "") ->
  exists data,
    (Query.String q).2 = None
    /\ SplitN (TrimRight (Query.String q).1 nl) TAB 2 = ["Q"; data]
    /\ Query.fromData (Query.zero v) data = (q, None).
Proof.
  intros v Hv Hwf Hl He. subst v.
  rewrite (Query_String_line q Hv). simpl.
  assert (Hne : wire.query_fields q ≠ []).
  { unfold wire.query_fields.
    apply version_cases in Hv as [-> | [-> | ->]]; discriminate. }
  destruct (query_line_split _ Hne Hwf) as [Hsplit Hparts].
  exists (Join (wire.query_fields q) tab). conjs; [reflexivity | exact Hsplit |].
  unfold Query.fromData. rewrite Hparts.
  destruct q as [v n c t i r l e]. simpl in *.
  apply version_cases in Hv as [-> | [-> | ->]]; simpl.
  - rewrite Hl, He by lia. reflexivity.
  - rewrite He by lia. reflexivity.
  - reflexivity.
Qed.

Lemma query_encode_decode_witness :
  exists data,
    (Query.String (test_helpers.FakeQuery 2)).2 = None
    /\ SplitN (TrimRight (Query.String (test_helpers.FakeQuery 2)).1 nl) TAB 2
       = ["Q"; data]
    /\ Query.fromData (Query.zero 2) data = (test_helpers.FakeQuery 2, None).
Proof.
  apply (query_encode_decode (test_helpers.FakeQuery 2)).
  - simpl. lia.
  - repeat constructor.
  - simpl. lia.
  - reflexivity.
Defined.

(** At a known version a response encodes to the data line of its
    fields. *)
Lemma Response_String_line (v : Z) (r : Response.t) :
  1 <= v <= 3 ->
  Response.String (Response.set_ProtocolVersion v r)
  = (spec.data_line (wire.response_fields v r), None).
Proof.
  intros Hv. destruct r as [v0 sb au n c t ttl i ct].
  apply version_cases in Hv as [-> | [-> | ->]];
    unfold Response.String, spec.data_line, wire.response_fields; simpl;
    now rewrite !append_assoc.
Qed.

(** A data line is the join of its token and fields, and a terminator. *)
Lemma data_line_Join (fields : list string) :
  fields ≠ [] ->
  spec.data_line fields = Join ("DATA" :: fields) tab +:+ nl.
Proof.
  intros Hne. unfold spec.data_line. destruct fields as [|x fields]; [contradiction|].
  change (Join ("DATA" :: x :: fields) tab)
    with ("DATA" +:+ tab +:+ Join (x :: fields) tab).
  now rewrite !append_assoc.
Qed.

(** An encoded reply is one line and no more, and the line splits on
    tabs into the token [DATA] and the fields of the version, six at
    versions 1 and 2 and eight at version 3: when the fields are free of
    tabs and line feeds, no field runs into the next and no record into
    the next line. *)
Theorem Response_String_splits (v : Z) (r : Response.t) :
  1 <= v <= 3 ->
  Forall spec.well_formed_field (wire.response_fields v r) ->
  let line := (Response.String (Response.set_ProtocolVersion v r)).1 in
  Split (TrimRight line nl) TAB = "DATA" :: wire.response_fields v r
  /\ line = TrimRight line nl +:+ nl
  /\ has_byte LF (TrimRight line nl) = false
  /\ length (wire.response_fields v r) = if v =? 3 then 8%nat else 6%nat.
Proof.
  intros Hv Hwf line. subst line.
  rewrite (Response_String_line v r Hv). cbn [fst].
  assert (Hne : wire.response_fields v r ≠ [])
    by (unfold wire.response_fields; destruct (v =? 3); discriminate).
  rewrite (data_line_Join _ Hne).
  assert (Hall : Forall spec.well_formed_field ("DATA" :: wire.response_fields v r))
    by (constructor; [split; reflexivity | exact Hwf]).
  assert (Htab : Forall (fun x => has_byte TAB x = false)
                   ("DATA" :: wire.response_fields v r))
    by (eapply Forall_impl; [exact Hall | intros x [Hx _]; exact Hx]).
  assert (Hlf : Forall (fun x => has_byte LF x = false)
                  ("DATA" :: wire.response_fields v r))
    by (eapply Forall_impl; [exact Hall | intros x [_ Hx]; exact Hx]).
  assert (Hbody : has_byte LF (Join ("DATA" :: wire.response_fields v r) tab) = false)
    by (apply has_byte_Join; [reflexivity | exact Hlf]).
  rewrite (TrimRight_line _ Hbody). conjs.
  - apply (Split_Join _ TAB); [discriminate | exact Htab].
  - reflexivity.
  - exact Hbody.
  - unfold wire.response_fields. destruct (v =? 3); reflexivity.
Qed.

Lemma Response_String_splits_witness :
  Split (TrimRight (Response.String (test_helpers.FakeResponse 3)).1 nl) TAB
  = ["DATA"; "24"; "auth"; "example.com"; "IN"; "ANY"; "3600"; "-1"; "foo"].
Proof.
  apply (Response_String_splits 3 (test_helpers.FakeResponse 3)).
  - lia.
  - repeat constructor.
Defined.

End CodecMore.

(** ** The engine, request by request *)

Section RunMore.

Import backend.

Variable callback : Callback.

(** A successful decode happens at a known version only. *)
Lemma fromData_ok_version (q q' : Query.t) (data : string) :
  Query.fromData q data = (q', None) -> 1 <= Query.ProtocolVersion q <= 3.
Proof.
  unfold Query.fromData.
  destruct (Query.ProtocolVersion q) as [|[p|p|]|p]; try discriminate;
    try lia; destruct p; try discriminate; lia.
Qed.



(** What [Run] does with a well-formed [Q] line, in terms of the
    callback's result. *)
Lemma dispatch_Q (b : Backend) (line data : string) (q : Query.t) :
  SplitN (TrimRight line nl) TAB 2 = ["Q"; data] ->
  Query.fromData (Query.zero (ProtocolVersion b)) data = (q, None) ->
  dispatch b callback (SplitN (TrimRight line nl) TAB 2) = Some (callback b q).
Proof.
  intros -> Hq. unfold dispatch, handleQ. simpl. now rewrite Hq.
Qed.

(** At a known version every reply encodes: the text of the replies is
    their data lines. *)
Lemma replies_text_lines (v : Z) (responses : list Response.t) (last : string) :
  1 <= v <= 3 ->
  wire.replies_text v responses last = wire.reply_lines v responses +:+ last.
Proof.
  intros Hv. unfold wire.replies_text, wire.reply_lines.
  induction responses as [|r responses IH]; simpl; [reflexivity|].
  unfold wire.encode_or_log at 1. rewrite (Response_String_line v r Hv).
  now rewrite IH, append_assoc.
Qed.

(** The replies of the callback are relayed in order. When a [Q] line
    decodes and the callback returns replies, none of them [nil], and no
    error, the turn on a reliable writer sends for each reply, in order,
    the token [DATA], the fields of the reply in the layout of the
    negotiated version (whatever version the reply carries itself) joined
    by tabs, and a line feed; then the terminator line. The turn goes on,
    and [Run] is the loop on the rest of the input from the state that
    the turn has left. *)
Theorem Run_relays_replies (b : Backend) (line data : string)
    (rest : list (string * option error)) (q : Query.t)
    (responses : list Response.t) :
  reads (io b) = (line, None) :: rest ->
  spec.reliable (io b) ->
  SplitN (TrimRight line nl) TAB 2 = ["Q"; data] ->
  Query.fromData (Query.zero (ProtocolVersion b)) data = (q, None) ->
  callback (set_io (set_reads rest (io b)) b) q = (Some <$> responses, None) ->
  let b0 := set_io (set_reads rest (io b)) b in
  exists b',
    Run_line callback b0 line = Continue b'
    /\ spec.sent b0 b'
         (wire.reply_lines (ProtocolVersion b) responses +:+ "END" +:+ nl)
    /\ spec.reliable (io b')
    /\ Run b callback = Run_loop callback rest b'.
Proof.
  intros Hreads Hrel Hsplit Hq Hcb b0. fold b0 in Hcb.
  assert (Hv : 1 <= ProtocolVersion b0 <= 3)
    by exact (fromData_ok_version _ _ _ Hq).
  assert (Hd : dispatch b0 callback (SplitN (TrimRight line nl) TAB 2)
               = Some (Some <$> responses, None))
    by (rewrite (dispatch_Q b0 line data q Hsplit Hq); now rewrite Hcb).
  destruct (Run_line_answer callback b0 line Hrel)
    as (t & b' & Ht & Hl & Hb' & Hr & Htot & Hbuf & Hrel').
  - unfold spec.bare_Q. rewrite Hsplit. discriminate.
  - intros responses' Hd'. rewrite Hd in Hd'. injection Hd' as <-.
    apply Forall_fmap, Forall_true. intros r. now exists r.
  - unfold wire.answer_text in Ht. rewrite Hd in Ht.
    rewrite mapM_fmap_Some in Ht by reflexivity. simpl in Ht.
    injection Ht as <-. rewrite (replies_text_lines _ _ _ Hv) in Htot.
    exists b'. conjs;
      [exact Hl | | exact Hrel' | exact (Run_step callback b b' line rest Hreads Hl)].
    exact (sent_of_total b0 b' _ Hb' Hr Htot Hbuf).
Qed.

(** A [nil] among the replies makes [Run] panic. When a [Q] line decodes
    and the callback returns, without an error, replies of which one is
    [nil], the turn on a reliable writer hands the replies before the
    [nil] to the writer and then the Go run time panics, on the
    assignment through the [nil] pointer: the replies after it and the
    terminator are not written, the lines after this one are not read,
    and [Run] does not return. *)
Theorem Run_nil_reply_panics (b : Backend) (line data : string)
    (rest : list (string * option error)) (q : Query.t)
    (before : list Response.t) (after : list (option Response.t)) :
  reads (io b) = (line, None) :: rest ->
  spec.reliable (io b) ->
  SplitN (TrimRight line nl) TAB 2 = ["Q"; data] ->
  Query.fromData (Query.zero (ProtocolVersion b)) data = (q, None) ->
  callback (set_io (set_reads rest (io b)) b) q
  = ((Some <$> before) ++ None :: after, None)%list ->
  exists b',
    Run b callback
    = (b', Panics "invalid memory address or nil pointer dereference")
    /\ reads (io b') = rest
    /\ wire.total (io b')
       = wire.total (io b) +:+ wire.reply_lines (ProtocolVersion b) before.
Proof.
  intros Hreads Hrel Hsplit Hq Hcb.
  set (b0 := set_io (set_reads rest (io b)) b) in *.
  assert (Hv : 1 <= ProtocolVersion b0 <= 3)
    by exact (fromData_ok_version _ _ _ Hq).
  assert (Hrel0 : spec.reliable (io b0)) by exact Hrel.
  destruct (write_responses_reliable before b0 Hrel0)
    as (b1 & _ & _ & Hr1 & _ & Ht1 & Hmore).
  exists b1. conjs.
  - apply (Run_panic callback b b1 line _ rest Hreads). fold b0.
    unfold Run_line. rewrite (dispatch_Q b0 line data q Hsplit Hq), Hcb.
    rewrite Hmore. reflexivity.
  - exact Hr1.
  - rewrite Ht1, (replies_text_lines _ _ _ Hv). now rewrite append_nil_r.
Qed.

(** Replies come out of a turn only at a known version: the callback is
    reached only after a decode, which an unknown version fails. So every
    reply that [Run] writes encodes, and the line that stands in for a
    reply that does not encode is never written (for a callback that
    leaves the version of the backend alone). *)
Theorem replies_only_at_known_version (b : Backend) (parts : list string)
    (responses : list (option Response.t)) :
  dispatch b callback parts = Some (responses, None) ->
  responses ≠ [] ->
  1 <= ProtocolVersion b <= 3
  /\ Forall (fun reply =>
               forall r, reply = Some r ->
                         (Response.String
                            (Response.set_ProtocolVersion (ProtocolVersion b) r)).2
                         = None) responses.
Proof.
  intros Hd Hne.
  assert (Hv : 1 <= ProtocolVersion b <= 3).
  { unfold dispatch, handleQ, handleAXFR in Hd.
    destruct (String.eqb (parts !!! 0%nat) "Q").
    - destruct (parts !! 1%nat) as [data|]; [|discriminate Hd].
      destruct (Query.fromData (Query.zero (ProtocolVersion b)) data)
        as [q [e|]] eqn:Hq; [discriminate Hd|].
      exact (fromData_ok_version _ _ _ Hq).
    - destruct (String.eqb (parts !!! 0%nat) "PING");
        [injection Hd as <-; contradiction|].
      destruct (String.eqb (parts !!! 0%nat) "AXFR"); discriminate Hd. }
  split; [exact Hv|].
  apply Forall_forall. intros reply _ r _.
  now rewrite (Response_String_line _ r Hv).
Qed.

(** Flattening keeps the length of the text. *)
Lemma ReplaceAll_length (s : string) (old new : ascii) :
  String.length (ReplaceAll s old new) = String.length s.
Proof. induction s as [|c s IH]; simpl; [reflexivity | now rewrite IH]. Qed.

(** When the callback returns an error, none of the replies it returned
    with it is sent: the turn sends the log line with the text of the
    error, its line feeds turned into spaces one for one, and the fail
    line. The turn goes on, and [Run] is the loop on the rest of the input
    from the state that the turn has left. *)
Theorem Run_callback_error (b : Backend) (line data : string)
    (rest : list (string * option error)) (q : Query.t)
    (responses : list (option Response.t)) (e : error) :
  reads (io b) = (line, None) :: rest ->
  spec.accepts (io b) 2 ->
  SplitN (TrimRight line nl) TAB 2 = ["Q"; data] ->
  Query.fromData (Query.zero (ProtocolVersion b)) data = (q, None) ->
  callback (set_io (set_reads rest (io b)) b) q = (responses, Some e) ->
  let b0 := set_io (set_reads rest (io b)) b in
  let message := ReplaceAll (ErrorText e) LF SP in
  has_byte LF message = false
  /\ String.length message = String.length (ErrorText e)
  /\ exists b',
       Run_line callback b0 line = Continue b'
       /\ spec.sent b0 b' (spec.log_fail message)
       /\ Run b callback = Run_loop callback rest b'.
Proof.
  intros Hreads Hacc Hsplit Hq Hcb b0 message. subst message. fold b0 in Hcb.
  conjs; [apply ReplaceAll_no_LF | apply ReplaceAll_length |].
  destruct (Run_line_failure callback b0 line responses e) as (b' & Hl & Hs).
  - now rewrite (dispatch_Q b0 line data q Hsplit Hq), Hcb.
  - exact Hacc.
  - exists b'. conjs;
      [exact Hl | exact Hs | exact (Run_step callback b b' line rest Hreads Hl)].
Qed.


(** A write that the transport refuses ends [Run] there and then. When
    the first call on the writer in the turn on a line returns the error
    [e], the turn stops and [Run] returns the text of [e] followed by the
    stage it was at: writing the fail answer of a request that failed,
    writing the first reply, or writing the terminator of a request
    without replies. [Run] makes no other call on the writer, and the
    lines after this one are left unread. *)
Theorem Run_write_failure (b : Backend) (line : string)
    (rest : list (string * option error)) (e : error) (taken moved : nat)
    (sc : list verdict) :
  reads (io b) = (line, None) :: rest ->
  script (io b) = Refuse e taken moved :: sc ->
  let b0 := set_io (set_reads rest (io b)) b in
  let parts := SplitN (TrimRight line nl) TAB 2 in
  (forall responses e0,
     dispatch b0 callback parts = Some (responses, Some e0) ->
     exists b',
       wire.stops callback b b' line rest
         (Errorf_while e " while writing FAIL response")
       /\ script (io b') = sc)
  /\ (forall r responses,
        dispatch b0 callback parts = Some (Some r :: responses, None) ->
        exists b',
          wire.stops callback b b' line rest
            (Errorf_while e " while writing DATA response")
          /\ script (io b') = sc)
  /\ (dispatch b0 callback parts = Some ([], None) ->
      exists b',
        wire.stops callback b b' line rest
          (Errorf_while e " while writing END")
        /\ script (io b') = sc).
Proof.
  intros Hreads Hsc b0 parts.
  assert (Hw : forall s, exists rw',
               WriteString (io b0) s = (Some e, rw')
               /\ reads rw' = rest /\ script rw' = sc)
    by (intros s; exact (WriteString_refused (io b0) s e taken moved sc Hsc)).
  assert (Hstop : forall b' err,
             Banner b' = Banner b -> ProtocolVersion b' = ProtocolVersion b ->
             reads (io b') = rest ->
             Run_line callback b0 line = Return b' (Some err) ->
             wire.stops callback b b' line rest err).
  { intros b' err HB HV HR Hl. unfold wire.stops. fold b0.
    conjs; try assumption.
    exact (Run_stop callback b b' line rest (Some err) Hreads Hl). }
  conjs.
  - intros responses e0 Hd.
    destruct (Hw (fail_message e0)) as (rw' & Hwr & Hr & Hs).
    exists (set_io rw' b0). split; [|exact Hs].
    apply Hstop; try reflexivity; [exact Hr|].
    unfold Run_line. fold parts. rewrite Hd, Hwr. reflexivity.
  - intros r responses Hd.
    destruct (Hw (wire.encode_or_log (ProtocolVersion b0) r))
      as (rw' & Hwr & Hr & Hs).
    exists (set_io rw' b0). split; [|exact Hs].
    apply Hstop; try reflexivity; [exact Hr|].
    unfold Run_line. fold parts. rewrite Hd. cbn [write_responses].
    unfold wire.encode_or_log in Hwr.
    destruct (Response.String _) as [data err]. rewrite Hwr. reflexivity.
  - intros Hd.
    destruct (Hw ("END" +:+ nl)) as (rw' & Hwr & Hr & Hs).
    exists (set_io rw' b0). split; [|exact Hs].
    apply Hstop; try reflexivity; [exact Hr|].
    unfold Run_line. fold parts. rewrite Hd. cbn [write_responses].
    rewrite Hwr. reflexivity.
Qed.

(** [Run] strips the line feed and nothing else. A command followed by a
    carriage return and a line feed has the carriage return in its token,
    which is then no command that [Run] knows: the line is answered with
    "Bad command", [PING] included. *)
Theorem Run_keeps_carriage_return (b : Backend) (x : string) :
  has_byte TAB x = false ->
  has_byte LF x = false ->
  spec.accepts (io b) 2 ->
  spec.command (x +:+ String CR nl) = x +:+ String CR ""
  /\ exists b', Run_line callback b (x +:+ String CR nl) = Continue b'
                /\ spec.sent b b' (spec.log_fail "Bad command").
Proof.
  intros Htab Hlf Hacc.
  assert (Hcmd : spec.command (x +:+ String CR nl) = x +:+ String CR "").
  { unfold spec.command.
    replace (x +:+ String CR nl) with ((x +:+ String CR "") +:+ nl)
      by now rewrite append_assoc.
    rewrite TrimRight_line
      by (rewrite has_byte_app, Hlf; reflexivity).
    rewrite SplitN_two_single
      by (rewrite has_byte_app, Htab; reflexivity).
    reflexivity. }
  split; [exact Hcmd|].
  assert (Hcr : forall t, has_byte CR t = false -> x +:+ String CR "" ≠ t).
  { intros t Ht Heq. rewrite <- Heq, has_byte_app in Ht.
    apply orb_false_iff in Ht as [_ Ht]. discriminate Ht. }
  destruct (Run_line_commands callback b (x +:+ String CR nl) Hacc)
    as (_ & _ & Hother).
  rewrite Hcmd in Hother.
  destruct Hother as (b' & Hl & Hs & _); try (apply Hcr; reflexivity).
  exists b'. auto.
Qed.

End RunMore.

Section RunMoreOnTests.

Import backend test_helpers.

(** Two replies carrying version 1, relayed at version 3. *)
Lemma Run_relays_replies_witness :
  exists b',
    Run_line (fun _ _ => ([Some (FakeResponse 1); Some (FakeResponse 1)], None))
      (negotiated 3 []) (Query.String (FakeQuery 3)).1
    = Continue b'
    /\ spec.sent (negotiated 3 []) b'
         (wire.reply_lines 3 [FakeResponse 1; FakeResponse 1] +:+ "END" +:+ nl)
    /\ spec.reliable (io b')
    /\ Run (negotiated 3 [(Query.String (FakeQuery 3)).1])
           (fun _ _ => ([Some (FakeResponse 1); Some (FakeResponse 1)], None))
       = Run_loop
           (fun _ _ => ([Some (FakeResponse 1); Some (FakeResponse 1)], None))
           [] b'.
Proof.
  apply (Run_relays_replies
           (fun _ _ => ([Some (FakeResponse 1); Some (FakeResponse 1)], None))
           (negotiated 3 [(Query.String (FakeQuery 3)).1])
           (Query.String (FakeQuery 3)).1
           (Join (wire.query_fields (FakeQuery 3)) tab)
           [] (FakeQuery 3) [FakeResponse 1; FakeResponse 1]).
  - reflexivity.
  - constructor.
  - reflexivity.
  - reflexivity.
  - reflexivity.
Defined.

(** A reply and a [nil] at version 3: the reply is handed to the writer,
    and [Run] panics. *)
Lemma Run_nil_reply_panics_witness :
  exists b',
    Run (negotiated 3 [(Query.String (FakeQuery 3)).1])
        (fun _ _ => ([Some (FakeResponse 3); None], None))
    = (b', Panics "invalid memory address or nil pointer dereference")
    /\ reads (io b') = []
    /\ wire.total (io b')
       = wire.total (io (negotiated 3 [(Query.String (FakeQuery 3)).1]))
           +:+ wire.reply_lines 3 [FakeResponse 3].
Proof.
  apply (Run_nil_reply_panics
           (fun _ _ => ([Some (FakeResponse 3); None], None))
           (negotiated 3 [(Query.String (FakeQuery 3)).1])
           (Query.String (FakeQuery 3)).1
           (Join (wire.query_fields (FakeQuery 3)) tab)
           [] (FakeQuery 3) [FakeResponse 3] []).
  - reflexivity.
  - constructor.
  - reflexivity.
  - reflexivity.
  - reflexivity.
Defined.


(** An [AXFR], a [Q] answered with a reply, and a [PING] followed by a
    second [PING], each on a writer that has failed before, whose error
    every later call returns: [Run] stops there, with the second [PING]
    unread. *)
Lemma Run_write_failure_witness :
  (exists b',
     wire.stops EmptyDispatch
       (mkBackend "Testing Backend" 3
          (mkReadWriter [("AXFR" +:+ nl, None)]
             [Refuse (ErrorString "broken pipe") 0 0] "" ""))
       b' ("AXFR" +:+ nl) []
       (ErrorString "broken pipe while writing FAIL response")
     /\ script (io b') = [])
  /\ (exists b',
        wire.stops (fun _ _ => ([Some (FakeResponse 3)], None))
          (mkBackend "Testing Backend" 3
             (mkReadWriter [((Query.String (FakeQuery 3)).1, None)]
                [Refuse (ErrorString "broken pipe") 0 0] "" ""))
          b' (Query.String (FakeQuery 3)).1 []
          (ErrorString "broken pipe while writing DATA response")
        /\ script (io b') = [])
  /\ (exists b',
        wire.stops EmptyDispatch
          (mkBackend "Testing Backend" 3
             (mkReadWriter [("PING" +:+ nl, None); ("PING" +:+ nl, None)]
                [Refuse (ErrorString "broken pipe") 0 0] "" ""))
          b' ("PING" +:+ nl) [("PING" +:+ nl, None)]
          (ErrorString "broken pipe while writing END")
        /\ script (io b') = []).
Proof.
  split; [|split].
  - apply (proj1
             (Run_write_failure EmptyDispatch
                (mkBackend "Testing Backend" 3
                   (mkReadWriter [("AXFR" +:+ nl, None)]
                      [Refuse (ErrorString "broken pipe") 0 0] "" ""))
                ("AXFR" +:+ nl) [] (ErrorString "broken pipe") 0 0 []
                eq_refl eq_refl)
             [] (errors_New "AXFR requests not supported")).
    reflexivity.
  - apply (proj1 (proj2
             (Run_write_failure (fun _ _ => ([Some (FakeResponse 3)], None))
                (mkBackend "Testing Backend" 3
                   (mkReadWriter [((Query.String (FakeQuery 3)).1, None)]
                      [Refuse (ErrorString "broken pipe") 0 0] "" ""))
                (Query.String (FakeQuery 3)).1 [] (ErrorString "broken pipe")
                0 0 [] eq_refl eq_refl))
             (FakeResponse 3) []).
    reflexivity.
  - apply (proj2 (proj2
             (Run_write_failure EmptyDispatch
                (mkBackend "Testing Backend" 3
                   (mkReadWriter [("PING" +:+ nl, None); ("PING" +:+ nl, None)]
                      [Refuse (ErrorString "broken pipe") 0 0] "" ""))
                ("PING" +:+ nl) [("PING" +:+ nl, None)]
                (ErrorString "broken pipe") 0 0 [] eq_refl eq_refl))).
    reflexivity.
Defined.

(** [PING] with a carriage return before the line feed. *)
Lemma Run_keeps_carriage_return_witness :
  spec.command ("PING" +:+ String CR nl) = "PING" +:+ String CR ""
  /\ exists b', Run_line EmptyDispatch (negotiated 3 [])
                  ("PING" +:+ String CR nl) = Continue b'
                /\ spec.sent (negotiated 3 []) b' (spec.log_fail "Bad command").
Proof.
  apply (Run_keeps_carriage_return EmptyDispatch (negotiated 3 []) "PING").
  - reflexivity.
  - reflexivity.
  - constructor.
Defined.

(** A reply of the callback at version 3. *)
Lemma replies_only_at_known_version_witness :
  1 <= 3 <= 3
  /\ Forall (fun reply =>
               forall r, reply = Some r ->
                         (Response.String (Response.set_ProtocolVersion 3 r)).2
                         = None)
       [Some (FakeResponse 1)].
Proof.
  apply (replies_only_at_known_version
           (fun _ _ => ([Some (FakeResponse 1)], None))
           (negotiated 3 [])
           ["Q"; Join (wire.query_fields (FakeQuery 3)) tab]).
  - reflexivity.
  - discriminate.
Defined.

(** The callback of the tests that returns replies and an error. *)
Lemma Run_callback_error_witness :
  exists b',
    Run_line (fun _ _ => ([Some (FakeResponse 3)],
                          Some (errors_New ("Test" +:+ nl +:+ "error"))))
      (negotiated 3 []) (Query.String (FakeQuery 3)).1
    = Continue b'
    /\ spec.sent (negotiated 3 []) b' (spec.log_fail "Test error")
    /\ Run (negotiated 3 [(Query.String (FakeQuery 3)).1])
           (fun _ _ => ([Some (FakeResponse 3)],
                        Some (errors_New ("Test" +:+ nl +:+ "error"))))
       = Run_loop (fun _ _ => ([Some (FakeResponse 3)],
                               Some (errors_New ("Test" +:+ nl +:+ "error"))))
           [] b'.
Proof.
  apply (Run_callback_error
           (fun _ _ => ([Some (FakeResponse 3)],
                        Some (errors_New ("Test" +:+ nl +:+ "error"))))
           (negotiated 3 [(Query.String (FakeQuery 3)).1])
           (Query.String (FakeQuery 3)).1
           (Join (wire.query_fields (FakeQuery 3)) tab)
           [] (FakeQuery 3) [Some (FakeResponse 3)]
           (errors_New ("Test" +:+ nl +:+ "error"))).
  - reflexivity.
  - constructor.
  - reflexivity.
  - reflexivity.
  - reflexivity.
Defined.

End RunMoreOnTests.

(** ** The handshake, again *)

Section HandshakeMore.

Import backend.

Lemma ReadString_reads (rw rw' : ReadWriter) (res : string * option error) :
  ReadString rw = (res, rw') -> reads rw' = tail (reads rw).
Proof.
  unfold ReadString. destruct (reads rw) as [|r rest] eqn:Hr;
    intros H; injection H as _ <-; [exact Hr | reflexivity].
Qed.

(** Whatever its outcome, [Negotiate] takes exactly one line off the
    reader and leaves the banner alone: after a hello that failed, the
    next call reads the line after it. *)
Theorem Negotiate_consumes_one_line (b : Backend) :
  reads (io (Negotiate b).1) = tail (reads (io b))
  /\ Banner (Negotiate b).1 = Banner b.
Proof.
  destruct (ReadString (io b)) as [[hello [e|]] rw] eqn:Hread.
  - rewrite (Negotiate_read_error b e rw hello Hread). simpl.
    split; [exact (ReadString_reads _ _ _ Hread) | reflexivity].
  - pose proof (ReadString_reads _ _ _ Hread) as Hr.
    destruct (spec.hello_version hello) as [v|] eqn:Hv.
    + destruct (Negotiate_version b rw hello v Hread Hv) as [_ ->].
      pose proof (WriteString_reads rw (spec.acknowledgement (Banner b))) as Hw.
      destruct (WriteString rw (spec.acknowledgement (Banner b))) as [[e|] rw1];
        simpl in *.
      * split; [congruence | reflexivity].
      * pose proof (Flush_reads rw1) as Hf.
        destruct (Flush rw1) as [[e|] rw2]; simpl in *;
          (split; [congruence | reflexivity]).
    + destruct (Negotiate_no_version b rw hello Hread Hv) as [msg ->]. simpl.
      split; [exact Hr | reflexivity].
Qed.

(** The handshake can be retried on the same backend: when the first
    line asks for no version and the second asks for version [v], the
    first call fails and the second one succeeds, stores [v], and has sent
    the acknowledgement and nothing before it. *)
Theorem Negotiate_retry (b : Backend) (bad good : string)
    (rest : list (string * option error)) (v : Z) :
  reads (io b) = (bad, None) :: (good, None) :: rest ->
  spec.hello_version bad = None ->
  spec.hello_version good = Some v ->
  spec.accepts (io b) 2 ->
  let b1 := (Negotiate b).1 in
  (Negotiate b).2 ≠ None
  /\ (Negotiate b1).2 = None
  /\ ProtocolVersion (Negotiate b1).1 = v
  /\ written (io (Negotiate b1).1)
     = written (io b) +:+ (buffered (io b) +:+ spec.acknowledgement (Banner b))
  /\ reads (io (Negotiate b1).1) = rest.
Proof.
  intros Hreads Hbad Hgood Hacc b1. subst b1.
  assert (Hread : ReadString (io b)
                  = ((bad, None), set_reads ((good, None) :: rest) (io b)))
    by (unfold ReadString; now rewrite Hreads).
  destruct (Negotiate_no_version b _ bad Hread Hbad) as [msg ->]. simpl.
  split; [discriminate|].
  set (b1 := set_io (set_reads ((good, None) :: rest) (io b)) b).
  assert (Hread1 : ReadString (io b1)
                   = ((good, None), set_reads rest (io b1)))
    by reflexivity.
  destruct (Negotiate_version b1 _ good v Hread1 Hgood) as [_ ->].
  assert (Hacc1 : spec.accepts (set_reads rest (io b1)) 2) by exact Hacc.
  destruct (write_then_flush (set_reads rest (io b1))
              (spec.acknowledgement (Banner b1)) Hacc1)
    as (rw1 & rw2 & -> & -> & Hr & Hw & _).
  simpl. conjs; [reflexivity | reflexivity | exact Hw | exact Hr].
Qed.

Lemma Negotiate_retry_witness :
  let b := New [("hello" +:+ nl, None); ("HELO" +:+ tab +:+ "2" +:+ nl, None)]
               [] "Testing Backend" in
  (Negotiate b).2 ≠ None
  /\ (Negotiate (Negotiate b).1).2 = None
  /\ ProtocolVersion (Negotiate (Negotiate b).1).1 = 2
  /\ written (io (Negotiate (Negotiate b).1).1)
     = "OK" +:+ tab +:+ "Testing Backend" +:+ nl
  /\ reads (io (Negotiate (Negotiate b).1).1) = [].
Proof.
  intros b.
  apply (Negotiate_retry b ("hello" +:+ nl) ("HELO" +:+ tab +:+ "2" +:+ nl) [] 2).
  - reflexivity.
  - reflexivity.
  - reflexivity.
  - constructor.
Defined.

(** A string of bytes of the cutset trims to nothing, and trims off the
    end of any string. *)
Lemma TrimRight_all_in (t cutset : string) :
  wire.all_in cutset t = true -> TrimRight t cutset = "".
Proof.
  induction t as [|c t IH]; simpl; [reflexivity|].
  intros [Hc Ht]%andb_true_iff. rewrite (IH Ht), Hc. reflexivity.
Qed.

Lemma TrimRight_app_all_in (h t cutset : string) :
  wire.all_in cutset t = true ->
  TrimRight (h +:+ t) cutset = TrimRight h cutset.
Proof.
  intros Ht. induction h as [|c h IH].
  - rewrite append_nil_l. now apply TrimRight_all_in.
  - rewrite append_cons. simpl. now rewrite IH.
Qed.

(** The answer to a hello does not depend on how the line ends: two
    lines that differ only in the run of carriage returns and line feeds
    at their end (a bare line feed, a carriage return and a line feed,
    more of either) are answered alike. *)
Theorem Negotiate_ignores_line_ending (banner : string) (v : Z)
    (hello ending ending' : string) (rest : list (string * option error))
    (sc : list verdict) (buf wr : string) :
  wire.all_in (String CR (String LF "")) ending = true ->
  wire.all_in (String CR (String LF "")) ending' = true ->
  Negotiate (mkBackend banner v
               (mkReadWriter ((hello +:+ ending, None) :: rest) sc buf wr))
  = Negotiate (mkBackend banner v
                 (mkReadWriter ((hello +:+ ending', None) :: rest) sc buf wr)).
Proof.
  intros Hend Hend'. unfold Negotiate, ReadString. simpl.
  now rewrite (TrimRight_app_all_in hello ending _ Hend),
              (TrimRight_app_all_in hello ending' _ Hend').
Qed.

Lemma Negotiate_ignores_line_ending_witness :
  Negotiate (New [("HELO" +:+ tab +:+ "3" +:+ String CR nl, None)] [] "x")
  = Negotiate (New [("HELO" +:+ tab +:+ "3" +:+ nl, None)] [] "x").
Proof.
  apply (Negotiate_ignores_line_ending "x" 0 ("HELO" +:+ tab +:+ "3")
           (String CR nl) nl [] [] "" ""); reflexivity.
Defined.

(** A string whose last byte is outside the cutset is not trimmed. *)
Lemma TrimRight_keep (s cutset : string) (c : ascii) :
  in_cutset c cutset = false ->
  TrimRight (s +:+ String c "") cutset = s +:+ String c "".
Proof.
  intros Hc. induction s as [|a s IH].
  - rewrite append_nil_l. simpl. now rewrite Hc.
  - rewrite append_cons. simpl. rewrite IH.
    destruct s; reflexivity.
Qed.

Lemma has_byte_zeros (c : ascii) (n : nat) :
  Ascii.eqb c "0"%char = false -> has_byte c (wire.zeros n) = false.
Proof. intros Hc. induction n as [|n IH]; simpl; [reflexivity | now rewrite Hc]. Qed.

(** Leading zeros do not change the number read. *)
Lemma digits_zeros (n : nat) (s : string) :
  strconv.digits (wire.zeros n +:+ s) 0 = strconv.digits s 0.
Proof.
  induction n as [|n IH]; [reflexivity|].
  simpl wire.zeros. rewrite append_cons. simpl. exact IH.
Qed.

Lemma Atoi_version_text (plus : bool) (n : nat) (d : Z) :
  1 <= d <= 3 -> strconv.Atoi (wire.version_text plus n d) = (d, None).
Proof.
  intros Hd. unfold strconv.Atoi, wire.version_text.
  assert (Hp : strconv.parse_decimal
                 ((if plus then "+" else "") +:+ wire.zeros n +:+ strconv.Itoa d)
               = strconv.digits (wire.zeros n +:+ strconv.Itoa d) 0).
  { destruct plus.
    - rewrite append_cons, append_nil_l. unfold strconv.parse_decimal.
      simpl Ascii.eqb. cbv iota.
      destruct n; [|reflexivity].
      apply version_cases in Hd as [-> | [-> | ->]]; reflexivity.
    - rewrite append_nil_l. destruct n.
      + apply version_cases in Hd as [-> | [-> | ->]]; reflexivity.
      + reflexivity. }
  rewrite Hp, digits_zeros.
  apply version_cases in Hd as [-> | [-> | ->]]; reflexivity.
Qed.

(** A hello whose version is written with a plus sign or with leading
    zeros, any number of them, is accepted like the plain one: the
    version is read as [strconv.Atoi] reads it. *)
Theorem Negotiate_accepts_padded_version (b : Backend) (plus : bool)
    (n : nat) (d : Z) (rest : list (string * option error)) :
  1 <= d <= 3 ->
  reads (io b)
  = ("HELO" +:+ tab +:+ wire.version_text plus n d +:+ nl, None) :: rest ->
  spec.accepts (io b) 2 ->
  (Negotiate b).2 = None /\ ProtocolVersion (Negotiate b).1 = d.
Proof.
  intros Hd Hreads Hacc.
  set (vt := wire.version_text plus n d) in *.
  assert (Hvt : exists p c, vt = p +:+ String c ""
                            /\ in_cutset c (String CR (String LF "")) = false).
  { subst vt. unfold wire.version_text.
    exists ((if plus then "+" else "") +:+ wire.zeros n).
    apply version_cases in Hd as [-> | [-> | ->]];
      eexists; (split; [now rewrite append_assoc | reflexivity]). }
  assert (Htab : has_byte TAB vt = false).
  { subst vt. unfold wire.version_text.
    rewrite !has_byte_app, has_byte_zeros by reflexivity.
    destruct plus; apply version_cases in Hd as [-> | [-> | ->]]; reflexivity. }
  assert (Hhello : spec.hello_version ("HELO" +:+ tab +:+ vt +:+ nl) = Some d).
  { unfold spec.hello_version.
    replace ("HELO" +:+ tab +:+ vt +:+ nl) with (("HELO" +:+ tab +:+ vt) +:+ nl)
      by now rewrite !append_assoc.
    rewrite TrimRight_app_all_in by reflexivity.
    destruct Hvt as (p & c & Hp & Hc).
    replace ("HELO" +:+ tab +:+ vt) with (("HELO" +:+ tab +:+ p) +:+ String c "")
      by (rewrite Hp; now rewrite !append_assoc).
    rewrite (TrimRight_keep _ _ c Hc).
    replace (("HELO" +:+ tab +:+ p) +:+ String c "") with ("HELO" +:+ String TAB vt)
      by (rewrite Hp; unfold tab; now rewrite !append_assoc).
    rewrite (Split_piece "HELO" vt TAB eq_refl), (Split_no_sep vt TAB Htab).
    simpl. subst vt. rewrite (Atoi_version_text plus n d Hd).
    apply version_cases in Hd as [-> | [-> | ->]]; reflexivity. }
  assert (Hread : ReadString (io b)
                  = (("HELO" +:+ tab +:+ vt +:+ nl, None), set_reads rest (io b)))
    by (unfold ReadString; now rewrite Hreads).
  destruct (Negotiate_version b _ _ d Hread Hhello) as [_ ->].
  assert (Hacc' : spec.accepts (set_reads rest (io b)) 2) by exact Hacc.
  destruct (write_then_flush (set_reads rest (io b))
              (spec.acknowledgement (Banner b)) Hacc')
    as (rw1 & rw2 & -> & -> & _).
  split; reflexivity.
Qed.

Lemma Negotiate_accepts_padded_version_witness :
  let b := New [("HELO" +:+ tab +:+ "+002" +:+ nl, None)] [] "x" in
  (Negotiate b).2 = None /\ ProtocolVersion (Negotiate b).1 = 2.
Proof.
  intros b.
  apply (Negotiate_accepts_padded_version b true 2 2 []).
  - lia.
  - reflexivity.
  - constructor.
Defined.

End HandshakeMore.

(** ** The router, again *)

Section RouterMore.

Import dsl.

Lemma NoDup_first_seen (types : list string) : NoDup (setup.first_seen types).
Proof.
  induction types as [|t types IH]; simpl; [constructor|].
  apply NoDup_cons. split.
  - intros [Hne _]%list_elem_of_filter. now apply Hne.
  - now apply NoDup_filter.
Qed.

Lemma registered_for_nonempty (regs : list (string * callbackNode)) (t : string) :
  setup.registered_for regs t ≠ [] <-> t ∈ fst <$> regs.
Proof.
  unfold setup.registered_for. induction regs as [|[u n] regs IH]; simpl.
  - split; [intros H; now contradiction H | intros H; inversion H].
  - rewrite elem_of_cons. destruct (decide (u = t)) as [-> | Hne].
    + rewrite filter_cons_True by reflexivity. simpl. split; [auto | discriminate].
    + rewrite filter_cons_False by exact Hne. rewrite IH.
      split; [auto | intros [-> | H]; [contradiction | exact H]].
Qed.

(** The discovery list of a router never holds a type twice, and it
    holds exactly the types that have a handler: the list and the map of
    handlers never disagree on which types are registered. *)
Theorem Register_keeps_discovery_list (ttl : Z) (ks : list setup.call) :
  NoDup (qtypeSort (setup.build ttl ks))
  /\ forall t, t ∈ qtypeSort (setup.build ttl ks)
               <-> nodes_of (setup.build ttl ks) t ≠ [].
Proof.
  destruct (build_orders ttl ks) as [Hs Hn]. rewrite Hs. split.
  - apply NoDup_first_seen.
  - intros t. rewrite Hn, registered_for_nonempty.
    unfold setup.discovery_order. apply elem_of_first_seen.
Qed.

Lemma group_is_filter (regs : list (string * callbackNode)) (t : string) :
  pair t <$> setup.registered_for regs t = filter (fun r => r.1 = t) regs.
Proof.
  unfold setup.registered_for. induction regs as [|[u n] regs IH]; [reflexivity|].
  destruct (decide (u = t)) as [-> | Hne].
  - rewrite !filter_cons_True by reflexivity. rewrite !fmap_cons.
    f_equal. exact IH.
  - rewrite !filter_cons_False by exact Hne. exact IH.
Qed.

(** Grouping a list by the distinct keys it has loses and doubles
    nothing. *)
Lemma bind_groups_perm (ts : list string) (l : list (string * callbackNode)) :
  NoDup ts -> (forall r, r ∈ l -> r.1 ∈ ts) ->
  (t ← ts; filter (fun r => r.1 = t) l) ≡ₚ l.
Proof.
  revert l. induction ts as [|t ts IH]; intros l Hnd Hin.
  - destruct l as [|r l]; [reflexivity|].
    specialize (Hin r (list_elem_of_here _ _)). inversion Hin.
  - apply NoDup_cons in Hnd as [Hnt Hnd]. rewrite bind_cons.
    assert (Heq : (u ← ts; filter (fun r => r.1 = u) l)
                  = (u ← ts; filter (fun r => r.1 = u)
                               (filter (fun r => r.1 ≠ t) l))).
    { apply Forall_bind_ext, Forall_forall. intros u Hu.
      rewrite list_filter_filter. apply list_filter_iff. intros r.
      split; [intros ->; split; [reflexivity | congruence] | intros [H _]; exact H]. }
    rewrite Heq.
    etransitivity; [| apply (filter_app_complement (fun r => r.1 = t) l)].
    apply Permutation_app_head, IH; [exact Hnd|].
    intros r [Hne Hr]%list_elem_of_filter.
    specialize (Hin r Hr). apply elem_of_cons in Hin as [H | H];
      [contradiction | exact H].
Qed.

(** A query of type ["ANY"] that ends without an error has handed every
    registration to [runNode] exactly once: no handler is left out and
    none is tried twice, however the registrations of the types are
    interleaved. *)
Theorem ANY_tries_every_registration_once (ttl : Z) (ks : list setup.call)
    (q : backend.Query.t) :
  backend.Query.QType q = "ANY" ->
  (Lookup (setup.build ttl ks) q).2 = None ->
  traced.attempted (traced.calls (setup.build ttl ks) q) ≡ₚ setup.registrations ks.
Proof.
  intros Hany. unfold Lookup, traced.calls. rewrite <- pass_erase.
  unfold traced.pass.
  destruct (traced.range_types _ _ _) as [f tr] eqn:Hp.
  apply range_types_order in Hp as (_ & _ & Hfull). simpl.
  intros Herr.
  assert (Hf : error_of f = None) by (destruct f; [reflexivity | discriminate Herr]).
  destruct (Hfull Hf) as [-> _].
  rewrite candidates_expected. unfold setup.expected_order. rewrite Hany. simpl.
  erewrite list_bind_ext; [| intros t; apply group_is_filter | reflexivity].
  apply bind_groups_perm.
  - apply NoDup_first_seen.
  - intros r Hr. unfold setup.discovery_order. apply elem_of_first_seen.
    apply list_elem_of_fmap. exists r. auto.
Qed.

Lemma ANY_tries_every_registration_once_witness :
  traced.attempted
    (traced.calls (setup.build 3600 test_helpers.mx_a_txt)
       (test_helpers.query_of_type "ANY"))
  ≡ₚ setup.registrations test_helpers.mx_a_txt.
Proof.
  apply (ANY_tries_every_registration_once 3600 test_helpers.mx_a_txt
           (test_helpers.query_of_type "ANY")); reflexivity.
Defined.

Lemma beforeCallback_Register (d : DSL) (t : string) (re : Regexp) (f : Callback) :
  beforeCallback (Register d t re f) = beforeCallback d.
Proof. reflexivity. Qed.

(** Of the hooks set on a router only the last one is kept, and
    registering handlers, before or after, does not unset it: a pass runs
    one hook at most, the one set last. *)
Theorem Before_last_wins (ttl : Z) (ks : list setup.call) :
  beforeCallback (setup.build ttl ks) = last (routing.hooks ks).
Proof.
  induction ks as [|k ks IH] using rev_ind; [reflexivity|].
  rewrite build_snoc. unfold routing.hooks. rewrite omap_app.
  fold (routing.hooks ks). destruct k as [t re f | f]; simpl.
  - now rewrite app_nil_r.
  - now rewrite last_snoc.
Qed.

End RouterMore.

(** ** Passes of particular routers *)

Section PassMore.

Import dsl.

Variable d : DSL.

Lemma runNode_no_match (c : Context) (node : callbackNode) :
  routing.is_match node (backend.Query.QName (Query c)) = false ->
  traced.runNode d c node = (c, []).
Proof.
  unfold routing.is_match, traced.runNode.
  destruct (matcher node _) as [[|whole groups]|]; [reflexivity | discriminate | reflexivity].
Qed.

Lemma range_nodes_no_match (qtype : string) (c : Context) (nodes : list callbackNode) :
  Error c = None ->
  Forall (fun n => routing.is_match n (backend.Query.QName (Query c)) = false) nodes ->
  traced.range_nodes d qtype c nodes = (Next c, traced.EvAttempt qtype <$> nodes).
Proof.
  intros Hc. induction nodes as [|node nodes IH]; intros Hall; [reflexivity|].
  inversion Hall as [|? ? Hn Hrest]; subst. simpl.
  rewrite (runNode_no_match c node Hn), Hc, (IH Hrest). reflexivity.
Qed.

Lemma invoked_attempts (qtype : string) (nodes : list callbackNode) :
  traced.invoked (traced.EvAttempt qtype <$> nodes) = [].
Proof. induction nodes as [|n nodes IH]; [reflexivity | exact IH]. Qed.

Lemma hooked_attempts (qtype : string) (nodes : list callbackNode) :
  traced.hooked (traced.EvAttempt qtype <$> nodes) = [].
Proof. induction nodes as [|n nodes IH]; [reflexivity | exact IH]. Qed.

Lemma range_types_no_match (types : list string) (c : Context) :
  Error c = None ->
  Forall (fun r => routing.is_match r.2 (backend.Query.QName (Query c)) = false)
    (setup.candidates d types) ->
  exists c' tr,
    traced.range_types d c types = (Next c', tr)
    /\ Query c' = Query c /\ Answers c' = Answers c /\ Error c' = None
    /\ traced.invoked tr = [] /\ traced.hooked tr = [].
Proof.
  revert c. induction types as [|qtype types IH]; intros c Hc Hall.
  - exists c, []. simpl. auto 10.
  - rewrite candidates_cons in Hall. apply Forall_app in Hall as [Hhere Hrest].
    cbn [traced.range_types].
    rewrite (range_nodes_no_match qtype (set_QType qtype c) (nodes_of d qtype) Hc)
      by (apply Forall_fmap in Hhere; exact Hhere).
    destruct (IH (set_QType qtype c) Hc Hrest)
      as (c' & tr & -> & Hq & Ha & He & Hi & Hh).
    exists c', ((traced.EvAttempt qtype <$> nodes_of d qtype) ++ tr)%list.
    conjs; try assumption; try reflexivity.
    + rewrite invoked_app, Hi, app_nil_r. apply invoked_attempts.
    + pose proof (hooked_attempts qtype (nodes_of d qtype)) as Hh'.
      unfold traced.hooked in *. now rewrite omap_app, Hh, app_nil_r.
Qed.

(** When no pattern that the pass would try matches the name of the
    query (in particular when nothing is registered for its type),
    [Lookup] answers with no reply and no error, and has called neither a
    handler nor the hook. *)
Theorem Lookup_no_match (q : backend.Query.t) :
  Forall (fun r => routing.is_match r.2 (backend.Query.QName q) = false)
    (setup.candidates d (runOn d q)) ->
  Lookup d q = ([], None)
  /\ traced.invoked (traced.calls d q) = []
  /\ traced.hooked (traced.calls d q) = [].
Proof.
  intros Hall. unfold Lookup, traced.calls. rewrite <- pass_erase.
  unfold traced.pass.
  destruct (range_types_no_match (runOn d q) (fresh d q) eq_refl Hall)
    as (c' & tr & -> & _ & Ha & _ & Hi & Hh).
  simpl. rewrite Ha. auto.
Qed.

(** A hook that always sets an error. *)
Lemma runNode_veto (before : Callback) (c c' : Context) (node : callbackNode)
    (tr : list traced.event) :
  beforeCallback d = Some before ->
  (forall c0, Error (before c0) ≠ None) ->
  traced.runNode d c node = (c', tr) ->
  traced.invoked tr = []
  /\ ((c' = c /\ tr = []) \/ (Error c' ≠ None /\ length (traced.hooked tr) = 1%nat)).
Proof.
  intros Hb Hveto. unfold traced.runNode. rewrite Hb.
  destruct (matcher node _) as [[|whole groups]|].
  1,3: intros [= <- <-]; auto.
  specialize (Hveto (set_Matches groups c)).
  destruct (Error (before (set_Matches groups c))) as [e|] eqn:He;
    [|contradiction].
  intros [= <- <-]. simpl. rewrite He. split; [reflexivity|]. right. auto.
Qed.

Lemma range_nodes_veto (before : Callback) (qtype : string)
    (nodes : list callbackNode) (c : Context) :
  beforeCallback d = Some before ->
  (forall c0, Error (before c0) ≠ None) ->
  Error c = None ->
  exists f tr,
    traced.range_nodes d qtype c nodes = (f, tr)
    /\ traced.invoked tr = []
    /\ match f with
       | Next c' => c' = c /\ traced.hooked tr = []
       | Abort _ _ => length (traced.hooked tr) = 1%nat
       end.
Proof.
  intros Hb Hveto Hc. induction nodes as [|node nodes IH].
  - exists (Next c), []. auto.
  - simpl. destruct (traced.runNode d c node) as [c1 tr1] eqn:Hn.
    destruct (runNode_veto before c c1 node tr1 Hb Hveto Hn)
      as [Hi [[-> ->] | [He Hh]]].
    + rewrite Hc. destruct IH as (f & tr & -> & Hi' & Hf).
      exists f, (traced.EvAttempt qtype node :: tr). auto.
    + destruct (Error c1) as [e|]; [|contradiction].
      exists (Abort c1 e), (traced.EvAttempt qtype node :: tr1). auto.
Qed.

Lemma range_types_veto (before : Callback) (types : list string) (c : Context) :
  beforeCallback d = Some before ->
  (forall c0, Error (before c0) ≠ None) ->
  Error c = None ->
  exists f tr,
    traced.range_types d c types = (f, tr)
    /\ traced.invoked tr = []
    /\ match f with
       | Next c' => Answers c' = Answers c /\ traced.hooked tr = []
       | Abort _ _ => length (traced.hooked tr) = 1%nat
       end.
Proof.
  intros Hb Hveto. revert c. induction types as [|qtype types IH]; intros c Hc.
  - exists (Next c), []. auto.
  - cbn [traced.range_types].
    destruct (range_nodes_veto before qtype (nodes_of d qtype)
                (set_QType qtype c) Hb Hveto Hc) as (f1 & tr1 & -> & Hi1 & Hf1).
    destruct f1 as [c1|c1 e].
    + destruct Hf1 as [-> Hh1].
      destruct (IH (set_QType qtype c) Hc) as (f & tr & -> & Hi & Hf).
      exists f, (tr1 ++ tr)%list. conjs; [reflexivity | |].
      * now rewrite invoked_app, Hi1, Hi.
      * unfold traced.hooked in *. rewrite omap_app, Hh1. exact Hf.
    + exists (Abort c1 e), tr1. auto.
Qed.

(** A hook that sets an error whatever it is given stops everything:
    [Lookup] calls no handler and returns no reply, and the hook itself
    is called once at most, on the first pattern that matches. *)
Theorem hook_veto (before : Callback) (q : backend.Query.t) :
  beforeCallback d = Some before ->
  (forall c, Error (before c) ≠ None) ->
  traced.invoked (traced.calls d q) = []
  /\ (Lookup d q).1 = []
  /\ (length (traced.hooked (traced.calls d q)) <= 1)%nat.
Proof.
  intros Hb Hveto. unfold Lookup, traced.calls. rewrite <- pass_erase.
  unfold traced.pass.
  destruct (range_types_veto before (runOn d q) (fresh d q) Hb Hveto eq_refl)
    as (f & tr & -> & Hi & Hf).
  simpl. split; [exact Hi|]. destruct f as [c'|c' e].
  - destruct Hf as [Ha Hh]. rewrite Hh. split; [exact Ha | simpl; lia].
  - rewrite Hf. split; [reflexivity | lia].
Qed.





End PassMore.

Section PassOfBuilt.

Import dsl.



End PassOfBuilt.

Section PassMoreOnTests.

Import dsl test_helpers.

(** A router whose only pattern is for another name, and a type for
    which nothing is registered. *)
Lemma Lookup_no_match_witness :
  Lookup (setup.build 3600 [setup.CallRegister "A" (exactly "other") (replies "x")])
         (query_of_type "A") = ([], None)
  /\ Lookup (setup.build 3600 mx_a_txt) (query_of_type "AAAA") = ([], None).
Proof.
  split.
  - apply (Lookup_no_match
             (setup.build 3600
                [setup.CallRegister "A" (exactly "other") (replies "x")])
             (query_of_type "A")).
    repeat constructor.
  - apply (Lookup_no_match (setup.build 3600 mx_a_txt) (query_of_type "AAAA")).
    constructor.
Defined.

(** The router of the tests under a hook that always fails. *)
Lemma hook_veto_witness :
  traced.invoked
    (traced.calls (Before (setup.build 3600 mx_a_txt) (fails "hook" "vetoed"))
       (query_of_type "ANY")) = []
  /\ (Lookup (Before (setup.build 3600 mx_a_txt) (fails "hook" "vetoed"))
        (query_of_type "ANY")).1 = []
  /\ (length (traced.hooked
                (traced.calls
                   (Before (setup.build 3600 mx_a_txt) (fails "hook" "vetoed"))
                   (query_of_type "ANY"))) <= 1)%nat.
Proof.
  apply (hook_veto (Before (setup.build 3600 mx_a_txt) (fails "hook" "vetoed"))
           (fails "hook" "vetoed") (query_of_type "ANY")).
  - reflexivity.
  - intros c. discriminate.
Defined.


End PassMoreOnTests.

(** ** The engine over a whole session *)

Section RunSession.

Import backend.

Variable callback : Callback.





End RunSession.

Section RunSessionOnTests.

Import backend test_helpers.


End RunSessionOnTests.

(** ** Growing a router, and replies on the wire *)

Section GrowAndReply.

Import dsl.

Lemma apply_grows (d : DSL) (k : setup.call) :
  qtypeSort d `prefix_of` qtypeSort (setup.apply d k)
  /\ forall t, nodes_of d t `prefix_of` nodes_of (setup.apply d k) t.
Proof.
  destruct k as [qtype re f | f]; simpl.
  - split.
    + destruct (alreadyIn qtype (qtypeSort d)); simpl;
        [reflexivity | now apply prefix_app_r].
    + intros t. rewrite nodes_of_Register.
      destruct (decide (qtype = t)) as [-> | Hne];
        [now apply prefix_app_r | reflexivity].
  - split; [reflexivity | intros t; reflexivity].
Qed.

(** Setting a router up further never disturbs what is there: after any
    more calls, the discovery list starts with the discovery list of
    before, and the handlers of every type start with the handlers of
    before, in the same order. Registering a type again moves no type, and
    a later handler never gets in front of an earlier one. *)
Theorem registrations_are_append_only (ttl : Z) (ks more : list setup.call) :
  qtypeSort (setup.build ttl ks) `prefix_of` qtypeSort (setup.build ttl (ks ++ more))
  /\ forall t, nodes_of (setup.build ttl ks) t
               `prefix_of` nodes_of (setup.build ttl (ks ++ more)) t.
Proof.
  induction more as [|k more [IHs IHn]] using rev_ind.
  - rewrite app_nil_r. split; [reflexivity | intros t; reflexivity].
  - rewrite app_assoc, build_snoc.
    destruct (apply_grows (setup.build ttl (ks ++ more)) k) as [Hs Hn].
    split.
    + etransitivity; [exact IHs | exact Hs].
    + intros t. etransitivity; [apply IHn | apply Hn].
Qed.

(** A reply made by the helpers of the context carries no protocol
    version: encoded as it is, it fails with the error of an unknown
    version. [ReplyExtra] (which [Reply] calls with the name of the query
    and the default TTL, and [ReplyTTL] with the name of the query) puts
    it after the replies already there; and the loop of [Run] over the
    replies of the context, on a reliable writer at version 1, 2 or 3,
    hands to the writer what it hands for the replies that were there,
    followed by the token [DATA], the tab-joined fields and a line feed,
    where the fields are the name given, the class of the query, the type
    the pass is running, the TTL in decimal, the id of the query and the
    content, after two empty fields (scope bits and auth) at version 3. *)
Theorem reply_on_the_wire (c : Context) (qname content : string) (ttl : Z)
    (b : backend.Backend) :
  1 <= backend.ProtocolVersion b <= 3 ->
  spec.reliable (backend.io b) ->
  let v := backend.ProtocolVersion b in
  let fields :=
    ((if v =? 3 then ["" ; ""] else [])
       ++ [qname; backend.Query.QClass (Query c); QType c;
           strconv.Itoa ttl; backend.Query.Id (Query c); content])%list in
  let c' := ReplyExtra c qname content ttl in
  (exists r, last (Answers c') = Some r
             /\ backend.Response.String r
                = ("", Some (ErrorString "Unknown protocol version in response")))
  /\ exists b1 b2,
       backend.write_responses b (Some <$> Answers c)
       = (b1, backend.Returns None)
       /\ backend.write_responses b (Some <$> Answers c')
          = (b2, backend.Returns None)
       /\ wire.total (backend.io b2)
          = wire.total (backend.io b1) +:+ spec.data_line fields.
Proof.
  intros Hv Hrel v fields c'. subst v fields c'. split.
  - eexists. split; [apply last_snoc | reflexivity].
  - destruct (write_responses_reliable (Answers c) b Hrel)
      as (b1 & Hw1 & _ & _ & _ & Ht1 & _).
    destruct (write_responses_reliable
                (Answers (ReplyExtra c qname content ttl)) b Hrel)
      as (b2 & Hw2 & _ & _ & _ & Ht2 & _).
    exists b1, b2. conjs; [exact Hw1 | exact Hw2 |].
    rewrite Ht2, Ht1. unfold wire.replies_text, ReplyExtra. simpl.
    rewrite foldr_app. simpl.
    rewrite (foldr_append_base
               (wire.encode_or_log (backend.ProtocolVersion b))
               (wire.encode_or_log (backend.ProtocolVersion b) _ +:+ "")).
    rewrite append_nil_r, append_assoc. do 2 f_equal.
    unfold wire.encode_or_log. rewrite (Response_String_line _ _ Hv).
    unfold wire.response_fields.
    destruct (backend.ProtocolVersion b =? 3); reflexivity.
Qed.

(** A reply to a query of type A, written at version 3. *)
Lemma reply_on_the_wire_witness :
  exists b1 b2,
    backend.write_responses (test_helpers.negotiated 3 []) (Some <$> [])
    = (b1, backend.Returns None)
    /\ backend.write_responses (test_helpers.negotiated 3 [])
         (Some <$> Answers
                     (ReplyExtra
                        (set_QType "A" (fresh New (test_helpers.query_of_type "A")))
                        "example.com" "1.2.3.4" 3600))
       = (b2, backend.Returns None)
    /\ wire.total (backend.io b2)
       = wire.total (backend.io b1)
           +:+ spec.data_line
                 ["" ; ""; "example.com"; "IN"; "A"; "3600"; "-1"; "1.2.3.4"].
Proof.
  apply (proj2 (reply_on_the_wire
                  (set_QType "A" (fresh New (test_helpers.query_of_type "A")))
                  "example.com" "1.2.3.4" 3600 (test_helpers.negotiated 3 [])
                  ltac:(simpl; lia) ltac:(constructor))).
Defined.

End GrowAndReply.

(** ** A flush that fails *)

Section FlushFailure.

Import backend.

Variable callback : Callback.

(** When the write of an answer is accepted and the flush after it
    returns the error [e], the turn stops and [Run] returns the text of
    [e] and the stage: "while flushing FAIL response" after a request that
    failed, and "while writing END" after a request without replies,
    although it is the flush that failed. The answer has been handed to
    the writer whole: what has reached the peer followed by what is left
    in the buffer is what was there before followed by the answer, and
    how much of it has reached the peer is up to the transport. [Run]
    makes no other call on the writer, and the lines after this one are
    left unread. *)
Theorem Run_flush_failure (b : Backend) (line : string)
    (rest : list (string * option error)) (e : error)
    (passed taken moved : nat) (sc : list verdict) :
  reads (io b) = (line, None) :: rest ->
  script (io b) = Accept passed :: Refuse e taken moved :: sc ->
  let b0 := set_io (set_reads rest (io b)) b in
  let parts := SplitN (TrimRight line nl) TAB 2 in
  (forall responses e0,
     dispatch b0 callback parts = Some (responses, Some e0) ->
     exists b',
       wire.stops callback b b' line rest
         (Errorf_while e " while flushing FAIL response")
       /\ script (io b') = sc
       /\ wire.total (io b') = wire.total (io b) +:+ fail_message e0)
  /\ (dispatch b0 callback parts = Some ([], None) ->
      exists b',
        wire.stops callback b b' line rest
          (Errorf_while e " while writing END")
        /\ script (io b') = sc
        /\ wire.total (io b') = wire.total (io b) +:+ "END" +:+ nl).
Proof.
  intros Hreads Hsc b0 parts.
  assert (Hcalls : forall s, exists rw1 rw2,
               WriteString (io b0) s = (None, rw1)
               /\ Flush rw1 = (Some e, rw2)
               /\ reads rw2 = rest /\ script rw2 = sc
               /\ wire.total rw2 = wire.total (io b) +:+ s).
  { intros s. unfold WriteString, Flush, next_call, wire.total. simpl.
    rewrite Hsc. eexists _, _. split; [reflexivity|].
    cbn [script reads buffered written]. split; [reflexivity|].
    conjs; [reflexivity | reflexivity |]. cbn [buffered written].
    now rewrite !append_assoc, !first_rest_bytes. }
  assert (Hstop : forall b' err,
             Banner b' = Banner b -> ProtocolVersion b' = ProtocolVersion b ->
             reads (io b') = rest ->
             Run_line callback b0 line = Return b' (Some err) ->
             wire.stops callback b b' line rest err).
  { intros b' err HB HV HR Hl. unfold wire.stops. fold b0.
    conjs; try assumption.
    exact (Run_stop callback b b' line rest (Some err) Hreads Hl). }
  split.
  - intros responses e0 Hd.
    destruct (Hcalls (fail_message e0)) as (rw1 & rw2 & Hw & Hf & Hr & Hs & Ht).
    exists (set_io rw2 b0). conjs; [|exact Hs | exact Ht].
    apply Hstop; try reflexivity; [exact Hr|].
    unfold Run_line. fold parts. rewrite Hd, Hw. simpl. rewrite Hf. reflexivity.
  - intros Hd.
    destruct (Hcalls ("END" +:+ nl)) as (rw1 & rw2 & Hw & Hf & Hr & Hs & Ht).
    exists (set_io rw2 b0). conjs; [|exact Hs | exact Ht].
    apply Hstop; try reflexivity; [exact Hr|].
    unfold Run_line. fold parts. rewrite Hd. cbn [write_responses].
    rewrite Hw, Hf. reflexivity.
Qed.

End FlushFailure.

Section FlushFailureOnTests.

Import backend test_helpers.

(** An [AXFR] and a [PING] on a writer that accepts the write and fails
    in the flush after passing three bytes on. *)
Lemma Run_flush_failure_witness :
  (exists b',
     wire.stops EmptyDispatch
       (mkBackend "x" 3
          (mkReadWriter [("AXFR" +:+ nl, None)]
             [Accept 0; Refuse (ErrorString "broken pipe") 0 3] "" ""))
       b' ("AXFR" +:+ nl) []
       (ErrorString "broken pipe while flushing FAIL response")
     /\ script (io b') = []
     /\ wire.total (io b') = spec.log_fail "AXFR requests not supported")
  /\ (exists b',
        wire.stops EmptyDispatch
          (mkBackend "x" 3
             (mkReadWriter [("PING" +:+ nl, None)]
                [Accept 0; Refuse (ErrorString "broken pipe") 0 3] "" ""))
          b' ("PING" +:+ nl) []
          (ErrorString "broken pipe while writing END")
        /\ script (io b') = []
        /\ wire.total (io b') = "END" +:+ nl).
Proof.
  split.
  - apply (proj1 (Run_flush_failure EmptyDispatch
                    (mkBackend "x" 3
                       (mkReadWriter [("AXFR" +:+ nl, None)]
                          [Accept 0; Refuse (ErrorString "broken pipe") 0 3]
                          "" ""))
                    ("AXFR" +:+ nl) [] (ErrorString "broken pipe") 0 0 3 []
                    eq_refl eq_refl)
             [] (errors_New "AXFR requests not supported")).
    reflexivity.
  - apply (proj2 (Run_flush_failure EmptyDispatch
                    (mkBackend "x" 3
                       (mkReadWriter [("PING" +:+ nl, None)]
                          [Accept 0; Refuse (ErrorString "broken pipe") 0 3]
                          "" ""))
                    ("PING" +:+ nl) [] (ErrorString "broken pipe") 0 0 3 []
                    eq_refl eq_refl)).
    reflexivity.
Defined.

End FlushFailureOnTests.
